(** * vue-layout-grid-modern: grid layout state handlers and layout engine

    A shallow embedding of the layout state handlers of
    [src/composables/useGridLayout.ts], [useResponsiveLayout.ts],
    [src/components/GridLayout.vue] and [ResponsiveGridLayout.vue],
    together with the parts of the layout engine ([core/collision],
    [core/compactors], [core/layout], [core/responsive]) that the handlers
    call.  The engine modules are not part of the sources at hand: the
    handlers are written against the interfaces [CoreLayout] and
    [CoreResponsive], and the definitions of module [Engine] follow the
    written specification of the engine.

    Around the handlers: the width measurement of
    [src/composables/useContainerWidth.ts], the drag gesture of
    [src/components/GridItem.vue], the selector of
    [src/components/ComponentSelector.vue] and the page of
    [examples/App.vue].

    Grid coordinates and pixel widths are integers ([Z]); an optional field
    of a JavaScript object is an [option]; an object used as a dictionary is
    a [gmap] with string keys. *)

From stdpp Require Import gmap strings list sorting.
From stdpp Require Import pretty.
From Stdlib Require Import Ascii.

#[local] Open Scope Z_scope.

(* ------------------------------------------------------------------ *)
(** * Data model (core/types) *)
(* ------------------------------------------------------------------ *)

(** [ResizeHandleAxis]: the edge or corner a resize gesture holds. *)
Inductive ResizeHandleAxis : Type :=
| handle_s | handle_w | handle_e | handle_n
| handle_sw | handle_nw | handle_se | handle_ne.

#[global] Instance ResizeHandleAxis_eq_dec : EqDecision ResizeHandleAxis.
Proof. solve_decision. Defined.

(** [CompactType]: the compaction strategy a compactor announces. *)
Inductive CompactType : Type := Vertical | Horizontal | NoCompaction.

#[global] Instance CompactType_eq_dec : EqDecision CompactType.
Proof. solve_decision. Defined.

(** [LayoutItem].  The fields carry the source names behind the prefix
    [li_]; [li_static], [li_moved] and the per-item overrides are optional
    in the source objects (the drag placeholder of the component has none of
    them). *)
Record LayoutItem : Type := mkLayoutItem {
  li_i : string;
  li_x : Z;
  li_y : Z;
  li_w : Z;
  li_h : Z;
  li_minW : option Z;
  li_minH : option Z;
  li_maxW : option Z;
  li_maxH : option Z;
  li_static : option bool;
  li_isDraggable : option bool;
  li_isResizable : option bool;
  li_resizeHandles : option (list ResizeHandleAxis);
  li_moved : option bool
}.

#[global] Instance LayoutItem_eq_dec : EqDecision LayoutItem.
Proof. solve_decision. Defined.

(** A [Layout] is an ordered array of items. *)
Abbreviation Layout := (list LayoutItem).

(** [Breakpoints]: breakpoint name to a number (a minimal width, or a
    column count); [ResponsiveLayouts]: breakpoint name to a stored layout. *)
Abbreviation Breakpoints := (gmap string Z).
Abbreviation ResponsiveLayouts := (gmap string Layout).

(** A plain item, as written in a layout literal
    [{ i, x, y, w, h }]. *)
Definition item (i : string) (x y w h : Z) : LayoutItem :=
  mkLayoutItem i x y w h None None None None None None None None None.

(** JavaScript truthiness of an optional boolean field ([if (item.static)]). *)
Definition truthy (b : option bool) : bool := default false b.

(** Object spread with one field replaced: [{ ...item, x }] and the like. *)
Definition with_x (v : Z) (it : LayoutItem) : LayoutItem :=
  mkLayoutItem (li_i it) v (li_y it) (li_w it) (li_h it)
    (li_minW it) (li_minH it) (li_maxW it) (li_maxH it) (li_static it)
    (li_isDraggable it) (li_isResizable it) (li_resizeHandles it) (li_moved it).

Definition with_y (v : Z) (it : LayoutItem) : LayoutItem :=
  mkLayoutItem (li_i it) (li_x it) v (li_w it) (li_h it)
    (li_minW it) (li_minH it) (li_maxW it) (li_maxH it) (li_static it)
    (li_isDraggable it) (li_isResizable it) (li_resizeHandles it) (li_moved it).

Definition with_w (v : Z) (it : LayoutItem) : LayoutItem :=
  mkLayoutItem (li_i it) (li_x it) (li_y it) v (li_h it)
    (li_minW it) (li_minH it) (li_maxW it) (li_maxH it) (li_static it)
    (li_isDraggable it) (li_isResizable it) (li_resizeHandles it) (li_moved it).

Definition with_h (v : Z) (it : LayoutItem) : LayoutItem :=
  mkLayoutItem (li_i it) (li_x it) (li_y it) (li_w it) v
    (li_minW it) (li_minH it) (li_maxW it) (li_maxH it) (li_static it)
    (li_isDraggable it) (li_isResizable it) (li_resizeHandles it) (li_moved it).

Definition with_i (v : string) (it : LayoutItem) : LayoutItem :=
  mkLayoutItem v (li_x it) (li_y it) (li_w it) (li_h it)
    (li_minW it) (li_minH it) (li_maxW it) (li_maxH it) (li_static it)
    (li_isDraggable it) (li_isResizable it) (li_resizeHandles it) (li_moved it).

Definition with_static (v : option bool) (it : LayoutItem) : LayoutItem :=
  mkLayoutItem (li_i it) (li_x it) (li_y it) (li_w it) (li_h it)
    (li_minW it) (li_minH it) (li_maxW it) (li_maxH it) v
    (li_isDraggable it) (li_isResizable it) (li_resizeHandles it) (li_moved it).

Definition with_moved (v : option bool) (it : LayoutItem) : LayoutItem :=
  mkLayoutItem (li_i it) (li_x it) (li_y it) (li_w it) (li_h it)
    (li_minW it) (li_minH it) (li_maxW it) (li_maxH it) (li_static it)
    (li_isDraggable it) (li_isResizable it) (li_resizeHandles it) v.

(** The [Compactor] interface of core/types, as the handlers use it:
    [compactor.type], [compactor.allowOverlap], the optional
    [compactor.preventCollision] and the method [compactor.compact]. *)
Record Compactor : Type := mkCompactor {
  type : CompactType;
  allowOverlap : bool;
  preventCollision : option bool;
  compact : Layout → Z → Layout
}.

(* ------------------------------------------------------------------ *)
(** * The engine as the handlers import it *)
(* ------------------------------------------------------------------ *)

(** The functions the handlers import from core/layout and
    core/compactors.  The handlers below are written against this interface;
    what they prove holds for every engine behind it. *)
Class CoreLayout : Type := mkCoreLayout {
  cloneLayoutItem : LayoutItem → LayoutItem;
  cloneLayout : Layout → Layout;
  getLayoutItem : Layout → string → option LayoutItem;
  (** [moveElement(layout, l, x, y, isUserAction, preventCollision,
      compactType, cols, allowOverlap)] *)
  moveElement :
    Layout → LayoutItem → Z → Z → bool → bool → CompactType → Z → bool → Layout;
  (** [resizeElement(layout, l, w, h, x, y, isUserAction, preventCollision,
      compactType, cols, allowOverlap)]; [x] and [y] may be [undefined]. *)
  resizeElement :
    Layout → LayoutItem → Z → Z → option Z → option Z →
    bool → bool → CompactType → Z → bool → Layout;
  (** [correctBounds(layout, { cols })] *)
  correctBounds : Layout → Z → Layout;
  getCompactor : CompactType → Compactor;
  verticalCompactor : Compactor
}.

(** A pair of pixel values, [readonly [number, number]]. *)
Abbreviation Indentation := (Z * Z)%type.

(** The [margin] and [containerPadding] props of the responsive component:
    one pair, or a pair per breakpoint. *)
Inductive IndentationProp : Type :=
| indent_fixed (v : Indentation)
| indent_perBreakpoint (m : gmap string Indentation).

(** The functions the handlers import from core/responsive. *)
Class CoreResponsive : Type := mkCoreResponsive {
  getBreakpointFromWidth : Breakpoints → Z → string;
  getColsFromBreakpoint : string → Breakpoints → Z;
  (** [findOrGenerateResponsiveLayout(layouts, breakpoints, breakpoint,
      lastBreakpoint, cols, compactor)] *)
  findOrGenerateResponsiveLayout :
    ResponsiveLayouts → Breakpoints → string → string → Z → Compactor → Layout;
  getIndentationValue : IndentationProp → string → Indentation
}.

(** [deepEqual] of fast-equals on plain data is structural equality. *)
Definition deepEqual {A : Type} `{EqDecision A} (a b : A) : bool :=
  bool_decide (a = b).

(* ------------------------------------------------------------------ *)
(** * The layout engine, from its specification *)
(* ------------------------------------------------------------------ *)

Module Engine.

(** Modelled from the spec: [clamp] of core/calculate is not among the
    sources.  "A clamp(value, min, max) helper underlies all bounds logic";
    the lower bound wins when the bounds cross, in line with "w<1 or h<1 is
    treated as 1". *)
Definition clamp (value lo hi : Z) : Z := Z.max lo (Z.min value hi).

(** Modelled from the spec: the interval test behind [collides] of
    core/collision, which is not among the sources.  "Axis-aligned
    bounding-box overlap test over [x, x+w) x [y, y+h) (half-open intervals,
    so adjacent edges never collide).  Zero-area items never collide." *)
Definition overlaps (a la b lb : Z) : bool :=
  bool_decide (Z.max a b < Z.min (a + la) (b + lb)).

(** Modelled from the spec: [collides] of core/collision (not among the
    sources), the overlap test on both axes. *)
Definition collides (a b : LayoutItem) : bool :=
  overlaps (li_x a) (li_w a) (li_x b) (li_w b)
  && overlaps (li_y a) (li_h a) (li_y b) (li_h b).

(** Modelled from the spec: the test of [getFirstCollision] and
    [getAllCollisions] of core/collision, which are not among the sources:
    an "other item (by id, excluding self) whose box overlaps". *)
Definition hits (it other : LayoutItem) : bool :=
  bool_decide (li_i other ≠ li_i it) && collides it other.

(** Modelled from the spec: [getFirstCollision] of core/collision (not
    among the sources).  "Scans layout in order, returns the first other
    item (by id, excluding self) whose box overlaps." *)
Definition getFirstCollision (layout : Layout) (it : LayoutItem)
  : option LayoutItem :=
  List.find (hits it) layout.

(** Modelled from the spec: [getAllCollisions] of core/collision (not
    among the sources), which "returns every such item". *)
Definition getAllCollisions (layout : Layout) (it : LayoutItem) : Layout :=
  List.filter (hits it) layout.

(** Modelled from the spec: [getLayoutItem] of core/layout is not among the
    sources.  The lookup of an item by id, with a "not found" result for an
    unknown id. *)
Definition getLayoutItem (layout : Layout) (id : string) : option LayoutItem :=
  List.find (λ it, bool_decide (li_i it = id)) layout.

(** Modelled from the spec: [cloneLayoutItem] of core/layout is not among
    the sources.  Items are "plain, JSON-representable structures" and
    "immutable snapshots"; a structural copy of a value is the value. *)
Definition cloneLayoutItem (it : LayoutItem) : LayoutItem := it.

(** Modelled from the spec: [cloneLayout] of core/layout is not among the
    sources; the copy of a layout is the copy of its items. *)
Definition cloneLayout (layout : Layout) : Layout := cloneLayoutItem <$> layout.

(** Modelled from the spec: the per-item step of [correctBounds] of
    core/layout, which is not among the sources.  "For every item, clamps w
    to [1, cols], h to >= 1, x to [0, cols - w]"; "out-of-range x/y is
    clamped by the Bounds Corrector"; static items "are corrected only
    against grid bounds, never against occupancy", so they take the same
    clamps. *)
Definition correctItem (cols : Z) (it : LayoutItem) : LayoutItem :=
  let w' := clamp (li_w it) 1 cols in
  let h' := Z.max 1 (li_h it) in
  let x' := clamp (li_x it) 0 (cols - w') in
  let y' := Z.max 0 (li_y it) in
  with_x x' (with_y y' (with_w w' (with_h h' it))).

(** Modelled from the spec: [correctBounds] of core/layout (not among the
    sources), the correction of every item. *)
Definition correctBounds (layout : Layout) (cols : Z) : Layout :=
  correctItem cols <$> layout.


(** ** Rows that are still to be resolved *)

(** Modelled from the spec: the row of an item as a host writes it.  "y may
    be a sentinel meaning append at bottom"; the sentinel is "an explicit
    named constant", not a number. *)
Inductive Row : Type := row (y : Z) | appendAtBottom.

(** Modelled from the spec: [bottom] of core/layout is not among the
    sources.  "One past the current maximum row": the first row below every
    item, row 0 for the empty layout. *)
Definition bottom (layout : Layout) : Z :=
  foldr (λ it b, Z.max (li_y it + li_h it) b) 0 layout.

(** Modelled from the spec: "the current maximum row" is taken over the
    items of a host layout that have a row of their own. *)
Definition knownRows (host : list (Row * LayoutItem)) : Layout :=
  omap (λ p, match p.1 with
             | row y => Some (with_y y p.2)
             | appendAtBottom => None
             end) host.

(** Modelled from the spec: the resolution of the sentinel, which is not
    among the sources.  The sentinel is "resolved to one past the current
    maximum row before any arithmetic": every function of the engine below
    sees rows that are numbers. *)
Definition resolveRows (host : list (Row * LayoutItem)) : Layout :=
  let b := bottom (knownRows host) in
  (λ p, with_y (match p.1 with row y => y | appendAtBottom => b end) p.2)
    <$> host.

(** ** Compaction *)

(** Modelled from the spec: the compaction axis of a compactor of
    core/compactors (not among the sources), "y -> 0 for vertical, x -> 0
    for horizontal". *)
Inductive Axis : Type := AxisY | AxisX.

(** The coordinate of an item along the compaction axis, the coordinate
    across it, and the item with the first replaced. *)
Definition pos (ax : Axis) (it : LayoutItem) : Z :=
  match ax with AxisY => li_y it | AxisX => li_x it end.

Definition cross (ax : Axis) (it : LayoutItem) : Z :=
  match ax with AxisY => li_x it | AxisX => li_y it end.

Definition with_pos (ax : Axis) (v : Z) (it : LayoutItem) : LayoutItem :=
  match ax with AxisY => with_y v it | AxisX => with_x v it end.

(** The extent of an item along the compaction axis and across it. *)
Definition len (ax : Axis) (it : LayoutItem) : Z :=
  match ax with AxisY => li_h it | AxisX => li_w it end.

Definition clen (ax : Axis) (it : LayoutItem) : Z :=
  match ax with AxisY => li_w it | AxisX => li_h it end.

(** An item together with its index in the layout array. *)
Abbreviation Entry := (nat * LayoutItem)%type.

(** The items of a layout, each with its index. *)
Definition indexed (layout : Layout) : list Entry := imap pair layout.

(** Modelled from the spec: the order of the sort of core/sort, which is
    not among the sources.  "Vertical sorts by (y, x) ascending; horizontal
    sorts by (x, y) ascending"; "ties in starting order are broken strictly
    by Layout array order (the sort must be stable)": the array index is the
    last key. *)
Definition key_le (ax : Axis) (a b : Entry) : Prop :=
  pos ax a.2 < pos ax b.2
  ∨ (pos ax a.2 = pos ax b.2
     ∧ (cross ax a.2 < cross ax b.2
        ∨ (cross ax a.2 = cross ax b.2 ∧ (a.1 ≤ b.1)%nat))).

#[global] Instance key_le_dec ax : RelDecision (key_le ax).
Proof. intros a b. unfold key_le. apply _. Defined.

(** Modelled from the spec: [sortLayoutItems] of core/sort (not among the
    sources), the items in the order of [key_le]. *)
Definition sortLayoutItems (ax : Axis) (layout : Layout) : list Entry :=
  merge_sort (key_le ax) (indexed layout).

(** Modelled from the spec: the stop test of the per-item step of
    core/compactors, which is not among the sources.  "Repeatedly move it
    toward the leading edge of its compaction axis one unit at a time until
    it would collide with a previously placed item (static or
    already-compacted) or reach the grid edge." *)
Definition blocked (ax : Axis) (placed : Layout) (it : LayoutItem) : bool :=
  bool_decide (pos ax it ≤ 0)
  || bool_decide (is_Some (getFirstCollision placed
                             (with_pos ax (pos ax it - 1) it))).

(** Modelled from the spec: the loop of the per-item step, at most [n]
    rounds of one unit each. *)
Fixpoint slideN (ax : Axis) (n : nat) (placed : Layout) (it : LayoutItem)
  : LayoutItem :=
  match n with
  | O => it
  | S n' =>
      if blocked ax placed it then it
      else slideN ax n' placed (with_pos ax (pos ax it - 1) it)
  end.

(** Modelled from the spec: the move toward the leading edge; the loop
    needs at most [pos] rounds. *)
Definition slide (ax : Axis) (placed : Layout) (it : LayoutItem) : LayoutItem :=
  slideN ax (Z.to_nat (pos ax it)) placed it.

(** Modelled from the spec: "place it immediately adjacent to that
    obstacle's trailing edge".  An item that lies on a placed item goes to
    the trailing edge of that item, and on from there while it lies on
    another one; at most [n] rounds. *)
Fixpoint settleN (ax : Axis) (n : nat) (placed : Layout) (it : LayoutItem)
  : LayoutItem :=
  match n with
  | O => it
  | S n' =>
      match getFirstCollision placed it with
      | Some obstacle =>
          settleN ax n' placed
            (with_pos ax (pos ax obstacle + len ax obstacle) it)
      | None => it
      end
  end.

(** Modelled from the spec: the placement at the trailing edge.  Every
    round leaves one placed item behind for good, so the loop needs at most
    one round per placed item (lemma [settle_spec]: the item ends clear of
    all of them). *)
Definition settle (ax : Axis) (placed : Layout) (it : LayoutItem) : LayoutItem :=
  settleN ax (length placed) placed it.

(** Modelled from the spec: the per-item step of core/compactors (not among
    the sources) for an item that is not static: the move toward the leading
    edge, then the placement at the trailing edge of what it lies on.  Where
    a placed item stops an item that is clear of it, the move alone ends
    there (lemma [slide_adjacent]). *)
Definition compactItem (ax : Axis) (placed : Layout) (it : LayoutItem)
  : LayoutItem :=
  settle ax placed (slide ax placed it).

(** Modelled from the spec: the static items of a layout.  They never move
    ("static items' x, y, w, h never change as a side effect of any
    algorithm"), so they count as placed from the start of a pass:
    "previously placed item (static or already-compacted)".  An item that
    comes before a static item in the order must keep clear of it as well,
    or the pass would leave the two on one another ("after compact, no two
    items in the result satisfy collides"). *)
Definition statics (layout : Layout) : Layout :=
  List.filter (λ it, truthy (li_static it)) layout.

(** Modelled from the spec: one pass "for each non-static item in sorted
    order"; [placed] holds the "previously placed" items, static or
    compacted.  "Static items are skipped for repositioning but remain
    obstacles." *)
Fixpoint place (ax : Axis) (placed : Layout) (todo : list Entry) : list Entry :=
  match todo with
  | [] => []
  | (k, it) :: rest =>
      if truthy (li_static it) then (k, it) :: place ax placed rest
      else
        let it' := compactItem ax placed it in
        (k, it') :: place ax (placed ++ [it']) rest
  end.

(** Modelled from the spec: the result in the order of the input ("order
    is insertion order", "stable array shape"): the item of index [k] is
    the placed item that came from index [k]. *)
Definition restore (layout : Layout) (placed : list Entry) : Layout :=
  let m : gmap nat LayoutItem := list_to_map placed in
  imap (λ k it, default it (m !! k)) layout.

(** Modelled from the spec: "the intra-call transient moved flag [is]
    reset at the start of each Move/Resize or Compaction call". *)
Definition resetMoved (layout : Layout) : Layout :=
  with_moved (Some false) <$> layout.

(** Modelled from the spec: [compact] of the vertical and the horizontal
    compactor of core/compactors (not among the sources): reset, sort,
    place, restore. *)
Definition compactAxis (ax : Axis) (layout : Layout) : Layout :=
  let l0 := resetMoved layout in
  restore l0 (place ax (statics l0) (sortLayoutItems ax l0)).

(** Modelled from the spec: the per-item step of the overlap variants.
    "Allow overlap variants skip the obstacle check entirely and only clamp
    to the axis origin/bound": rows have an origin only, columns an origin
    and the bound [cols - w]. *)
Definition clampItem (ax : Axis) (cols : Z) (it : LayoutItem) : LayoutItem :=
  if truthy (li_static it) then it
  else match ax with
       | AxisY => with_y (Z.max 0 (li_y it)) it
       | AxisX => with_x (clamp (li_x it) 0 (cols - li_w it)) it
       end.

(** Modelled from the spec: [compact] of the overlap variants of
    core/compactors (not among the sources). *)
Definition compactOverlap (ax : Axis) (layout : Layout) (cols : Z) : Layout :=
  clampItem ax cols <$> resetMoved layout.

(** Modelled from the spec: [compact] of the compactors of core/compactors,
    which are not among the sources.  "A strategy polymorphic over
    {vertical, horizontal, none}, each with an allow-overlap variant (6 total
    behaviors)"; "none performs no sort and no repositioning (only returns
    the input unchanged)". *)
Definition compactWith (t : CompactType) (overlap : bool)
  (layout : Layout) (cols : Z) : Layout :=
  match t, overlap with
  | NoCompaction, _ => layout
  | Vertical, false => compactAxis AxisY layout
  | Horizontal, false => compactAxis AxisX layout
  | Vertical, true => compactOverlap AxisY layout cols
  | Horizontal, true => compactOverlap AxisX layout cols
  end.

(** Modelled from the spec: the six compactors of core/compactors (not
    among the sources) as [Compactor] objects; none of them asks to prevent
    collisions. *)
Definition getCompactor (t : CompactType) (overlap : bool) : Compactor :=
  mkCompactor t overlap None (compactWith t overlap).

(** Modelled from the spec: [verticalCompactor], [horizontalCompactor] and
    [noCompactor] of core/compactors (not among the sources). *)
Definition verticalCompactor : Compactor := getCompactor Vertical false.
Definition noCompactor : Compactor := getCompactor NoCompaction false.

(** A compactor of the engine with the optional [preventCollision] of the
    [Compactor] interface set by the host, as in
    [{ ...verticalCompactor, preventCollision: true }]. *)
Definition preventing (prevent : option bool) (t : CompactType)
  (overlap : bool) : Compactor :=
  mkCompactor t overlap prevent (compactWith t overlap).



(** ** Notions for reasoning about a compaction pass *)

(** [a] comes strictly before [b] in the processing order. *)
Definition key_lt (ax : Axis) (a b : Entry) : Prop :=
  key_le ax a b ∧ a.1 ≠ b.1.

(** [f] is placed by the time [e] is: it is static, or it comes before [e]
    in the processing order. *)
Definition placedBefore (ax : Axis) (e f : Entry) : Prop :=
  truthy (li_static f.2) = true ∨ key_lt ax f e.

(** An entry is at rest among the entries [es]: it is static, or it sits at
    the grid edge or is stopped by an entry placed before it, and it is
    clear of every entry placed before it. *)
Definition atRest (ax : Axis) (es : list Entry) (e : Entry) : Prop :=
  truthy (li_static e.2) = true
  ∨ ((pos ax e.2 ≤ 0
      ∨ ∃ f, f ∈ es ∧ placedBefore ax e f
             ∧ hits (with_pos ax (pos ax e.2 - 1) e.2) f.2 = true)
     ∧ ∀ f, f ∈ es → placedBefore ax e f → hits e.2 f.2 = false).

(** [b] is the entry [a] after a pass: moved along the axis, or as it was
    when it is static. *)
Definition shifted (ax : Axis) (a b : Entry) : Prop :=
  a.1 = b.1 ∧ b.2 = with_pos ax (pos ax b.2) a.2
  ∧ (truthy (li_static a.2) = true → b = a).

(** The placed items that an item at the position of [it] has not left
    behind yet. *)
Definition ahead (ax : Axis) (placed : Layout) (it : LayoutItem) : Layout :=
  filter (λ c, pos ax it < pos ax c + len ax c) placed.

(** ** Moves and resizes *)

(** Modelled from the spec: "place the item at the new coordinates": the
    item of a layout that has the id of [it'], replaced by [it']. *)
Definition replaceItem (layout : Layout) (it' : LayoutItem) : Layout :=
  (λ o, if bool_decide (li_i o = li_i it') then it' else o) <$> layout.

(** Modelled from the spec: the axis of a displacement, "down for vertical,
    right for horizontal"; without compaction there is no axis to displace
    along. *)
Definition axisOf (t : CompactType) : option Axis :=
  match t with
  | Vertical => Some AxisY
  | Horizontal => Some AxisX
  | NoCompaction => None
  end.

(** Modelled from the spec: an item after its displacement, "one step
    further along the compaction axis", with the [moved] flag that marks it
    as visited. *)
Definition displaced (ax : Axis) (it : LayoutItem) : LayoutItem :=
  with_moved (Some true) (with_pos ax (pos ax it + 1) it).

(** Modelled from the spec: the items a displacement may take: static
    items never move, and "an item is displaced at most once per call
    (tracked via the transient moved flag)". *)
Definition movable (it : LayoutItem) : bool :=
  negb (truthy (li_static it)) && negb (truthy (li_moved it)).

(** Modelled from the spec: the layout after the displacement of the item
    of an id; the other items stay as they are. *)
Definition displaceItem (ax : Axis) (id : string) (layout : Layout) : Layout :=
  (λ o, if bool_decide (li_i o = id) then displaced ax o else o) <$> layout.

(** Modelled from the spec: the displacement chain of core/layout, which is
    not among the sources.  "Resolve each colliding item by displacing it one
    step further along the compaction axis ... and recursively re-check
    collisions for the displaced item - this chain can cascade through
    multiple items."  The chain is at most [n] items deep. *)
Fixpoint displaceN (ax : Axis) (n : nat) (layout : Layout) (mover : LayoutItem)
  : Layout :=
  match n with
  | O => layout
  | S n' =>
      foldl (λ lay c,
               match getLayoutItem lay (li_i c) with
               | Some now =>
                   if movable now
                   then displaceN ax n' (displaceItem ax (li_i c) lay)
                          (displaced ax now)
                   else lay
               | None => lay
               end)
        layout (getAllCollisions layout mover)
  end.

(** Modelled from the spec: step 4 of the move, shared with the resize.
    "Place the item at the new coordinates and compute collisions.  If
    overlap is not allowed, resolve each colliding item by displacing it";
    the [moved] flags are "reset at the start of each Move/Resize" and the
    placed item is marked, so that the chain does not come back to it.  The
    chain "bounds the recursion to the item count". *)
Definition arrange (compactType : CompactType) (allowOverlap : bool)
  (layout : Layout) (target : LayoutItem) : Layout :=
  let mover := with_moved (Some true) target in
  let placed := replaceItem (resetMoved layout) mover in
  match axisOf compactType with
  | Some ax =>
      if allowOverlap then placed
      else displaceN ax (length placed) placed mover
  | None => placed
  end.

(** Modelled from the spec: the test of step 3, "preventCollision is true
    and any other non-overlap-allowed item occupies the target box". *)
Definition rejected (preventCollision allowOverlap : bool) (layout : Layout)
  (target : LayoutItem) : bool :=
  preventCollision && negb allowOverlap
  && bool_decide (is_Some (getFirstCollision layout target)).

(** Modelled from the spec: [moveElement] of core/layout is not among the
    sources.  "If item.static, return layout unchanged"; "clamp newX to [0,
    cols - item.w]"; a rejected move "return[s] the layout with the item
    unchanged at its prior position"; "otherwise, place the item at the new
    coordinates" and displace what it lies on. *)
Definition moveElement (layout : Layout) (it : LayoutItem) (newX newY : Z)
  (isUserAction preventCollision : bool) (compactType : CompactType)
  (cols : Z) (allowOverlap : bool) : Layout :=
  if truthy (li_static it) then layout
  else
    let target := with_y newY (with_x (clamp newX 0 (cols - li_w it)) it) in
    if rejected preventCollision allowOverlap layout target then layout
    else arrange compactType allowOverlap layout target.

(** Modelled from the spec: the size clamp of [resizeElement] (not among
    the sources), which "clamps newW, newH to the item's min/max bounds". *)
Definition clampSize (v : Z) (lo hi : option Z) : Z :=
  let v := match hi with Some m => Z.min v m | None => v end in
  match lo with Some m => Z.max m v | None => v end.

(** Modelled from the spec: the item a resize asks for.  "First clamps
    newW, newH to the item's min/max bounds, and ... adjusts x/y by the
    caller-supplied newX/newY". *)
Definition resizeTarget (it : LayoutItem) (newW newH : Z) (newX newY : option Z)
  : LayoutItem :=
  let w' := clampSize newW (li_minW it) (li_maxW it) in
  let h' := clampSize newH (li_minH it) (li_maxH it) in
  with_y (default (li_y it) newY)
    (with_x (default (li_x it) newX) (with_h h' (with_w w' it))).

(** Modelled from the spec: [resizeElement] of core/layout is not among the
    sources.  "Identical displacement semantics" to the move: a static item
    and a rejected resize return the layout unchanged, and "the same
    displacement-chain algorithm resolves items newly overlapped". *)
Definition resizeElement (layout : Layout) (it : LayoutItem) (newW newH : Z)
  (newX newY : option Z) (isUserAction preventCollision : bool)
  (compactType : CompactType) (cols : Z) (allowOverlap : bool) : Layout :=
  if truthy (li_static it) then layout
  else
    let target := resizeTarget it newW newH newX newY in
    if rejected preventCollision allowOverlap layout target then layout
    else arrange compactType allowOverlap layout target.

(** The number of items of a layout that a displacement may still take. *)
Definition movableCount (layout : Layout) : nat :=
  length (List.filter movable layout).

(** ** Size bounds *)

(** The size of an item lies within its own bounds, where it has any. *)
Definition withinSizeBounds (it : LayoutItem) : Prop :=
  (∀ m, li_minW it = Some m → m ≤ li_w it)
  ∧ (∀ m, li_maxW it = Some m → li_w it ≤ m)
  ∧ (∀ m, li_minH it = Some m → m ≤ li_h it)
  ∧ (∀ m, li_maxH it = Some m → li_h it ≤ m).

(** The size bounds of an item leave room for a size, and for one that a
    grid of [cols] columns holds: no minimum above its maximum, no minimal
    width above [cols], no maximum below one unit. *)
Definition boundsFit (cols : Z) (it : LayoutItem) : Prop :=
  (∀ lo hi, li_minW it = Some lo → li_maxW it = Some hi → lo ≤ hi)
  ∧ (∀ lo, li_minW it = Some lo → lo ≤ cols)
  ∧ (∀ hi, li_maxW it = Some hi → 1 ≤ hi)
  ∧ (∀ lo hi, li_minH it = Some lo → li_maxH it = Some hi → lo ≤ hi)
  ∧ (∀ hi, li_maxH it = Some hi → 1 ≤ hi).

(** [b] is the item [a] up to its position and its [moved] flag. *)
Definition sameSize (a b : LayoutItem) : Prop :=
  li_i a = li_i b ∧ li_w a = li_w b ∧ li_h a = li_h b
  ∧ li_minW a = li_minW b ∧ li_maxW a = li_maxW b
  ∧ li_minH a = li_minH b ∧ li_maxH a = li_maxH b.
(** ** Breakpoints *)

(** Modelled from the spec: the choice behind [getBreakpointFromWidth]
    ("the one with the largest min-width", "the smallest min-width"): the
    entry of a list that [prefer]s over all others, the first of them on a
    tie. *)
Definition pick (prefer : Z → Z → bool) (l : list (string * Z))
  : option (string * Z) :=
  foldl (λ acc p,
           match acc with
           | None => Some p
           | Some q => if prefer p.2 q.2 then Some p else Some q
           end) None l.

(** Modelled from the spec: "the one with the largest min-width". *)
Definition largest : list (string * Z) → option (string * Z) :=
  pick (λ a b, bool_decide (b < a)).

(** Modelled from the spec: "the breakpoint with the smallest min-width". *)
Definition smallest : list (string * Z) → option (string * Z) :=
  pick (λ a b, bool_decide (a < b)).

(** Modelled from the spec: [getBreakpointFromWidth] of core/responsive is
    not among the sources.  "Among breakpoints whose min-width <= target
    width, pick the one with the largest min-width; if none qualifies, use
    the breakpoint with the smallest min-width."  Without any breakpoint
    there is no result ("the only fatal condition is ... no breakpoints
    defined"). *)
Definition getBreakpointFromWidth (bps : Breakpoints) (width : Z)
  : option string :=
  let all := map_to_list bps in
  let qualifying := filter (λ p, p.2 ≤ width) all in
  fst <$> (match largest qualifying with
           | Some p => Some p
           | None => smallest all
           end).

(** Modelled from the spec: [getColsFromBreakpoint] of core/responsive is
    not among the sources: the column count of a breakpoint, none where the
    configuration has no entry for it (a "malformed breakpoint
    configuration"). *)
Definition getColsFromBreakpoint (bp : string) (cols : Breakpoints) : option Z :=
  cols !! bp.

(** Modelled from the spec: [round] of a quotient with a positive divisor,
    halves upward as [Math.round] has them. *)
Definition roundDiv (a b : Z) : Z := (2 * a + b) `div` (2 * b).

(** Modelled from the spec: the scaling of one item.  "newX = round(oldX x
    newCols/oldCols), newW likewise, each clamped to [1, newCols] and
    re-bounded": the width is kept within [1, newCols], and the position
    within the columns that this width leaves, from column 0 on. *)
Definition scaleItem (oldCols newCols : Z) (it : LayoutItem) : LayoutItem :=
  let w' := clamp (roundDiv (li_w it * newCols) oldCols) 1 newCols in
  let x' := clamp (roundDiv (li_x it * newCols) oldCols) 0 (newCols - w') in
  with_x x' (with_w w' it).

(** Modelled from the spec: [findOrGenerateResponsiveLayout] of
    core/responsive is not among the sources.  "If a stored Layout exists
    for the target breakpoint, use it (after Bounds Correction +
    Compaction).  Otherwise, derive one from the previous breakpoint's
    Layout by scaling each item proportionally ..., followed by Bounds
    Correction and Compaction."  The column count of the previous breakpoint
    is not among the arguments the handlers pass: it is read from the column
    configuration [colsConfig] of the host.  Without a layout for the
    previous breakpoint there is nothing to derive from, and without its
    column count no factor to scale by. *)
Definition findOrGenerateResponsiveLayout (colsConfig : Breakpoints)
  (layouts : ResponsiveLayouts) (breakpoints : Breakpoints)
  (breakpoint lastBreakpoint : string) (cols : Z) (c : Compactor) : Layout :=
  let source :=
    match layouts !! breakpoint with
    | Some stored => stored
    | None =>
        let previous := default [] (layouts !! lastBreakpoint) in
        match getColsFromBreakpoint lastBreakpoint colsConfig with
        | Some oldCols => scaleItem oldCols cols <$> previous
        | None => previous
        end
    end in
  compact c (correctBounds source cols) cols.

(** Modelled from the spec: [getIndentationValue] of core/responsive is not
    among the sources: a pair as it is, or the pair of the breakpoint. *)
Definition getIndentationValue (v : IndentationProp) (bp : string)
  : option Indentation :=
  match v with
  | indent_fixed p => Some p
  | indent_perBreakpoint m => m !! bp
  end.

(** ** The engine behind the interfaces *)

(** Modelled from the spec: the engine of this module as a [CoreLayout]. *)
Definition layoutCore : CoreLayout :=
  mkCoreLayout cloneLayoutItem cloneLayout getLayoutItem moveElement
    resizeElement correctBounds (λ t, getCompactor t false) verticalCompactor.

(** Modelled from the spec: the engine of this module as a
    [CoreResponsive], for a host with the column configuration
    [colsConfig].  On a configuration without breakpoints, or without an
    entry for a breakpoint in use, the engine has no result: that is "the
    only fatal condition", which "must be surfaced to the caller", and no
    handler runs on from there.  The functions of the interface return
    where the engine does; on the fatal configurations, which a handler
    never gets past, they stand at the empty name, no columns and no
    indentation. *)
Definition responsiveCore (colsConfig : Breakpoints) : CoreResponsive :=
  mkCoreResponsive
    (λ bps width, default ""%string (getBreakpointFromWidth bps width))
    (λ bp cols, default 0 (getColsFromBreakpoint bp cols))
    (findOrGenerateResponsiveLayout colsConfig)
    (λ v bp, default (0, 0) (getIndentationValue v bp)).

End Engine.

(* ------------------------------------------------------------------ *)
(** * composables/useGridLayout.ts *)
(* ------------------------------------------------------------------ *)

Module UseGridLayout.
Section handlers.
Context `{CoreLayout}.

Record DragState : Type := mkDragState {
  activeDrag : option LayoutItem;
  oldDragItem : option LayoutItem;
  oldLayout : option Layout
}.

Record ResizeState : Type := mkResizeState {
  resizing : bool;
  oldResizeItem : option LayoutItem;
  rs_oldLayout : option Layout
}.

(** [UseGridLayoutOptions], without the reactive plumbing. *)
Record Options : Type := mkOptions {
  opt_cols : Z;
  opt_preventCollision : option bool;
  opt_compactor : option Compactor
}.

(** The destructuring defaults of [useGridLayout]. *)
Definition cols (o : Options) : Z := opt_cols o.
Definition preventCollision_ (o : Options) : bool :=
  default false (opt_preventCollision o).
Definition compactor (o : Options) : Compactor :=
  default verticalCompactor (opt_compactor o).

(** The refs and closure variables of one [useGridLayout] call. *)
Record State : Type := mkState {
  layout : Layout;
  dragState : DragState;
  resizeState : ResizeState;
  isDragging : bool;
  prevLayout : Layout
}.

Variable o : Options.

Definition initializeLayout (inputLayout : Layout) : Layout :=
  let corrected := correctBounds (cloneLayout inputLayout) (cols o) in
  compact (compactor o) corrected (cols o).

Definition setLayout (st : State) (newLayout : Layout) : State :=
  let corrected := correctBounds (cloneLayout newLayout) (cols o) in
  let compacted := compact (compactor o) corrected (cols o) in
  mkState compacted (dragState st) (resizeState st) (isDragging st)
    (prevLayout st).

(** The watcher on the [layout] option: "sync layout from props when not
    dragging". *)
Definition propsWatcher (st : State) (newLayout : Layout) : State :=
  if isDragging st then st
  else if negb (deepEqual newLayout (prevLayout st)) then setLayout st newLayout
  else st.

(** The watcher on [layout]: calls [onLayoutChange] with the layout it
    finds; the result lists the layouts handed to the callback. *)
Definition layoutWatcher (st : State) : State * list Layout :=
  if negb (deepEqual (layout st) (prevLayout st)) then
    (mkState (layout st) (dragState st) (resizeState st) (isDragging st)
       (layout st),
     [layout st])
  else (st, []).

Definition onDragStart (st : State) (itemId : string) (x y : Z)
  : State * option LayoutItem :=
  match getLayoutItem (layout st) itemId with
  | None => (st, None)
  | Some it =>
      let placeholder :=
        with_moved (Some false)
          (with_static (Some false)
             (with_y y (with_x x (cloneLayoutItem it)))) in
      (mkState (layout st)
         (mkDragState (Some placeholder) (Some (cloneLayoutItem it))
            (Some (cloneLayout (layout st))))
         (resizeState st) true (prevLayout st),
       Some placeholder)
  end.

Definition onDrag (st : State) (itemId : string) (x y : Z) : State :=
  match getLayoutItem (layout st) itemId with
  | None => st
  | Some it =>
      let ds :=
        match activeDrag (dragState st) with
        | Some a =>
            mkDragState (Some (with_y y (with_x x a)))
              (oldDragItem (dragState st)) (oldLayout (dragState st))
        | None => dragState st
        end in
      let newLayout :=
        moveElement (layout st) it x y true (preventCollision_ o)
          (type (compactor o)) (cols o) (allowOverlap (compactor o)) in
      let compacted := compact (compactor o) newLayout (cols o) in
      mkState compacted ds (resizeState st) (isDragging st) (prevLayout st)
  end.

Definition onDragStop (st : State) (itemId : string) (x y : Z) : State :=
  match getLayoutItem (layout st) itemId with
  | None => st
  | Some it =>
      let newLayout :=
        moveElement (layout st) it x y true (preventCollision_ o)
          (type (compactor o)) (cols o) (allowOverlap (compactor o)) in
      let compacted := compact (compactor o) newLayout (cols o) in
      mkState compacted (mkDragState None None None) (resizeState st) false
        (prevLayout st)
  end.

Definition onResizeStart (st : State) (itemId : string)
  : State * option LayoutItem :=
  match getLayoutItem (layout st) itemId with
  | None => (st, None)
  | Some it =>
      (mkState (layout st) (dragState st)
         (mkResizeState true (Some (cloneLayoutItem it))
            (Some (cloneLayout (layout st))))
         (isDragging st) (prevLayout st),
       Some it)
  end.

(** The callback of [layout.value.map] in [onResize]. *)
Definition resized (itemId : string) (w h : Z) (x y : option Z)
  (it : LayoutItem) : LayoutItem :=
  if bool_decide (li_i it = itemId) then
    let updated := with_h h (with_w w it) in
    let updated := match x with Some x => with_x x updated | None => updated end in
    match y with Some y => with_y y updated | None => updated end
  else it.

Definition onResize (st : State) (itemId : string) (w h : Z) (x y : option Z)
  : State :=
  let newLayout := resized itemId w h x y <$> layout st in
  let corrected := correctBounds newLayout (cols o) in
  let compacted := compact (compactor o) corrected (cols o) in
  mkState compacted (dragState st) (resizeState st) (isDragging st)
    (prevLayout st).

Definition onResizeStop (st : State) (itemId : string) (w h : Z) : State :=
  let st' := onResize st itemId w h None None in
  mkState (layout st') (dragState st') (mkResizeState false None None)
    (isDragging st') (prevLayout st').

(** A drag gesture as the gesture layer drives it: one start, the moves,
    one stop. *)
Definition dragSequence (st : State) (itemId : string) (start : Z * Z)
  (moves : list (Z * Z)) (stop : Z * Z) : State :=
  let st1 := (onDragStart st itemId start.1 start.2).1 in
  let st2 := foldl (λ s p, onDrag s itemId p.1 p.2) st1 moves in
  onDragStop st2 itemId stop.1 stop.2.

(** What a drag update does to a layout, the placeholder left aside. *)
Definition movedAndCompacted (l : Layout) (itemId : string) (p : Z * Z)
  : Layout :=
  match getLayoutItem l itemId with
  | None => l
  | Some it =>
      compact (compactor o)
        (moveElement l it p.1 p.2 true (preventCollision_ o)
           (type (compactor o)) (cols o) (allowOverlap (compactor o)))
        (cols o)
  end.
End handlers.
End UseGridLayout.

(* ------------------------------------------------------------------ *)
(** * components/GridLayout.vue *)
(* ------------------------------------------------------------------ *)

Module GridLayout.
Section handlers.
Context `{CoreLayout}.

(** The drag placeholder [activeDrag]: [{ w, h, x, y, i }] at drag start,
    [{ ...activeDrag, x, y }] on a drag update (which has neither size nor
    id when there was no placeholder to spread). *)
Record Placeholder : Type := mkPlaceholder {
  ph_w : option Z;
  ph_h : option Z;
  ph_x : Z;
  ph_y : Z;
  ph_i : option string
}.

(** The resolved props the handlers read: [gridConfig.cols],
    [dragConfig.enabled], [resizeConfig.enabled], [props.compactor]. *)
Record Env : Type := mkEnv {
  gridConfig_cols : Z;
  dragConfig_enabled : bool;
  resizeConfig_enabled : bool;
  props_compactor : option Compactor
}.

Definition effectiveCompactor (env : Env) : Compactor :=
  default (getCompactor Vertical) (props_compactor env).

(** The refs and the closure variable [isDragging] of the component. *)
Record State : Type := mkState {
  internalLayout : Layout;
  activeDrag : option Placeholder;
  resizingItem : bool;
  oldDragItem : option LayoutItem;
  oldLayout : option Layout;
  isDragging : bool
}.

Inductive EventName : Type :=
| dragStart | drag | dragStop | resizeStart | resize | resizeStop.

(** What the component emits; the DOM event and node are left out.
    [emit_callback e layout oldItem newItem placeholder] is an
    [EventCallback] event. *)
Inductive Emit : Type :=
| emit_callback (e : EventName) (layout : Layout)
    (oldItem newItem : option LayoutItem) (placeholder : option Placeholder)
| emit_update_layout (layout : Layout)
| emit_layoutChange (layout : Layout).

Variable env : Env.

Definition synchronizeLayout (inputLayout : Layout) : Layout :=
  let corrected := correctBounds (cloneLayout inputLayout) (gridConfig_cols env) in
  compact (effectiveCompactor env) corrected (gridConfig_cols env).

Definition isItemDraggable (it : LayoutItem) : bool :=
  if truthy (li_static it) then false
  else match li_isDraggable it with
       | Some b => b
       | None => dragConfig_enabled env
       end.

Definition isItemResizable (it : LayoutItem) : bool :=
  if truthy (li_static it) then false
  else match li_isResizable it with
       | Some b => b
       | None => resizeConfig_enabled env
       end.

Definition westHandle (handle : ResizeHandleAxis) : bool :=
  match handle with
  | handle_w | handle_nw | handle_sw => true
  | _ => false
  end.

Definition northHandle (handle : ResizeHandleAxis) : bool :=
  match handle with
  | handle_n | handle_nw | handle_ne => true
  | _ => false
  end.

Definition calculateResizePosition (it : LayoutItem) (newW newH : Z)
  (handle : ResizeHandleAxis) : option Z * option Z :=
  let x :=
    if westHandle handle then
      let deltaW := newW - li_w it in Some (li_x it - deltaW)
    else None in
  let y :=
    if northHandle handle then
      let deltaH := newH - li_h it in Some (li_y it - deltaH)
    else None in
  (x, y).

(** The watcher on [props.layout]. *)
Definition propsWatcher (st : State) (newLayout : Layout) : State :=
  if isDragging st then st
  else if negb (deepEqual newLayout (internalLayout st)) then
    mkState (synchronizeLayout newLayout) (activeDrag st) (resizingItem st)
      (oldDragItem st) (oldLayout st) (isDragging st)
  else st.

Definition onDragStart (st : State) (i : string) (_x _y : Z)
  : State * list Emit :=
  match getLayoutItem (internalLayout st) i with
  | None => (st, [])
  | Some l =>
      (mkState (internalLayout st)
         (Some (mkPlaceholder (Some (li_w l)) (Some (li_h l)) (li_x l)
                  (li_y l) (Some i)))
         (resizingItem st)
         (Some (cloneLayoutItem l))
         (Some (cloneLayout (internalLayout st)))
         true,
       [emit_callback dragStart (internalLayout st) (Some l) (Some l) None])
  end.

(** The layout both [onDrag] and [onDragStop] compute. *)
Definition moved (layout : Layout) (l : LayoutItem) (x y : Z) : Layout :=
  moveElement layout l x y true
    (default false (preventCollision (effectiveCompactor env)))
    (type (effectiveCompactor env)) (gridConfig_cols env)
    (allowOverlap (effectiveCompactor env)).

Definition onDrag (st : State) (i : string) (x y : Z) : State * list Emit :=
  match getLayoutItem (internalLayout st) i with
  | None => (st, [])
  | Some l =>
      let placeholder :=
        match activeDrag st with
        | Some a => mkPlaceholder (ph_w a) (ph_h a) x y (ph_i a)
        | None => mkPlaceholder None None x y None
        end in
      let newLayout := moved (internalLayout st) l x y in
      let compacted :=
        compact (effectiveCompactor env) newLayout (gridConfig_cols env) in
      (mkState compacted (Some placeholder) (resizingItem st)
         (oldDragItem st) (oldLayout st) (isDragging st),
       [emit_callback drag compacted (oldDragItem st) (Some l)
          (Some placeholder)])
  end.

Definition onDragStop (st : State) (i : string) (x y : Z)
  : State * list Emit :=
  match activeDrag st with
  | None => (st, [])
  | Some _ =>
      match getLayoutItem (internalLayout st) i with
      | None => (st, [])
      | Some l =>
          let newLayout := moved (internalLayout st) l x y in
          let finalLayout :=
            compact (effectiveCompactor env) newLayout (gridConfig_cols env) in
          let changed :=
            match oldLayout st with
            | Some old => negb (deepEqual old finalLayout)
            | None => false
            end in
          (mkState finalLayout None (resizingItem st) None None false,
           emit_callback dragStop finalLayout (oldDragItem st) (Some l) None
           :: (if changed
               then [emit_update_layout finalLayout;
                     emit_layoutChange finalLayout]
               else []))
      end
  end.

Definition onResizeStart (st : State) (i : string) (_w _h : Z)
  : State * list Emit :=
  match getLayoutItem (internalLayout st) i with
  | None => (st, [])
  | Some l =>
      (mkState (internalLayout st) (activeDrag st) true
         (Some (cloneLayoutItem l))
         (Some (cloneLayout (internalLayout st)))
         (isDragging st),
       [emit_callback resizeStart (internalLayout st) (Some l) (Some l) None])
  end.

(** The layout both [onResize] and [onResizeStop] compute. *)
Definition resizedAndCompacted (layout : Layout) (l : LayoutItem) (w h : Z)
  (handle : ResizeHandleAxis) : Layout :=
  let '(x, y) := calculateResizePosition l w h handle in
  let newLayout :=
    resizeElement layout l w h x y true
      (default false (preventCollision (effectiveCompactor env)))
      (type (effectiveCompactor env)) (gridConfig_cols env)
      (allowOverlap (effectiveCompactor env)) in
  let corrected := correctBounds newLayout (gridConfig_cols env) in
  compact (effectiveCompactor env) corrected (gridConfig_cols env).

Definition onResize (st : State) (i : string) (w h : Z)
  (handle : ResizeHandleAxis) : State * list Emit :=
  match getLayoutItem (internalLayout st) i with
  | None => (st, [])
  | Some l =>
      let compacted := resizedAndCompacted (internalLayout st) l w h handle in
      let updatedItem := getLayoutItem compacted i in
      (mkState compacted (activeDrag st) (resizingItem st) (oldDragItem st)
         (oldLayout st) (isDragging st),
       [emit_callback resize compacted (oldDragItem st) updatedItem None])
  end.

Definition onResizeStop (st : State) (i : string) (w h : Z)
  (handle : ResizeHandleAxis) : State * list Emit :=
  match getLayoutItem (internalLayout st) i with
  | None => (st, [])
  | Some l =>
      let compacted := resizedAndCompacted (internalLayout st) l w h handle in
      let updatedItem := getLayoutItem compacted i in
      let changed :=
        match oldLayout st with
        | Some old => negb (deepEqual old compacted)
        | None => false
        end in
      (mkState compacted (activeDrag st) false None None (isDragging st),
       emit_callback resizeStop compacted (oldDragItem st) updatedItem None
       :: (if changed
           then [emit_update_layout compacted; emit_layoutChange compacted]
           else []))
  end.

(** The layouts an emitted event carries. *)
Definition emittedLayout (e : Emit) : Layout :=
  match e with
  | emit_callback _ layout _ _ _ => layout
  | emit_update_layout layout => layout
  | emit_layoutChange layout => layout
  end.

(** Running handlers one after the other, the emitted events in order. *)
Definition andThen (r : State * list Emit) (f : State → State * list Emit)
  : State * list Emit :=
  let r' := f r.1 in (r'.1, r.2 ++ r'.2).

(** A drag gesture as [GridItem] drives it: one [dragStart], the [drag]
    updates, one [dragStop]. *)
Definition dragSequence (st : State) (i : string) (start : Z * Z)
  (moves : list (Z * Z)) (stop : Z * Z) : State * list Emit :=
  let r1 := onDragStart st i start.1 start.2 in
  let r2 := foldl (λ r p, andThen r (λ s, onDrag s i p.1 p.2)) r1 moves in
  andThen r2 (λ s, onDragStop s i stop.1 stop.2).

(** What a drag update does to a layout, the placeholder left aside. *)
Definition movedAndCompacted (layout : Layout) (i : string) (p : Z * Z)
  : Layout :=
  match getLayoutItem layout i with
  | None => layout
  | Some l =>
      compact (effectiveCompactor env) (moved layout l p.1 p.2)
        (gridConfig_cols env)
  end.

(** While a gesture runs, there is a placeholder or the dragged id is
    unknown. *)
Definition gestureInv (i : string) (s : State) : Prop :=
  is_Some (activeDrag s) ∨ getLayoutItem (internalLayout s) i = None.

(** The events that report a changed layout to the parent. *)
Definition reportsLayout (l : Layout) (e : Emit) : Prop :=
  e = emit_update_layout l ∨ e = emit_layoutChange l.
End handlers.
End GridLayout.

(* ------------------------------------------------------------------ *)
(** * composables/useResponsiveLayout.ts *)
(* ------------------------------------------------------------------ *)

Module UseResponsiveLayout.

Definition DEFAULT_BREAKPOINTS : Breakpoints :=
  {[ "lg"%string := 1200; "md"%string := 996; "sm"%string := 768;
     "xs"%string := 480; "xxs"%string := 0 ]}.

Definition DEFAULT_COLS : Breakpoints :=
  {[ "lg"%string := 12; "md"%string := 10; "sm"%string := 6;
     "xs"%string := 4; "xxs"%string := 2 ]}.

Section handlers.
Context `{CoreLayout} `{CoreResponsive}.

(** [UseResponsiveLayoutOptions], without the reactive plumbing. *)
Record Options : Type := mkOptions {
  opt_breakpoints : option Breakpoints;
  opt_cols : option Breakpoints;
  opt_compactor : option Compactor
}.

(** The destructuring defaults of [useResponsiveLayout]. *)
Definition breakpoints (o : Options) : Breakpoints :=
  default DEFAULT_BREAKPOINTS (opt_breakpoints o).
Definition colsConfig (o : Options) : Breakpoints :=
  default DEFAULT_COLS (opt_cols o).
Definition compactor (o : Options) : Compactor :=
  default verticalCompactor (opt_compactor o).

(** The refs and closure variables of one [useResponsiveLayout] call. *)
Record State : Type := mkState {
  breakpoint : string;
  cols : Z;
  layouts : ResponsiveLayouts;
  prevWidth : Z;
  prevBreakpoint : string
}.

(** The option callbacks a watcher run invokes, in order. *)
Inductive Callback : Type :=
| onWidthChange (width : Z) (margin : Indentation) (cols : Z)
    (containerPadding : option Indentation)
| onBreakpointChange (newBreakpoint : string) (cols : Z).

Variable o : Options.

(** The computed [layout]. *)
Definition layout (st : State) : Layout :=
  findOrGenerateResponsiveLayout (layouts st) (breakpoints o) (breakpoint st)
    (prevBreakpoint st) (cols st) (compactor o).

Definition setLayoutForBreakpoint (st : State) (bp : string)
  (newLayout : Layout) : State :=
  mkState (breakpoint st) (cols st)
    (<[bp := cloneLayout newLayout]> (layouts st))
    (prevWidth st) (prevBreakpoint st).

Definition setLayouts (st : State) (newLayouts : ResponsiveLayouts) : State :=
  mkState (breakpoint st) (cols st) (cloneLayout <$> newLayouts)
    (prevWidth st) (prevBreakpoint st).

(** The watcher on the width ("handle width changes"). *)
Definition widthWatcher (st : State) (newWidth : Z) : State * list Callback :=
  if bool_decide (prevWidth st = newWidth) then (st, [])
  else
    let newBreakpoint := getBreakpointFromWidth (breakpoints o) newWidth in
    let newCols := getColsFromBreakpoint newBreakpoint (colsConfig o) in
    let widthChange := onWidthChange newWidth (10, 10) newCols None in
    if bool_decide (newBreakpoint ≠ breakpoint st) then
      let newLayout :=
        findOrGenerateResponsiveLayout (layouts st) (breakpoints o)
          newBreakpoint (breakpoint st) newCols (compactor o) in
      let updatedLayouts := <[newBreakpoint := newLayout]> (layouts st) in
      (mkState newBreakpoint newCols updatedLayouts newWidth newBreakpoint,
       [widthChange; onBreakpointChange newBreakpoint newCols])
    else
      (mkState (breakpoint st) (cols st) (layouts st) newWidth
         (prevBreakpoint st),
       [widthChange]).
End handlers.
End UseResponsiveLayout.

(* ------------------------------------------------------------------ *)
(** * components/ResponsiveGridLayout.vue *)
(* ------------------------------------------------------------------ *)

Module ResponsiveGridLayout.
Section handlers.
Context `{CoreLayout} `{CoreResponsive}.

(** The props the handlers read. *)
Record Props : Type := mkProps {
  width : Z;
  breakpoint : option string;
  breakpoints : Breakpoints;
  cols : Breakpoints;
  margin : IndentationProp;
  containerPadding : option IndentationProp;
  compactor : option Compactor
}.

Definition effectiveCompactor (props : Props) : Compactor :=
  default (getCompactor Vertical) (compactor props).

(** The refs and the change-detection variables of the component. *)
Record State : Type := mkState {
  currentBreakpoint : string;
  currentCols : Z;
  currentLayout : Layout;
  internalLayouts : ResponsiveLayouts;
  prevWidth : Z;
  prevBreakpointProp : option string;
  prevBreakpoints : Breakpoints;
  prevColsConfig : Breakpoints
}.

Inductive Emit : Type :=
| emit_breakpointChange (newBreakpoint : string) (cols : Z)
| emit_layoutChange (layout : Layout) (layouts : ResponsiveLayouts)
| emit_update_layouts (layouts : ResponsiveLayouts)
| emit_widthChange (width : Z) (margin : Indentation) (cols : Z)
    (padding : option Indentation).

(** The layout the watcher derives for the breakpoint it switches to:
    found or generated, then bounds-corrected, then compacted. *)
Definition derivedLayout (props : Props) (newLayouts : ResponsiveLayouts)
  (newBreakpoint lastBreakpoint : string) (newCols : Z) : Layout :=
  let newLayout :=
    findOrGenerateResponsiveLayout newLayouts (breakpoints props)
      newBreakpoint lastBreakpoint newCols (effectiveCompactor props) in
  let newLayout := correctBounds newLayout newCols in
  compact (effectiveCompactor props) newLayout newCols.

(** The layouts the watcher starts from: a copy of [internalLayouts], with
    the current layout kept under the last breakpoint when that has no
    stored layout. *)
Definition preserved (st : State) : ResponsiveLayouts :=
  match internalLayouts st !! currentBreakpoint st with
  | Some _ => internalLayouts st
  | None =>
      <[currentBreakpoint st := cloneLayout (currentLayout st)]>
        (internalLayouts st)
  end.

(** The watcher on [width], [breakpoint], [breakpoints] and [cols]; the
    props hold the new values. *)
Definition widthWatcher (st : State) (props : Props) : State * list Emit :=
  let newWidth := width props in
  let newBreakpointProp := breakpoint props in
  let newBreakpoints := breakpoints props in
  let newColsConfig := cols props in
  let widthChanged := bool_decide (newWidth ≠ prevWidth st) in
  let breakpointPropChanged :=
    bool_decide (newBreakpointProp ≠ prevBreakpointProp st) in
  let breakpointsChanged := negb (deepEqual newBreakpoints (prevBreakpoints st)) in
  let colsChanged := negb (deepEqual newColsConfig (prevColsConfig st)) in
  if widthChanged || breakpointPropChanged || breakpointsChanged || colsChanged
  then
    let newBreakpoint :=
      match newBreakpointProp with
      | Some b => b
      | None => getBreakpointFromWidth newBreakpoints newWidth
      end in
    let newCols := getColsFromBreakpoint newBreakpoint newColsConfig in
    let lastBreakpoint := currentBreakpoint st in
    let margin := getIndentationValue (margin props) newBreakpoint in
    let padding :=
      match containerPadding props with
      | Some p => Some (getIndentationValue p newBreakpoint)
      | None => None
      end in
    let widthChange := emit_widthChange newWidth margin newCols padding in
    if bool_decide (lastBreakpoint ≠ newBreakpoint)
       || breakpointsChanged || colsChanged
    then
      let newLayouts := preserved st in
      let newLayout :=
        derivedLayout props newLayouts newBreakpoint lastBreakpoint newCols in
      let newLayouts := <[newBreakpoint := newLayout]> newLayouts in
      (mkState newBreakpoint newCols newLayout newLayouts
         newWidth newBreakpointProp newBreakpoints newColsConfig,
       [emit_breakpointChange newBreakpoint newCols;
        emit_layoutChange newLayout newLayouts;
        emit_update_layouts newLayouts;
        widthChange])
    else
      (mkState (currentBreakpoint st) (currentCols st) (currentLayout st)
         (internalLayouts st)
         newWidth newBreakpointProp newBreakpoints newColsConfig,
       [widthChange])
  else (st, []).

Definition handleLayoutChange (st : State) (newLayout : Layout)
  : State * list Emit :=
  let newLayouts := <[currentBreakpoint st := newLayout]> (internalLayouts st) in
  (mkState (currentBreakpoint st) (currentCols st) newLayout newLayouts
     (prevWidth st) (prevBreakpointProp st) (prevBreakpoints st)
     (prevColsConfig st),
   [emit_layoutChange newLayout newLayouts; emit_update_layouts newLayouts]).
End handlers.
End ResponsiveGridLayout.

(* ------------------------------------------------------------------ *)
(** * Example inputs *)
(* ------------------------------------------------------------------ *)

Module Examples.

(** The first two items of the demo layout of examples/App.vue. *)
Definition itemA : LayoutItem :=
  mkLayoutItem "a" 0 0 2 2 (Some 1) (Some 1) (Some 4) (Some 4)
    None None None None None.

Definition itemB : LayoutItem :=
  mkLayoutItem "b" 2 0 2 3 (Some 2) (Some 2) None None
    None None None None None.

Definition demoLayout : Layout := [itemA; itemB].

(** [useGridLayout({ layout: demoLayout, cols: 12 })], at rest. *)
Definition composableOptions : UseGridLayout.Options :=
  UseGridLayout.mkOptions 12 None None.

Definition composableState : UseGridLayout.State :=
  UseGridLayout.mkState demoLayout
    (UseGridLayout.mkDragState None None None)
    (UseGridLayout.mkResizeState false None None) false demoLayout.

(** A [GridLayout] with twelve columns and the default compactor, at rest
    and in the middle of a drag of item "a". *)
Definition componentEnv : GridLayout.Env := GridLayout.mkEnv 12 true true None.

Definition componentState : GridLayout.State :=
  GridLayout.mkState demoLayout None false None None false.

Definition componentDragging : GridLayout.State :=
  GridLayout.mkState demoLayout
    (Some (GridLayout.mkPlaceholder (Some 2) (Some 2) 0 0 (Some "a"%string)))
    false (Some itemA) (Some demoLayout) true.

(** A [GridLayout] of four columns that holds one item with a minimal
    width of five columns. *)
Definition wideItem : LayoutItem :=
  mkLayoutItem "wide" 0 0 4 1 (Some 5) None None None None None None None None.

Definition narrowEnv : GridLayout.Env := GridLayout.mkEnv 4 true true None.

Definition narrowState : GridLayout.State :=
  GridLayout.mkState [wideItem] None false None None false.

(** [useResponsiveLayout] with the default breakpoints, 1250 pixels wide. *)
Definition responsiveOptions : UseResponsiveLayout.Options :=
  UseResponsiveLayout.mkOptions None None None.

Definition responsiveState : UseResponsiveLayout.State :=
  UseResponsiveLayout.mkState "lg" 12 {[ "lg"%string := demoLayout ]} 1250 "lg".

(** A [ResponsiveGridLayout] with the default breakpoints that was 1250
    pixels wide and is now 800 pixels wide. *)
Definition responsiveProps : ResponsiveGridLayout.Props :=
  ResponsiveGridLayout.mkProps 800 None
    UseResponsiveLayout.DEFAULT_BREAKPOINTS UseResponsiveLayout.DEFAULT_COLS
    (indent_fixed (10, 10)) None None.

Definition responsiveComponentState : ResponsiveGridLayout.State :=
  ResponsiveGridLayout.mkState "lg" 12 demoLayout
    {[ "lg"%string := demoLayout ]} 1250 None
    UseResponsiveLayout.DEFAULT_BREAKPOINTS UseResponsiveLayout.DEFAULT_COLS.

(** The responsive engine of a host with the default column configuration. *)
Definition responsiveEngine : CoreResponsive :=
  Engine.responsiveCore UseResponsiveLayout.DEFAULT_COLS.




(** A [GridLayout] whose compactor asks to prevent collisions, holding an
    item that is wider than its maximal width allows, and a neighbour. *)
Definition oversizedItem : LayoutItem :=
  mkLayoutItem "a" 0 0 6 1 None None (Some 4) None None None None None None.

Definition preventingEnv : GridLayout.Env :=
  GridLayout.mkEnv 12 true true
    (Some (Engine.preventing (Some true) Vertical false)).

Definition preventingState : GridLayout.State :=
  GridLayout.mkState [oversizedItem; item "b" 0 1 1 1] None false None None
    false.

End Examples.

(* ------------------------------------------------------------------ *)
(** * composables/useGridLayout.ts: the drop handlers *)
(* ------------------------------------------------------------------ *)

Module UseGridLayoutDrop.

(** The id of the placeholder of an external drag-in, the literal that
    [onDropDragLeave] and [onDrop] test for. *)
Definition droppingElem : string := "__dropping-elem__".

(** A state of [useGridLayout] with another layout: [layout.value = l]. *)
Definition withLayout (st : UseGridLayout.State) (l : Layout)
  : UseGridLayout.State :=
  UseGridLayout.mkState l (UseGridLayout.dragState st)
    (UseGridLayout.resizeState st) (UseGridLayout.isDragging st)
    (UseGridLayout.prevLayout st).

Section handlers.
Context `{CoreLayout}.

(** [DroppingPosition] of core/types: the handlers store it and test it
    against [null], nothing more. *)
Variable DroppingPosition : Type.

(** The refs of one [useGridLayout] call, [dropState] among them. *)
Record State : Type := mkState {
  refs : UseGridLayout.State;
  droppingPosition : option DroppingPosition
}.

Variable o : UseGridLayout.Options.

Definition onDropDragOver (st : State) (droppingItem : LayoutItem)
  (position : DroppingPosition) : State :=
  let existingItem :=
    getLayoutItem (UseGridLayout.layout (refs st)) (li_i droppingItem) in
  let refs' :=
    match existingItem with
    | Some _ => refs st
    | None =>
        let newLayout := UseGridLayout.layout (refs st) ++ [droppingItem] in
        let corrected := correctBounds newLayout (UseGridLayout.cols o) in
        let compacted :=
          compact (UseGridLayout.compactor o) corrected (UseGridLayout.cols o) in
        withLayout (refs st) compacted
    end in
  mkState refs' (Some position).

Definition onDropDragLeave (st : State) : State :=
  let newLayout :=
    filter (λ it, li_i it ≠ droppingElem) (UseGridLayout.layout (refs st)) in
  mkState (withLayout (refs st) newLayout) None.

(** The callback of [layout.value.map] in [onDrop]. *)
Definition dropped (droppingItem : LayoutItem) (it : LayoutItem) : LayoutItem :=
  if bool_decide (li_i it = droppingElem)
  then with_static (Some false) (with_i (li_i droppingItem) it)
  else it.

Definition onDrop (st : State) (droppingItem : LayoutItem) : State :=
  let newLayout := dropped droppingItem <$> UseGridLayout.layout (refs st) in
  let corrected := correctBounds newLayout (UseGridLayout.cols o) in
  let compacted :=
    compact (UseGridLayout.compactor o) corrected (UseGridLayout.cols o) in
  mkState (withLayout (refs st) compacted) None.

(** The computed [isInteracting]. *)
Definition isInteracting (st : State) : bool :=
  bool_decide
    (is_Some (UseGridLayout.activeDrag (UseGridLayout.dragState (refs st))))
  || UseGridLayout.resizing (UseGridLayout.resizeState (refs st))
  || bool_decide (is_Some (droppingPosition st)).

(** A drag or resize handler, which leaves [dropState] alone. *)
Definition onRefs (f : UseGridLayout.State → UseGridLayout.State) (st : State)
  : State :=
  mkState (f (refs st)) (droppingPosition st).
End handlers.

Arguments mkState {DroppingPosition} _ _.
Arguments refs {DroppingPosition} _.
Arguments droppingPosition {DroppingPosition} _.
Arguments onDropDragOver {_ DroppingPosition} _ _ _ _.
Arguments onDropDragLeave {DroppingPosition} _.
Arguments onDrop {_ DroppingPosition} _ _ _.
Arguments isInteracting {DroppingPosition} _.
Arguments onRefs {DroppingPosition} _ _.
End UseGridLayoutDrop.

(* ------------------------------------------------------------------ *)
(** * components/GridLayout.vue: the handlers of the container element *)
(* ------------------------------------------------------------------ *)

Module GridLayoutContainer.

(** A state of the component with another layout:
    [internalLayout.value = l]. *)
Definition withInternalLayout (g : GridLayout.State) (l : Layout)
  : GridLayout.State :=
  GridLayout.mkState l (GridLayout.activeDrag g) (GridLayout.resizingItem g)
    (GridLayout.oldDragItem g) (GridLayout.oldLayout g) (GridLayout.isDragging g).

(** The refs and closure variables of the component: those of the drag and
    resize handlers, [selectedItem] and [dragEnterCounter]. *)
Record State : Type := mkState {
  grid : GridLayout.State;
  selectedItem : option string;
  dragEnterCounter : Z
}.

(** What the component emits: the events of the drag and resize handlers,
    [itemSelected] and [itemRemove]. *)
Inductive Emit : Type :=
| emit_grid (e : GridLayout.Emit)
| emit_itemSelected (i : option string)
| emit_itemRemove (i : string) (it : LayoutItem).

(** The events of the container element that reach the drop handlers. *)
Inductive DragEvent : Type := dragenter | dragleave | dragover | drop.

Section handlers.
Context `{CoreLayout}.

Variable env : GridLayout.Env.

(** [dropConfig.enabled] *)
Variable dropConfig_enabled : bool.

Definition handleDragEnter (st : State) : State :=
  if negb dropConfig_enabled then st
  else mkState (grid st) (selectedItem st) (dragEnterCounter st + 1).

Definition handleDragLeave (st : State) : State :=
  if negb dropConfig_enabled then st
  else
    let counter := dragEnterCounter st - 1 in
    if bool_decide (counter = 0) then
      let newLayout :=
        filter (λ it, li_i it ≠ UseGridLayoutDrop.droppingElem)
          (GridLayout.internalLayout (grid st)) in
      mkState (withInternalLayout (grid st) newLayout) (selectedItem st) counter
    else mkState (grid st) (selectedItem st) counter.

(** [handleDragOver] calls [preventDefault], nothing more. *)
Definition handleDragOver (st : State) : State := st.

Definition handleDrop (st : State) : State :=
  if negb dropConfig_enabled then st
  else mkState (grid st) (selectedItem st) 0.

(** The drop handlers as the template binds them to the container. *)
Definition onDragEvent (st : State) (e : DragEvent) : State :=
  match e with
  | dragenter => handleDragEnter st
  | dragleave => handleDragLeave st
  | dragover => handleDragOver st
  | drop => handleDrop st
  end.

Definition onItemSelect (st : State) (i : string) : State * list Emit :=
  (mkState (grid st) (Some i) (dragEnterCounter st),
   [emit_itemSelected (Some i)]).

Definition clearSelection (st : State) : State * list Emit :=
  match selectedItem st with
  | Some _ =>
      (mkState (grid st) None (dragEnterCounter st), [emit_itemSelected None])
  | None => (st, [])
  end.

(** [handleKeydown], on the [key] of the keyboard event.  A selected id
    that is the empty string is falsy and counts as no selection. *)
Definition handleKeydown (st : State) (key : string) : State * list Emit :=
  match selectedItem st with
  | Some selected =>
      if bool_decide (key = "Escape"%string)
         && negb (bool_decide (selected = ""%string))
      then
        let removal :=
          match getLayoutItem (GridLayout.internalLayout (grid st)) selected with
          | Some it =>
              let newLayout :=
                filter (λ l, li_i l ≠ selected)
                  (GridLayout.internalLayout (grid st)) in
              let compacted :=
                compact (GridLayout.effectiveCompactor env) newLayout
                  (GridLayout.gridConfig_cols env) in
              (withInternalLayout (grid st) compacted,
               [emit_itemRemove selected it;
                emit_grid (GridLayout.emit_update_layout compacted);
                emit_grid (GridLayout.emit_layoutChange compacted)])
          | None => (grid st, [])
          end in
        (mkState removal.1 None (dragEnterCounter st),
         removal.2 ++ [emit_itemSelected None])
      else (st, [])
  | None => (st, [])
  end.

(** A drag or resize handler, which leaves the selection and the counter
    alone. *)
Definition onGrid (f : GridLayout.State → GridLayout.State * list GridLayout.Emit)
  (st : State) : State * list Emit :=
  let r := f (grid st) in
  (mkState r.1 (selectedItem st) (dragEnterCounter st), emit_grid <$> r.2).

End handlers.

(** The excess of [dragenter] over [dragleave] events in a run of events;
    a [drop] starts the count anew. *)
Definition depth (start : Z) (events : list DragEvent) : Z :=
  foldl (λ d e,
           match e with
           | dragenter => d + 1
           | dragleave => d - 1
           | dragover => d
           | drop => 0
           end) start events.
End GridLayoutContainer.

(* ------------------------------------------------------------------ *)
(** * What the properties of the handlers ask of an engine *)
(* ------------------------------------------------------------------ *)

(** The lookup finds an item exactly when the layout has one of that id. *)
Definition findsById `{CoreLayout} : Prop :=
  ∀ (l : Layout) (id : string), is_Some (getLayoutItem l id) ↔ id ∈ li_i <$> l.

(** A pass over a layout returns the items of the same ids, in the same
    order. *)
Definition keepsIds (f : Layout → Layout) : Prop :=
  ∀ l : Layout, li_i <$> f l = li_i <$> l.

(* ------------------------------------------------------------------ *)
(** * components/ResponsiveGridLayout.vue: the other watchers, the wiring *)
(* ------------------------------------------------------------------ *)

Module ResponsiveGridLayoutWatchers.

(** The refs and change-detection variables of the component,
    [prevCompactType] among them. *)
Record State : Type := mkState {
  responsive : ResponsiveGridLayout.State;
  prevCompactType : CompactType
}.

(** What the component emits: its own events, and the events of
    [GridLayout] that it forwards under their names. *)
Inductive Out : Type :=
| own (e : ResponsiveGridLayout.Emit)
| forwarded (e : GridLayout.Emit).

Section handlers.
Context `{CoreLayout} `{CoreResponsive}.

Definition getInitialBreakpoint (props : ResponsiveGridLayout.Props) : string :=
  default
    (getBreakpointFromWidth (ResponsiveGridLayout.breakpoints props)
       (ResponsiveGridLayout.width props))
    (ResponsiveGridLayout.breakpoint props).

Definition getInitialCols (props : ResponsiveGridLayout.Props) (bp : string)
  : Z :=
  getColsFromBreakpoint bp (ResponsiveGridLayout.cols props).

(** The state after the setup of the component, for the props
    [props] and [props.layouts = propsLayouts].  [getInitialLayout] hands the
    type of the compactor, not the compactor, to
    [findOrGenerateResponsiveLayout]; its result is taken as it comes
    ([initialLayout]). *)
Definition setup (props : ResponsiveGridLayout.Props)
  (propsLayouts : ResponsiveLayouts) (initialLayout : Layout) : State :=
  let initialBp := getInitialBreakpoint props in
  let initialCols := getInitialCols props initialBp in
  mkState
    (ResponsiveGridLayout.mkState initialBp initialCols initialLayout
       propsLayouts
       (ResponsiveGridLayout.width props)
       (ResponsiveGridLayout.breakpoint props)
       (ResponsiveGridLayout.breakpoints props)
       (ResponsiveGridLayout.cols props))
    (type (ResponsiveGridLayout.effectiveCompactor props)).

(** The watcher on [props.layouts]. *)
Definition layoutsWatcher (st : ResponsiveGridLayout.State)
  (props : ResponsiveGridLayout.Props) (newLayouts : ResponsiveLayouts)
  : ResponsiveGridLayout.State :=
  if negb (deepEqual newLayouts (ResponsiveGridLayout.internalLayouts st)) then
    let newLayout :=
      findOrGenerateResponsiveLayout newLayouts
        (ResponsiveGridLayout.breakpoints props)
        (ResponsiveGridLayout.currentBreakpoint st)
        (ResponsiveGridLayout.currentBreakpoint st)
        (ResponsiveGridLayout.currentCols st)
        (ResponsiveGridLayout.effectiveCompactor props) in
    ResponsiveGridLayout.mkState
      (ResponsiveGridLayout.currentBreakpoint st)
      (ResponsiveGridLayout.currentCols st) newLayout newLayouts
      (ResponsiveGridLayout.prevWidth st)
      (ResponsiveGridLayout.prevBreakpointProp st)
      (ResponsiveGridLayout.prevBreakpoints st)
      (ResponsiveGridLayout.prevColsConfig st)
  else st.

(** The watcher on the type of the compactor. *)
Definition compactTypeWatcher (st : State) (props : ResponsiveGridLayout.Props)
  : State * list ResponsiveGridLayout.Emit :=
  let s := responsive st in
  let newCompactType := type (ResponsiveGridLayout.effectiveCompactor props) in
  if bool_decide (newCompactType ≠ prevCompactType st) then
    let newLayout :=
      compact (ResponsiveGridLayout.effectiveCompactor props)
        (cloneLayout (ResponsiveGridLayout.currentLayout s))
        (ResponsiveGridLayout.currentCols s) in
    let newLayouts :=
      <[ResponsiveGridLayout.currentBreakpoint s := newLayout]>
        (ResponsiveGridLayout.internalLayouts s) in
    (mkState
       (ResponsiveGridLayout.mkState
          (ResponsiveGridLayout.currentBreakpoint s)
          (ResponsiveGridLayout.currentCols s) newLayout newLayouts
          (ResponsiveGridLayout.prevWidth s)
          (ResponsiveGridLayout.prevBreakpointProp s)
          (ResponsiveGridLayout.prevBreakpoints s)
          (ResponsiveGridLayout.prevColsConfig s))
       newCompactType,
     [ResponsiveGridLayout.emit_layoutChange newLayout newLayouts;
      ResponsiveGridLayout.emit_update_layouts newLayouts])
  else (st, []).

(** The listeners of the template on the [GridLayout] child:
    [update:layout] and [layoutChange] both call [handleLayoutChange], the
    gesture events are forwarded. *)
Definition onGridLayoutEmit (st : ResponsiveGridLayout.State)
  (e : GridLayout.Emit) : ResponsiveGridLayout.State * list Out :=
  match e with
  | GridLayout.emit_update_layout l | GridLayout.emit_layoutChange l =>
      let r := ResponsiveGridLayout.handleLayoutChange st l in
      (r.1, own <$> r.2)
  | GridLayout.emit_callback _ _ _ _ _ => (st, [forwarded e])
  end.

(** The listeners run on the events of one handler of the child, in the
    order of emission. *)
Definition onGridLayoutEmits (st : ResponsiveGridLayout.State)
  (es : list GridLayout.Emit) : ResponsiveGridLayout.State * list Out :=
  foldl (λ r e, let r' := onGridLayoutEmit r.1 e in (r'.1, r.2 ++ r'.2))
    (st, []) es.

(** What happens to the component after its setup: a run of one of its
    watchers on new props, or a layout reported by the child. *)
Inductive Event : Type :=
| PropsChanged (props : ResponsiveGridLayout.Props)
| LayoutsChanged (props : ResponsiveGridLayout.Props)
    (newLayouts : ResponsiveLayouts)
| CompactTypeChanged (props : ResponsiveGridLayout.Props)
| LayoutReported (newLayout : Layout).

Definition withResponsive (st : State) (s : ResponsiveGridLayout.State) : State :=
  mkState s (prevCompactType st).

Definition step (st : State) (e : Event)
  : State * list ResponsiveGridLayout.Emit :=
  match e with
  | PropsChanged props =>
      let r := ResponsiveGridLayout.widthWatcher (responsive st) props in
      (withResponsive st r.1, r.2)
  | LayoutsChanged props newLayouts =>
      (withResponsive st (layoutsWatcher (responsive st) props newLayouts), [])
  | CompactTypeChanged props => compactTypeWatcher st props
  | LayoutReported newLayout =>
      let r := ResponsiveGridLayout.handleLayoutChange (responsive st) newLayout in
      (withResponsive st r.1, r.2)
  end.

Definition run (st : State) (events : list Event) : State :=
  foldl (λ s e, (step s e).1) st events.

(** The current breakpoint and column count are those of the props the
    width watcher saw last. *)
Definition inSync (s : ResponsiveGridLayout.State) : Prop :=
  ResponsiveGridLayout.currentBreakpoint s
  = default
      (getBreakpointFromWidth (ResponsiveGridLayout.prevBreakpoints s)
         (ResponsiveGridLayout.prevWidth s))
      (ResponsiveGridLayout.prevBreakpointProp s)
  ∧ ResponsiveGridLayout.currentCols s
    = getColsFromBreakpoint (ResponsiveGridLayout.currentBreakpoint s)
        (ResponsiveGridLayout.prevColsConfig s).

(** The current layout is the one stored under the current breakpoint. *)
Definition stored (s : ResponsiveGridLayout.State) : Prop :=
  ResponsiveGridLayout.internalLayouts s
    !! ResponsiveGridLayout.currentBreakpoint s
  = Some (ResponsiveGridLayout.currentLayout s).

Definition isLayoutsChanged (e : Event) : bool :=
  match e with LayoutsChanged _ _ => true | _ => false end.
End handlers.
End ResponsiveGridLayoutWatchers.

(* ------------------------------------------------------------------ *)
(** * composables/useResponsiveLayout.ts: setup and events *)
(* ------------------------------------------------------------------ *)

Module UseResponsiveLayoutSetup.
Section handlers.
Context `{CoreLayout} `{CoreResponsive}.

Variable o : UseResponsiveLayout.Options.

(** [sortedBreakpointsComputed.value]: the result of [sortBreakpoints] of
    core/responsive on the breakpoints. *)
Variable sortedBreakpoints : list string.

(** [initializeLayouts], for [propsLayouts], the [layouts] option. *)
Definition initializeLayouts (propsLayouts : ResponsiveLayouts)
  : ResponsiveLayouts :=
  foldl (λ cloned bp,
           match propsLayouts !! bp with
           | Some layout => <[bp := cloneLayout layout]> cloned
           | None => cloned
           end) ∅ sortedBreakpoints.

(** The state after the setup of [useResponsiveLayout] at a width. *)
Definition setup (width : Z) (propsLayouts : ResponsiveLayouts)
  : UseResponsiveLayout.State :=
  let initialBreakpoint :=
    getBreakpointFromWidth (UseResponsiveLayout.breakpoints o) width in
  let initialCols :=
    getColsFromBreakpoint initialBreakpoint (UseResponsiveLayout.colsConfig o) in
  UseResponsiveLayout.mkState initialBreakpoint initialCols
    (initializeLayouts propsLayouts) width initialBreakpoint.

(** What happens to the composable after its setup: a run of the width
    watcher, or a call of one of the two setters. *)
Inductive Event : Type :=
| WidthChanged (newWidth : Z)
| SetLayoutForBreakpoint (bp : string) (newLayout : Layout)
| SetLayouts (newLayouts : ResponsiveLayouts).

Definition step (st : UseResponsiveLayout.State) (e : Event)
  : UseResponsiveLayout.State :=
  match e with
  | WidthChanged newWidth => (UseResponsiveLayout.widthWatcher o st newWidth).1
  | SetLayoutForBreakpoint bp newLayout =>
      UseResponsiveLayout.setLayoutForBreakpoint st bp newLayout
  | SetLayouts newLayouts => UseResponsiveLayout.setLayouts st newLayouts
  end.

Definition run (st : UseResponsiveLayout.State) (events : list Event)
  : UseResponsiveLayout.State :=
  foldl step st events.
End handlers.
End UseResponsiveLayoutSetup.

(* ------------------------------------------------------------------ *)
(** * composables/useContainerWidth.ts *)
(* ------------------------------------------------------------------ *)

Module UseContainerWidth.

(** [UseContainerWidthOptions]. *)
Record Options : Type := mkOptions {
  measureBeforeMount : option bool;
  initialWidth : option Z
}.

(** The refs and closure variables of one [useContainerWidth] call
    ([observer] is whether the variable holds an observer), and the part of
    the browser they talk to: the animation-frame callbacks that were
    requested and have neither run nor been cancelled, each with its id and
    the width its closure holds, in the order of the requests, and the id
    the next request gets. *)
Record State : Type := mkState {
  width : Z;
  mounted : bool;
  observer : bool;
  rafId : option nat;
  frames : list (nat * Z);
  nextFrameId : nat
}.

Definition setup (o : Options) : State :=
  mkState (default 1280 (initialWidth o))
    (negb (default false (measureBeforeMount o))) false None [] 1%nat.

(** [measureWidth]; [node] is [containerRef.value]: [None] for [null],
    else the [offsetWidth] of the element. *)
Definition measureWidth (st : State) (node : option Z) : State :=
  match node with
  | Some newWidth =>
      mkState newWidth (if negb (mounted st) then true else mounted st)
        (observer st) (rafId st) (frames st) (nextFrameId st)
  | None => st
  end.

(** [requestAnimationFrame] of a callback that holds [newWidth], and
    [cancelAnimationFrame]. *)
Definition requestAnimationFrame (st : State) (newWidth : Z) : State * nat :=
  (mkState (width st) (mounted st) (observer st) (rafId st)
     (frames st ++ [(nextFrameId st, newWidth)]) (S (nextFrameId st)),
   nextFrameId st).

Definition cancelAnimationFrame (st : State) (id : nat) : State :=
  mkState (width st) (mounted st) (observer st) (rafId st)
    (filter (λ f, f.1 ≠ id) (frames st)) (nextFrameId st).

Definition withRafId (st : State) (id : option nat) : State :=
  mkState (width st) (mounted st) (observer st) id (frames st) (nextFrameId st).

(** The callback of the [ResizeObserver], on the [contentRect.width] of
    its entries. *)
Definition observerCallback (st : State) (entries : list Z) : State :=
  match entries with
  | newWidth :: _ =>
      let st1 :=
        match rafId st with
        | Some id => cancelAnimationFrame st id
        | None => st
        end in
      let r := requestAnimationFrame st1 newWidth in
      withRafId r.1 (Some r.2)
  | [] => st
  end.

(** The callback handed to [requestAnimationFrame]. *)
Definition frameCallback (st : State) (newWidth : Z) : State :=
  mkState newWidth (mounted st) (observer st) None (frames st) (nextFrameId st).

Definition onMounted (st : State) (node : option Z) (hasResizeObserver : bool)
  : State :=
  match node with
  | None => st
  | Some _ =>
      let st1 := measureWidth st node in
      if hasResizeObserver then
        mkState (width st1) (mounted st1) true (rafId st1) (frames st1)
          (nextFrameId st1)
      else st1
  end.

Definition onUnmounted (st : State) : State :=
  let st1 :=
    match rafId st with
    | Some id => withRafId (cancelAnimationFrame st id) None
    | None => st
    end in
  if observer st1 then
    mkState (width st1) (mounted st1) false (rafId st1) (frames st1)
      (nextFrameId st1)
  else st1.

(** The browser delivers a resize notification: to the callback of an
    observer that observes, to nobody after [disconnect]. *)
Definition notify (st : State) (entries : list Z) : State :=
  if observer st then observerCallback st entries else st.

(** The browser runs an animation frame: the requested callbacks, in the
    order of the requests. *)
Definition animationFrame (st : State) : State :=
  foldl (λ s f, frameCallback s f.2)
    (mkState (width st) (mounted st) (observer st) (rafId st) []
       (nextFrameId st))
    (frames st).

(** What happens between [onMounted] and [onUnmounted], and after: a call
    of [measureWidth], a resize notification, an animation frame. *)
Inductive Event : Type :=
| Measure (node : option Z)
| Resized (entries : list Z)
| Frame.

Definition step (st : State) (e : Event) : State :=
  match e with
  | Measure node => measureWidth st node
  | Resized entries => notify st entries
  | Frame => animationFrame st
  end.

Definition run (st : State) (events : list Event) : State := foldl step st events.

(** A call of [measureWidth] that finds the element. *)
Definition measures (e : Event) : bool :=
  match e with Measure (Some _) => true | _ => false end.

(** The requested callbacks are the one that [rafId] names, if any. *)
Definition onePending (st : State) : Prop :=
  match rafId st with
  | Some id => ∃ w, frames st = [(id, w)]
  | None => frames st = []
  end.
End UseContainerWidth.

(* ------------------------------------------------------------------ *)
(** * components/ComponentSelector.vue *)
(* ------------------------------------------------------------------ *)

Module ComponentSelector.

(** A row coordinate: a number of rows, or [Infinity] ("place at
    bottom"). *)
Inductive Row : Type := row (y : Z) | Infinity.

(** [ComponentOption]; the free-form [data] is left out. *)
Record ComponentOption : Type := mkComponentOption {
  co_id : string;
  co_label : string;
  co_defaultW : option Z;
  co_defaultH : option Z;
  co_minW : option Z;
  co_minH : option Z;
  co_maxW : option Z;
  co_maxH : option Z;
  co_isResizable : option bool;
  co_isDraggable : option bool
}.

(** [NewItemPayload]; the free-form [data] is left out. *)
Record NewItemPayload : Type := mkNewItemPayload {
  np_i : string;
  np_componentId : string;
  np_x : Z;
  np_y : Row;
  np_w : Z;
  np_h : Z;
  np_minW : option Z;
  np_minH : option Z;
  np_maxW : option Z;
  np_maxH : option Z;
  np_isResizable : option bool;
  np_isDraggable : option bool
}.

Inductive Emit : Type :=
| emit_add (payload : NewItemPayload)
| emit_change (option : option ComponentOption).

(** The closure variable [itemCounter] and the ref [selectedValue]. *)
Record State : Type := mkState {
  itemCounter : N;
  selectedValue : string
}.

Section handlers.

(** The props [options] and [idPrefix]. *)
Variable options : list ComponentOption.
Variable idPrefix : string.

(** [generateId]; [now] is the value of [Date.now()].  The template literal
    prints the time and the counter in decimal digits, as JavaScript does
    for the whole numbers below 10^21. *)
Definition generateId (st : State) (now : N) : State * string :=
  let counter := (itemCounter st + 1)%N in
  (mkState counter (selectedValue st),
   idPrefix +:+ "-" +:+ pretty now +:+ "-" +:+ pretty counter).

(** [handleChange], on the value of the select element; [now] is the value
    of [Date.now()], should the handler ask for it. *)
Definition handleChange (st : State) (value : string) (now : N)
  : State * list Emit :=
  if bool_decide (value = ""%string) then (st, [emit_change None])
  else
    match List.find (λ opt, bool_decide (co_id opt = value)) options with
    | None => (st, [])
    | Some option =>
        let g := generateId st now in
        let payload :=
          mkNewItemPayload g.2 (co_id option) 0 Infinity
            (default 2 (co_defaultW option)) (default 2 (co_defaultH option))
            (co_minW option) (co_minH option) (co_maxW option) (co_maxH option)
            (co_isResizable option) (co_isDraggable option) in
        (mkState (itemCounter g.1) ""%string,
         [emit_change (Some option); emit_add payload])
    end.

(** The handler on a run of change events, each with its value and its
    time; the events emitted, in order. *)
Definition changes (st : State) (events : list (string * N))
  : State * list Emit :=
  foldl (λ r e, let r' := handleChange r.1 e.1 e.2 in (r'.1, r.2 ++ r'.2))
    (st, []) events.
End handlers.

(** The ids of the items a run of events asks to add. *)
Definition addedIds (es : list Emit) : list string :=
  omap (λ e, match e with emit_add p => Some (np_i p) | _ => None end) es.

(** A string holds the character "-". *)
Fixpoint hasDash (s : string) : bool :=
  match s with
  | EmptyString => false
  | String c s' => bool_decide (c = "-"%char) || hasDash s'
  end.
End ComponentSelector.

(* ------------------------------------------------------------------ *)
(** * examples/App.vue and examples/components/index.ts *)
(* ------------------------------------------------------------------ *)

Module App.

(** [GridItemWithComponent]; [y] may be [Infinity]. *)
Record GridItemWithComponent : Type := mkGridItemWithComponent {
  gi_i : string;
  gi_x : Z;
  gi_y : ComponentSelector.Row;
  gi_w : Z;
  gi_h : Z;
  gi_minW : option Z;
  gi_minH : option Z;
  gi_maxW : option Z;
  gi_maxH : option Z;
  gi_isResizable : option bool;
  gi_isDraggable : option bool
}.

(** The refs [layout], [componentMap] and [maximizedItemId]. *)
Record State : Type := mkState {
  layout : list GridItemWithComponent;
  componentMap : gmap string string;
  maximizedItemId : option string
}.

(** The widget components of examples/components. *)
Inductive Widget : Type :=
| ChartWidget | DataTable | TextBlock | ImageWidget | DefaultWidget.

Definition componentRegistry : gmap string Widget :=
  {[ "chart"%string := ChartWidget; "table"%string := DataTable;
     "text"%string := TextBlock; "image"%string := ImageWidget ]}.

(** [getWidgetComponent]; an empty id is falsy.  The registry is looked up
    as a map, which is what the object lookup does for every id that is not
    a property name of [Object.prototype]. *)
Definition getWidgetComponent (componentId : option string) : Widget :=
  match componentId with
  | None => DefaultWidget
  | Some id =>
      if bool_decide (id = ""%string) then DefaultWidget
      else default DefaultWidget (componentRegistry !! id)
  end.

Definition componentOptions : list ComponentSelector.ComponentOption :=
  [ComponentSelector.mkComponentOption "chart" "Chart Widget"
     (Some 3) (Some 2) (Some 2) (Some 2) None None None None;
   ComponentSelector.mkComponentOption "table" "Data Table"
     (Some 4) (Some 3) (Some 2) (Some 2) None None None None;
   ComponentSelector.mkComponentOption "text" "Text Block"
     (Some 2) (Some 1) (Some 1) (Some 1) None None None None;
   ComponentSelector.mkComponentOption "image" "Image"
     (Some 2) (Some 2) (Some 1) (Some 1) (Some 4) (Some 4) None None].

Definition onAddComponent (st : State)
  (payload : ComponentSelector.NewItemPayload) : State :=
  let newItem :=
    mkGridItemWithComponent
      (ComponentSelector.np_i payload) (ComponentSelector.np_x payload)
      (ComponentSelector.np_y payload) (ComponentSelector.np_w payload)
      (ComponentSelector.np_h payload) (ComponentSelector.np_minW payload)
      (ComponentSelector.np_minH payload) (ComponentSelector.np_maxW payload)
      (ComponentSelector.np_maxH payload)
      (ComponentSelector.np_isResizable payload)
      (ComponentSelector.np_isDraggable payload) in
  let componentMap' :=
    if bool_decide (ComponentSelector.np_componentId payload ≠ ""%string)
    then <[ComponentSelector.np_i payload
           := ComponentSelector.np_componentId payload]> (componentMap st)
    else componentMap st in
  mkState (layout st ++ [newItem]) componentMap' (maximizedItemId st).

Definition removeItem (st : State) : State :=
  if bool_decide (1 < length (layout st))%nat then
    let componentMap' :=
      match last (layout st) with
      | Some removedItem => delete (gi_i removedItem) (componentMap st)
      | None => componentMap st
      end in
    mkState (take (length (layout st) - 1) (layout st)) componentMap'
      (maximizedItemId st)
  else st.

Definition getComponentId (st : State) (itemId : string) : option string :=
  componentMap st !! itemId.

Definition onMaximize (st : State) (itemId : string) : State :=
  mkState (layout st) (componentMap st) (Some itemId).

Definition onMinimize (st : State) : State :=
  mkState (layout st) (componentMap st) None.

(** The listener of the template on the [add] event of the selector; the
    [change] event has no listener. *)
Definition onSelectorEmit (st : State) (e : ComponentSelector.Emit) : State :=
  match e with
  | ComponentSelector.emit_add payload => onAddComponent st payload
  | ComponentSelector.emit_change _ => st
  end.

(** An item that the grid writes back, as an item of the page: the fields
    of a layout item that [GridItemWithComponent] lists and the page reads;
    its row is a number. *)
Definition fromGrid (it : LayoutItem) : GridItemWithComponent :=
  mkGridItemWithComponent (li_i it) (li_x it) (ComponentSelector.row (li_y it))
    (li_w it) (li_h it) (li_minW it) (li_minH it) (li_maxW it) (li_maxH it)
    (li_isResizable it) (li_isDraggable it).

(** The listener that [v-model:layout] puts on the [update:layout] event of
    the grid: [layout = $event]. *)
Definition onUpdateLayout (st : State) (newLayout : Layout) : State :=
  mkState (fromGrid <$> newLayout) (componentMap st) (maximizedItemId st).

(** What the buttons and events of the page do to the state: the [add]
    event of the selector, the "Remove Last" button, the [maximize] event of
    a widget, the [minimize] event of the overlay and the [update:layout]
    event of the grid. *)
Inductive Event : Type :=
| AddComponent (payload : ComponentSelector.NewItemPayload)
| RemoveLast
| Maximize (itemId : string)
| Minimize
| UpdateLayout (newLayout : Layout).

Definition step (st : State) (e : Event) : State :=
  match e with
  | AddComponent payload => onAddComponent st payload
  | RemoveLast => removeItem st
  | Maximize itemId => onMaximize st itemId
  | Minimize => onMinimize st
  | UpdateLayout newLayout => onUpdateLayout st newLayout
  end.

Definition run (st : State) (events : list Event) : State := foldl step st events.

(** An event by which the grid writes back a layout without items. *)
Definition emptiesLayout (e : Event) : Prop := e = UpdateLayout [].
End App.

(* ------------------------------------------------------------------ *)
(** * components/GridItem.vue: selection and the drag gesture *)
(* ------------------------------------------------------------------ *)

(** JavaScript numbers that hold pixels: the arithmetic the drag handlers
    use of them. *)
Class Pixels (Px : Type) : Type := mkPixels {
  px_zero : Px;
  px_add : Px → Px → Px;
  px_sub : Px → Px → Px;
  px_div : Px → Px → Px;
  (** [a < b] *)
  px_lt : Px → Px → bool;
  (** [Math.hypot(a, b)] *)
  px_hypot : Px → Px → Px
}.

Module GridItem.
Section handlers.
Context {Px : Type} `{Pixels Px}.

(** [PositionParams] of core/calculate. *)
Record PositionParams : Type := mkPositionParams {
  pp_cols : Z;
  pp_containerPadding : Px * Px;
  pp_containerWidth : Px;
  pp_margin : Px * Px;
  pp_maxRows : Px;
  pp_rowHeight : Px
}.

(** What [getConstraintContext] returns; its [layout] is the empty array. *)
Record ConstraintContext : Type := mkConstraintContext {
  cc_cols : Z;
  cc_maxRows : Px;
  cc_containerWidth : Px;
  cc_containerHeight : Px;
  cc_rowHeight : Px;
  cc_margin : Px * Px;
  cc_layout : Layout
}.

(** The functions the drag handlers import from core/calculate and
    core/constraints, over constraints of a type [Constraints]. *)
Class CoreCalculate (Constraints : Type) : Type := mkCoreCalculate {
  (** [calcXYRaw(positionParams, top, left)] *)
  calcXYRaw : PositionParams → Px → Px → Z * Z;
  calcGridColWidth : PositionParams → Px;
  (** [calcGridItemWHPx(gridUnits, colOrRowSize, marginPx)] *)
  calcGridItemWHPx : Z → Px → Px → Px;
  (** [clamp(num, lowerBound, upperBound)] *)
  clamp : Px → Px → Px → Px;
  (** [applyPositionConstraints(constraints, item, x, y, context)] *)
  applyPositionConstraints :
    Constraints → LayoutItem → Z → Z → ConstraintContext → Z * Z
}.

Context {Constraints : Type} `{CoreCalculate Constraints}.

(** The props the handlers read; [scale] is [positionStrategy.scale]. *)
Record Props : Type := mkProps {
  layoutItem : LayoutItem;
  cols : Z;
  containerWidth : Px;
  rowHeight : Px;
  margin : Px * Px;
  containerPadding : Px * Px;
  maxRows : Px;
  isDraggable : bool;
  isBounded : bool;
  scale : Px;
  dragThreshold : Px;
  constraints : Constraints;
  handle : option string;
  cancel : option string
}.

Record Position : Type := mkPosition { left : Px; top : Px }.

(** The [clientX] and [clientY] of a mouse event or a touch. *)
Record Client : Type := mkClient { clientX : Px; clientY : Px }.

(** A [mousedown] or [touchstart] event: the button (0 for a touch), the
    pointer, and whether [target.closest(selector)] finds an element. *)
Record Press : Type := mkPress {
  button : Z;
  pointer : Client;
  closest : string → bool
}.

(** What [startDrag] reads of the element and its [offsetParent]. *)
Record Rects : Type := mkRects {
  clientRect_left : Px;
  clientRect_top : Px;
  parentRect_left : Px;
  parentRect_top : Px;
  scrollLeft : Px;
  scrollTop : Px
}.

(** The refs and closure variables of the drag handlers; of the resize
    handlers, the ref [resizing] that [handleClick] reads. *)
Record State : Type := mkState {
  dragging : bool;
  dragPosition : Position;
  resizing : bool;
  dragPending : bool;
  initialDragClient : Client;
  thresholdExceeded : bool
}.

(** The drag events and [select]; the DOM event and node of the event data
    are left out, [newPosition] is kept. *)
Inductive Emit : Type :=
| emit_dragStart (i : string) (x y : Z) (newPosition : Position)
| emit_drag (i : string) (x y : Z) (newPosition : Position)
| emit_dragStop (i : string) (x y : Z) (newPosition : Position)
| emit_select (i : string).

Variable props : Props.

(** The computed [positionParams]. *)
Definition positionParams : PositionParams :=
  mkPositionParams (cols props) (containerPadding props) (containerWidth props)
    (margin props) (maxRows props) (rowHeight props).

Definition getConstraintContext : ConstraintContext :=
  mkConstraintContext (cols props) (maxRows props) (containerWidth props)
    px_zero (rowHeight props) (margin props) [].

Definition handleClick (st : State) : list Emit :=
  if dragging st || resizing st then []
  else [emit_select (li_i (layoutItem props))].

Definition emitDragStart (startPosition : Position) : Emit :=
  let rawPos :=
    calcXYRaw positionParams (top startPosition) (left startPosition) in
  emit_dragStart (li_i (layoutItem props)) rawPos.1 rawPos.2 startPosition.

(** [startDrag]; [rects] is [None] when the element or its [offsetParent]
    is missing. *)
Definition startDrag (st : State) (e : Client) (rects : option Rects)
  : State * list Emit :=
  match rects with
  | None => (st, [])
  | Some r =>
      let newPosition :=
        mkPosition
          (px_add
             (px_div (px_sub (clientRect_left r) (parentRect_left r))
                (scale props))
             (scrollLeft r))
          (px_add
             (px_div (px_sub (clientRect_top r) (parentRect_top r))
                (scale props))
             (scrollTop r)) in
      if px_lt px_zero (dragThreshold props) then
        (mkState true newPosition (resizing st) true e false, [])
      else
        (mkState true newPosition (resizing st) (dragPending st)
           (initialDragClient st) (thresholdExceeded st),
         [emitDragStart newPosition])
  end.

(** The guards of [handleMouseDown] and [handleTouchStart] on the handle
    and cancel selectors; an empty selector is falsy. *)
Definition selectorsAllow (e : Press) : bool :=
  match handle props with
  | Some h => bool_decide (h = ""%string) || closest e h
  | None => true
  end
  && match cancel props with
     | Some c => bool_decide (c = ""%string) || negb (closest e c)
     | None => true
     end.

Definition handleMouseDown (st : State) (e : Press) (rects : option Rects)
  : State * list Emit :=
  if negb (isDraggable props) then (st, [])
  else if negb (bool_decide (button e = 0)) then (st, [])
  else if negb (selectorsAllow e) then (st, [])
  else startDrag st (pointer e) rects.

Definition handleTouchStart (st : State) (e : Press) (rects : option Rects)
  : State * list Emit :=
  if negb (isDraggable props) then (st, [])
  else if negb (selectorsAllow e) then (st, [])
  else startDrag st (pointer e) rects.

(** [handleDrag]; [touch] is [None] for a touch event without touches,
    [parentClientHeight] is the [clientHeight] of the [offsetParent], [None]
    when the element or its [offsetParent] is missing. *)
Definition handleDrag (st : State) (touch : option Client)
  (parentClientHeight : option Px) : State * list Emit :=
  if negb (dragging st) then (st, [])
  else
    match touch with
    | None => (st, [])
    | Some touch =>
        let check := dragPending st && negb (thresholdExceeded st) in
        let distance :=
          px_hypot (px_sub (clientX touch) (clientX (initialDragClient st)))
            (px_sub (clientY touch) (clientY (initialDragClient st))) in
        if check && px_lt distance (dragThreshold props) then (st, [])
        else
          let started := if check then [emitDragStart (dragPosition st)] else [] in
          let dx :=
            px_div (px_sub (clientX touch) (clientX (initialDragClient st)))
              (scale props) in
          let dy :=
            px_div (px_sub (clientY touch) (clientY (initialDragClient st)))
              (scale props) in
          let top0 := px_add (top (dragPosition st)) dy in
          let left0 := px_add (left (dragPosition st)) dx in
          let bounded :=
            if isBounded props then
              match parentClientHeight with
              | Some clientHeight =>
                  let colWidth := calcGridColWidth positionParams in
                  let bottomBoundary :=
                    px_sub clientHeight
                      (calcGridItemWHPx (li_h (layoutItem props))
                         (rowHeight props) (margin props).2) in
                  let rightBoundary :=
                    px_sub (containerWidth props)
                      (calcGridItemWHPx (li_w (layoutItem props)) colWidth
                         (margin props).1) in
                  (clamp top0 px_zero bottomBoundary,
                   clamp left0 px_zero rightBoundary)
              | None => (top0, left0)
              end
            else (top0, left0) in
          let newPosition := mkPosition bounded.2 bounded.1 in
          let rawPos := calcXYRaw positionParams bounded.1 bounded.2 in
          let constrained :=
            applyPositionConstraints (constraints props) (layoutItem props)
              rawPos.1 rawPos.2 getConstraintContext in
          (mkState (dragging st) newPosition (resizing st)
             (if check then false else dragPending st) touch
             (if check then true else thresholdExceeded st),
           started
           ++ [emit_drag (li_i (layoutItem props)) constrained.1 constrained.2
                 newPosition])
    end.

Definition handleDragStop (st : State) : State * list Emit :=
  if negb (dragging st) then (st, [])
  else if dragPending st then
    (mkState false (mkPosition px_zero px_zero) (resizing st) false
       (initialDragClient st) false,
     [])
  else
    let rawPos :=
      calcXYRaw positionParams (top (dragPosition st))
        (left (dragPosition st)) in
    let constrained :=
      applyPositionConstraints (constraints props) (layoutItem props)
        rawPos.1 rawPos.2 getConstraintContext in
    (mkState false (mkPosition px_zero px_zero) (resizing st) (dragPending st)
       (initialDragClient st) (thresholdExceeded st),
     [emit_dragStop (li_i (layoutItem props)) constrained.1 constrained.2
        (dragPosition st)]).

(** Running handlers one after the other, the emitted events in order. *)
Definition andThen (r : State * list Emit) (f : State → State * list Emit)
  : State * list Emit :=
  let r' := f r.1 in (r'.1, r.2 ++ r'.2).

(** The press handlers as the template binds them: [touchstart] or
    [mousedown]. *)
Definition onPress (byTouch : bool) (st : State) (e : Press)
  (rects : option Rects) : State * list Emit :=
  if byTouch then handleTouchStart st e rects else handleMouseDown st e rects.

(** A drag gesture on the element: the press, the moves, the release. *)
Definition gesture (st : State) (byTouch : bool) (e : Press)
  (rects : option Rects) (moves : list (option Client * option Px))
  : State * list Emit :=
  let r1 := onPress byTouch st e rects in
  let r2 := foldl (λ r m, andThen r (λ s, handleDrag s m.1 m.2)) r1 moves in
  andThen r2 handleDragStop.

(** No drag is in progress and none is pending. *)
Definition idle (st : State) : Prop :=
  dragging st = false ∧ dragPending st = false.

(** The position [startDrag] takes from the rectangles. *)
Definition pressPosition (r : Rects) : Position :=
  mkPosition
    (px_add
       (px_div (px_sub (clientRect_left r) (parentRect_left r)) (scale props))
       (scrollLeft r))
    (px_add
       (px_div (px_sub (clientRect_top r) (parentRect_top r)) (scale props))
       (scrollTop r)).

(** A move stays within the drag threshold of the press. *)
Definition within (press : Client) (m : option Client * option Px) : Prop :=
  match m.1 with
  | Some touch =>
      px_lt
        (px_hypot (px_sub (clientX touch) (clientX press))
           (px_sub (clientY touch) (clientY press)))
        (dragThreshold props) = true
  | None => True
  end.

Definition isDrag (e : Emit) : Prop :=
  match e with emit_drag _ _ _ _ => True | _ => False end.

Definition isDragStop (e : Emit) : Prop :=
  match e with emit_dragStop _ _ _ _ => True | _ => False end.
End handlers.
End GridItem.

(* ------------------------------------------------------------------ *)
(** * More example inputs *)
(* ------------------------------------------------------------------ *)

Module Scenarios.

(** [useGridLayout] on the demo layout, with pairs of pixels for dropping
    positions; the placeholder of a drag-in and the item it becomes. *)
Definition dropState : UseGridLayoutDrop.State (Z * Z) :=
  UseGridLayoutDrop.mkState Examples.composableState None.

Definition placeholder : LayoutItem :=
  item UseGridLayoutDrop.droppingElem 0 0 1 1.

Definition droppedItem : LayoutItem := item "n" 0 0 1 1.

(** [useGridLayout] in the middle of a drag-in, the placeholder between the
    two items of the demo layout. *)
Definition droppingState : UseGridLayoutDrop.State (Z * Z) :=
  UseGridLayoutDrop.mkState
    (UseGridLayoutDrop.withLayout Examples.composableState
       [Examples.itemA; item UseGridLayoutDrop.droppingElem 4 0 1 1;
        Examples.itemB])
    (Some (10, 10)).

(** [useGridLayout] after [setLayout] of the demo layout. *)
Definition normalisedState : UseGridLayout.State :=
  UseGridLayout.setLayout (H := Engine.layoutCore) Examples.composableOptions
    Examples.composableState Examples.demoLayout.

(** A [GridLayout] on the demo layout, at rest and in the middle of a drag
    of item "a", and its layout after the drag of "a" to column 3, row 1. *)
Definition containerState : GridLayoutContainer.State :=
  GridLayoutContainer.mkState Examples.componentState None 0.

Definition containerDragging : GridLayoutContainer.State :=
  GridLayoutContainer.mkState Examples.componentDragging None 0.

Definition movedLayout : Layout := Eval vm_compute in
    GridLayout.internalLayout
      (GridLayout.onDragStop (H := Engine.layoutCore) Examples.componentEnv
         Examples.componentDragging "a" 3 1).1.

(** The responsive component of the examples, with a vertical compactor. *)
Definition responsiveWatchers : ResponsiveGridLayoutWatchers.State :=
  ResponsiveGridLayoutWatchers.mkState Examples.responsiveComponentState
    Vertical.

(** The page of examples/App.vue as it starts: six items, four of them with
    a component. *)
Definition appItem (i : string) (x y w h : Z) : App.GridItemWithComponent :=
  App.mkGridItemWithComponent i x (ComponentSelector.row y) w h
    None None None None None None.

Definition appState : App.State :=
  App.mkState
    [App.mkGridItemWithComponent "a" 0 (ComponentSelector.row 0) 2 2
       (Some 1) (Some 1) (Some 4) (Some 4) None None;
     App.mkGridItemWithComponent "b" 2 (ComponentSelector.row 0) 2 3
       (Some 2) (Some 2) None None None None;
     appItem "c" 4 0 2 2;
     App.mkGridItemWithComponent "d" 0 (ComponentSelector.row 2) 2 2
       None None None None (Some false) None;
     appItem "e" 2 3 2 2;
     appItem "f" 4 2 2 2]
    {[ "a"%string := "text"%string; "b"%string := "chart"%string;
       "c"%string := "image"%string; "d"%string := "table"%string ]}
    None.

Definition selectorState : ComponentSelector.State :=
  ComponentSelector.mkState 0 "".

(** Whole pixels, and a stand-in for core/calculate on a grid of columns
    and rows of 100 pixels without margins and without constraints. *)
Definition pixelsZ : Pixels Z :=
  mkPixels Z 0 Z.add Z.sub Z.div (λ a b, bool_decide (a < b))
    (λ a b, Z.sqrt (a * a + b * b)).

Definition calculateZ : GridItem.CoreCalculate (Px := Z) unit :=
  GridItem.mkCoreCalculate unit
    (λ _ top left, (left `div` 100, top `div` 100))
    (λ _, 100)
    (λ units size _, units * size)
    (λ num lower upper, Z.max lower (Z.min num upper))
    (λ _ _ x y _, (x, y)).

(** Item "a" of the demo layout in a grid of twelve columns, 1200 pixels
    wide, with the default drag threshold of 3 pixels. *)
Definition itemProps : GridItem.Props (Px := Z) (Constraints := unit) :=
  GridItem.mkProps Examples.itemA 12 1200 100 (0, 0) (0, 0) 1000
    true false 1 3 tt None None.

Definition itemState : GridItem.State (Px := Z) :=
  GridItem.mkState false (GridItem.mkPosition 0 0) false false
    (GridItem.mkClient 0 0) false.

Definition itemPress : GridItem.Press (Px := Z) :=
  GridItem.mkPress 0 (GridItem.mkClient 10 10) (λ _, false).

Definition itemRects : GridItem.Rects (Px := Z) :=
  GridItem.mkRects 0 0 0 0 0 0.
End Scenarios.

(* ------------------------------------------------------------------ *)
(** * Facts about the engine *)
(* ------------------------------------------------------------------ *)

Module EngineFacts.
Import Engine.

(** ** Items and axes *)

Lemma with_pos_pos ax v it : pos ax (with_pos ax v it) = v.
Proof. by destruct ax. Qed.

Lemma with_pos_cross ax v it : cross ax (with_pos ax v it) = cross ax it.
Proof. by destruct ax. Qed.

Lemma with_pos_id ax v it : li_i (with_pos ax v it) = li_i it.
Proof. by destruct ax. Qed.

Lemma with_pos_static ax v it : li_static (with_pos ax v it) = li_static it.
Proof. by destruct ax. Qed.

Lemma with_pos_same ax it : with_pos ax (pos ax it) it = it.
Proof. by destruct ax, it. Qed.

Lemma with_pos_twice ax u v it :
  with_pos ax u (with_pos ax v it) = with_pos ax u it.
Proof. by destruct ax. Qed.

Lemma with_pos_moved ax v it :
  with_moved (Some false) (with_pos ax v it)
  = with_pos ax v (with_moved (Some false) it).
Proof. by destruct ax. Qed.

Lemma with_pos_len ax v it : len ax (with_pos ax v it) = len ax it.
Proof. by destruct ax. Qed.
Lemma with_pos_clen ax v it : clen ax (with_pos ax v it) = clen ax it.
Proof. by destruct ax. Qed.

Lemma collides_axis ax a b :
  collides a b = true ↔
  Z.max (pos ax a) (pos ax b) < Z.min (pos ax a + len ax a) (pos ax b + len ax b)
  ∧ Z.max (cross ax a) (cross ax b)
    < Z.min (cross ax a + clen ax a) (cross ax b + clen ax b).
Proof.
  unfold collides, overlaps. rewrite andb_true_iff, !bool_decide_eq_true.
  destruct ax; simpl; tauto.
Qed.

Lemma hits_spec it o :
  hits it o = true ↔ li_i o ≠ li_i it ∧ collides it o = true.
Proof. unfold hits. by rewrite andb_true_iff, bool_decide_eq_true. Qed.

Lemma getFirstCollision_Some placed it :
  is_Some (getFirstCollision placed it) ↔ ∃ b, b ∈ placed ∧ hits it b = true.
Proof.
  unfold getFirstCollision. split.
  - intros [b Hb]. apply find_some in Hb as [Hin Hh].
    exists b. split; [by apply list_elem_of_In | done].
  - intros (b & Hin & Hh). apply list_elem_of_In in Hin.
    destruct (find (hits it) placed) eqn:E; [by eexists |].
    by rewrite (find_none _ _ E b Hin) in Hh.
Qed.

Lemma blocked_spec ax placed it :
  blocked ax placed it = true ↔
  pos ax it ≤ 0
  ∨ ∃ b, b ∈ placed ∧ hits (with_pos ax (pos ax it - 1) it) b = true.
Proof.
  unfold blocked.
  by rewrite orb_true_iff, !bool_decide_eq_true, getFirstCollision_Some.
Qed.

Lemma getFirstCollision_None placed it :
  getFirstCollision placed it = None ↔ ∀ b, b ∈ placed → hits it b = false.
Proof.
  rewrite eq_None_not_Some, getFirstCollision_Some. split.
  - intros Hno b Hb. apply not_true_is_false. intros Hh. apply Hno. by exists b.
  - intros Hall (b & Hb & Hh). by rewrite (Hall b Hb) in Hh.
Qed.

Lemma collides_sym a b : collides a b = collides b a.
Proof.
  unfold collides, overlaps.
  by rewrite (Z.max_comm (li_x a)), (Z.min_comm (li_x a + _)),
    (Z.max_comm (li_y a)), (Z.min_comm (li_y a + _)).
Qed.

Lemma hits_sym a b : hits a b = hits b a.
Proof.
  unfold hits. rewrite (collides_sym a b). f_equal.
  apply bool_decide_ext. split; intros Hne Heq; by apply Hne.
Qed.

Lemma hits_self a : hits a a = false.
Proof. unfold hits. by rewrite bool_decide_eq_false_2; [|intros Hne]. Qed.

(** ** The move of one item toward the leading edge *)

Lemma slideN_spec ax placed n : ∀ it,
  (Z.to_nat (pos ax it) ≤ n)%nat →
  let r := slideN ax n placed it in
  r = with_pos ax (pos ax r) it
  ∧ pos ax r ≤ pos ax it
  ∧ blocked ax placed r = true
  ∧ (pos ax r < pos ax it → getFirstCollision placed r = None).
Proof.
  induction n as [|n IH]; intros it Hn; simpl.
  - split_and!; [by rewrite with_pos_same | lia | | lia].
    apply blocked_spec. left. lia.
  - destruct (blocked ax placed it) eqn:Hb.
    + split_and!; [by rewrite with_pos_same | lia | done | lia].
    + assert (Hfree : getFirstCollision placed (with_pos ax (pos ax it - 1) it) = None).
      { apply eq_None_not_Some. intros Hs.
        assert (blocked ax placed it = true) as Hc; [|congruence].
        unfold blocked. apply orb_true_iff. right. by apply bool_decide_eq_true. }
      assert (Hpos : 0 < pos ax it).
      { destruct (decide (pos ax it ≤ 0)) as [Hle|]; [|lia].
        assert (blocked ax placed it = true) as Hc; [|congruence].
        apply blocked_spec. by left. }
      specialize (IH (with_pos ax (pos ax it - 1) it)).
      rewrite with_pos_pos in IH.
      destruct IH as (Hr & Hle & Hbl & Hcol); [lia|].
      set (r := slideN ax n placed (with_pos ax (pos ax it - 1) it)) in *.
      split_and!.
      * rewrite Hr at 1. by rewrite with_pos_twice.
      * lia.
      * done.
      * intros _. destruct (decide (pos ax r < pos ax it - 1)) as [Hlt|Hge].
        -- by apply Hcol.
        -- assert (pos ax r = pos ax it - 1) as Heq by lia.
           rewrite Hr, with_pos_twice, Heq. done.
Qed.

Lemma slide_spec ax placed it :
  let r := slide ax placed it in
  r = with_pos ax (pos ax r) it
  ∧ pos ax r ≤ pos ax it
  ∧ blocked ax placed r = true
  ∧ (pos ax r < pos ax it → getFirstCollision placed r = None).
Proof. apply slideN_spec. done. Qed.




(** An item that a placed item stops, and that is clear of it, sits
    "immediately adjacent to that obstacle's trailing edge". *)
Lemma blocked_adjacent ax it b :
  hits (with_pos ax (pos ax it - 1) it) b = true →
  hits it b = false →
  pos ax it = pos ax b + len ax b.
Proof.
  intros Hnext Hnow. apply hits_spec in Hnext as [Hid Hcol].
  rewrite with_pos_id in Hid. apply (collides_axis ax) in Hcol.
  rewrite with_pos_pos, with_pos_len, with_pos_cross, with_pos_clen in Hcol.
  destruct (decide (pos ax it = pos ax b + len ax b)) as [|Hne]; [done|].
  assert (hits it b = true) as Hc; [|congruence].
  apply hits_spec. split; [done|]. apply (collides_axis ax). lia.
Qed.

Lemma slide_adjacent ax placed it b :
  let r := slide ax placed it in
  pos ax r < pos ax it → 0 < pos ax r →
  getFirstCollision placed (with_pos ax (pos ax r - 1) r) = Some b →
  pos ax r = pos ax b + len ax b.
Proof.
  simpl. intros Hmoved Hpos Hb.
  destruct (slide_spec ax placed it) as (_ & _ & _ & Hfree).
  specialize (Hfree Hmoved).
  unfold getFirstCollision in Hb, Hfree.
  apply find_some in Hb as [Hin Hhit].
  apply blocked_adjacent; [done|].
  apply not_true_is_false. intros Hnow.
  by rewrite (find_none _ _ Hfree b Hin) in Hnow.
Qed.

(** ** The processing order *)

#[local] Instance key_le_trans ax : Transitive (key_le ax).
Proof. intros a b c. unfold key_le. lia. Qed.

#[local] Instance key_le_total ax : Total (key_le ax).
Proof. intros a b. unfold key_le. lia. Qed.

Lemma key_lt_pos ax a b : key_lt ax a b → pos ax a.2 ≤ pos ax b.2.
Proof. unfold key_lt, key_le. lia. Qed.



(** The order only looks at the two coordinates and the index. *)
Lemma key_lt_ext ax a b a' b' :
  a.1 = a'.1 → b.1 = b'.1 →
  pos ax a.2 = pos ax a'.2 → pos ax b.2 = pos ax b'.2 →
  cross ax a.2 = cross ax a'.2 → cross ax b.2 = cross ax b'.2 →
  key_lt ax a b → key_lt ax a' b'.
Proof. unfold key_lt, key_le. lia. Qed.

Lemma key_lt_lower ax a b :
  a.1 ≠ b.1 → pos ax a.2 < pos ax b.2 → key_lt ax a b.
Proof. unfold key_lt, key_le. lia. Qed.



Lemma slideN_nonneg ax placed n : ∀ it,
  0 ≤ pos ax it → 0 ≤ pos ax (slideN ax n placed it).
Proof.
  induction n as [|n IH]; intros it Hit; simpl; [done|].
  destruct (blocked ax placed it) eqn:Hb; [done|].
  apply IH. rewrite with_pos_pos.
  destruct (decide (pos ax it ≤ 0)) as [Hle|]; [|lia].
  assert (blocked ax placed it = true) as Hc; [|congruence].
  apply blocked_spec. by left.
Qed.

(** ** The placement at the trailing edge *)

Lemma hits_ahead ax placed it c :
  c ∈ placed → hits it c = true → c ∈ ahead ax placed it.
Proof.
  intros Hin Hh. apply list_elem_of_filter. split; [|done].
  apply hits_spec in Hh as [_ Hc]. apply (collides_axis ax) in Hc. lia.
Qed.

(** The move to the trailing edge of an item leaves that item behind. *)
Lemma ahead_shrinks ax placed it c :
  c ∈ placed → hits it c = true →
  (length (ahead ax placed (with_pos ax (pos ax c + len ax c) it))
   < length (ahead ax placed it))%nat.
Proof.
  intros Hin Hh. pose proof (hits_ahead ax placed it c Hin Hh) as Hc.
  apply hits_spec in Hh as [_ Hcol]. apply (collides_axis ax) in Hcol.
  unfold ahead in *. rewrite with_pos_pos.
  set (P := λ d, pos ax it < pos ax d + len ax d) in *.
  set (Q := λ d, pos ax c + len ax c < pos ax d + len ax d).
  assert (filter Q placed = filter Q (filter P placed)) as ->.
  { rewrite list_filter_filter. apply list_filter_iff. intros d. unfold P, Q. lia. }
  eapply length_filter_lt; [exact Hc|]. unfold Q. lia.
Qed.

(** An item on a placed item, moved to the trailing edge of that item, is
    stopped there by it. *)
Lemma trailing_edge_blocked ax placed it c :
  c ∈ placed → hits it c = true →
  blocked ax placed (with_pos ax (pos ax c + len ax c) it) = true.
Proof.
  intros Hin Hh. apply blocked_spec. right. exists c. split; [done|].
  apply hits_spec in Hh as [Hid Hc]. apply (collides_axis ax) in Hc.
  apply hits_spec. rewrite !with_pos_id. split; [done|].
  apply (collides_axis ax).
  rewrite !with_pos_pos, !with_pos_len, !with_pos_cross, !with_pos_clen. lia.
Qed.

Lemma settleN_spec ax placed n : ∀ it,
  (length (ahead ax placed it) ≤ n)%nat →
  let r := settleN ax n placed it in
  r = with_pos ax (pos ax r) it
  ∧ pos ax it ≤ pos ax r
  ∧ getFirstCollision placed r = None
  ∧ (r = it ∨ blocked ax placed r = true).
Proof.
  induction n as [|n IH]; intros it Hn; simpl.
  - split_and!; [by rewrite with_pos_same | lia | | by left].
    apply getFirstCollision_None. intros b Hb. apply not_true_is_false.
    intros Hh. apply (hits_ahead ax placed) in Hh; [|done].
    destruct (ahead ax placed it); [by apply elem_of_nil in Hh|].
    simpl in Hn. lia.
  - destruct (getFirstCollision placed it) as [c|] eqn:Hc.
    + apply find_some in Hc as [Hin Hh]. apply list_elem_of_In in Hin.
      pose proof (ahead_shrinks ax placed it c Hin Hh) as Hlt.
      destruct (IH (with_pos ax (pos ax c + len ax c) it))
        as (Hr & Hle & Hfree & Hstop); [lia|].
      set (r := settleN ax n placed _) in *.
      rewrite with_pos_pos in Hle.
      split_and!.
      * rewrite Hr at 1. by rewrite with_pos_twice.
      * apply hits_spec in Hh as [_ Hcol]. apply (collides_axis ax) in Hcol. lia.
      * done.
      * right. destruct Hstop as [->|Hb]; [by apply trailing_edge_blocked | done].
    + split_and!; [by rewrite with_pos_same | lia | done | by left].
Qed.

(** The placement ends clear of every placed item: one round per placed
    item is enough. *)
Lemma settle_spec ax placed it :
  let r := settle ax placed it in
  r = with_pos ax (pos ax r) it
  ∧ pos ax it ≤ pos ax r
  ∧ getFirstCollision placed r = None
  ∧ (r = it ∨ blocked ax placed r = true).
Proof. apply settleN_spec. unfold ahead. apply length_filter. Qed.


(** ** One pass *)

(** The step for an item ends stopped and clear of every placed item. *)
Lemma compactItem_spec ax placed it :
  let r := compactItem ax placed it in
  r = with_pos ax (pos ax r) it
  ∧ blocked ax placed r = true
  ∧ getFirstCollision placed r = None
  ∧ (0 ≤ pos ax it → 0 ≤ pos ax r).
Proof.
  unfold compactItem.
  destruct (slide_spec ax placed it) as (Hs & _ & Hsb & _).
  destruct (settle_spec ax placed (slide ax placed it))
    as (Hr & Hle & Hfree & Hstop).
  pose proof (slideN_nonneg ax placed (Z.to_nat (pos ax it)) it) as Hnn.
  fold (slide ax placed it) in Hnn.
  set (s := slide ax placed it) in *. set (r := settle ax placed s) in *.
  split_and!.
  - rewrite Hr at 1. rewrite Hs. by rewrite with_pos_twice.
  - by destruct Hstop as [->|Hb].
  - done.
  - intros H0. specialize (Hnn H0). lia.
Qed.


Lemma place_shifted ax todo : ∀ placed,
  Forall2 (shifted ax) todo (place ax placed todo).
Proof.
  induction todo as [|[k it] rest IH]; intros placed; simpl; [constructor|].
  destruct (truthy (li_static it)) eqn:Hst.
  - constructor; [|apply IH]. split_and!; [done | by rewrite with_pos_same | done].
  - constructor; [|apply IH].
    destruct (compactItem_spec ax placed it) as (Hr & _).
    split_and!; [done | done | simpl; congruence].
Qed.

Lemma shifted_static ax a b : shifted ax a b → li_static b.2 = li_static a.2.
Proof. intros (_ & -> & _). apply with_pos_static. Qed.

Lemma shifted_fst ax (a b : list Entry) : Forall2 (shifted ax) a b → a.*1 = b.*1.
Proof.
  induction 1 as [|x y a b [Hxy _] _ IH]; [done|]. rewrite !fmap_cons. by f_equal.
Qed.

(** The static entries of a pass are those of its input. *)
Lemma shifted_statics ax (a b : list Entry) f :
  Forall2 (shifted ax) a b → truthy (li_static f.2) = true → f ∈ a ↔ f ∈ b.
Proof.
  intros Hab Hst. split; intros Hin; apply list_elem_of_lookup in Hin as [n Hn].
  - destruct (Forall2_lookup_l _ _ _ _ _ Hab Hn) as (f' & Hn' & (_ & _ & Hsame)).
    rewrite (Hsame Hst) in Hn'. by eapply list_elem_of_lookup_2.
  - destruct (Forall2_lookup_r _ _ _ _ _ Hab Hn) as (f0 & Hn0 & Hsh).
    pose proof (shifted_static _ _ _ Hsh) as Hflag.
    destruct Hsh as (_ & _ & Hsame).
    assert (f = f0) as ->.
    { apply Hsame. unfold truthy in *. by rewrite <- Hflag. }
    by eapply list_elem_of_lookup_2.
Qed.

(** After a pass, an entry that is not static is clear of what was placed
    before the pass and of every other entry. *)
Lemma place_free ax todo : ∀ placed,
  (∀ f, f ∈ todo → truthy (li_static f.2) = true → f.2 ∈ placed) →
  ∀ e, e ∈ place ax placed todo → truthy (li_static e.2) = false →
    (∀ x, x ∈ placed → hits e.2 x = false)
    ∧ (∀ f, f ∈ place ax placed todo → f ≠ e → hits e.2 f.2 = false).
Proof.
  induction todo as [|[k it] rest IH]; intros placed Hst e He Hne; simpl in *.
  { by apply elem_of_nil in He. }
  destruct (truthy (li_static it)) eqn:Hit.
  - apply elem_of_cons in He as [->|He]; [simpl in Hne; congruence|].
    destruct (IH placed) with (e := e) as [Hp Ho];
      [intros f Hf; apply Hst; by right | done | done |].
    split; [done|]. intros f Hf Hfe.
    apply elem_of_cons in Hf as [->|Hf]; [|by apply Ho].
    simpl. apply Hp. apply (Hst (k, it)); [by left | done].
  - set (it' := compactItem ax placed it) in *.
    destruct (compactItem_spec ax placed it) as (_ & _ & Hfree & _).
    fold it' in Hfree.
    assert (∀ f, f ∈ rest → truthy (li_static f.2) = true →
                 f.2 ∈ placed ++ [it']) as Hst'.
    { intros f Hf Hfs. apply elem_of_app. left. apply Hst; [by right | done]. }
    apply elem_of_cons in He as [->|He].
    + split; [by apply getFirstCollision_None|].
      intros f Hf Hfe. apply elem_of_cons in Hf as [->|Hf]; [done|]. simpl.
      destruct (truthy (li_static f.2)) eqn:Hfs.
      * apply (getFirstCollision_None placed it'); [done|].
        apply Hst; [|done]. right.
        by apply (shifted_statics ax rest _ f
                    (place_shifted ax rest (placed ++ [it']))).
      * rewrite hits_sym.
        destruct (IH (placed ++ [it']) Hst' f Hf Hfs) as [Hp _].
        apply Hp, elem_of_app. right. by apply list_elem_of_singleton.
    + destruct (IH (placed ++ [it']) Hst' e He Hne) as [Hp Ho].
      split; [intros x Hx; apply Hp, elem_of_app; by left|].
      intros f Hf Hfe. apply elem_of_cons in Hf as [->|Hf]; [|by apply Ho].
      simpl. apply Hp, elem_of_app. right. by apply list_elem_of_singleton.
Qed.

(** After a pass, an entry that is not static sits at the grid edge or is
    stopped by what was placed before the pass or by another entry. *)
Lemma place_stopped ax todo : ∀ placed,
  NoDup todo.*1 →
  ∀ e, e ∈ place ax placed todo → truthy (li_static e.2) = false →
    pos ax e.2 ≤ 0
    ∨ (∃ x, x ∈ placed ∧ hits (with_pos ax (pos ax e.2 - 1) e.2) x = true)
    ∨ (∃ f, f ∈ place ax placed todo ∧ f.1 ≠ e.1
            ∧ hits (with_pos ax (pos ax e.2 - 1) e.2) f.2 = true).
Proof.
  induction todo as [|[k it] rest IH]; intros placed Hnd e He Hne; simpl in *.
  { by apply elem_of_nil in He. }
  apply NoDup_cons in Hnd as [Hk Hnd].
  assert (∀ P, e ∈ place ax P rest → k ≠ e.1) as Hidx.
  { intros P HP Heq. apply Hk. rewrite Heq.
    pose proof (shifted_fst ax _ _ (place_shifted ax rest P)) as Hfst.
    change (e.1 ∈ rest.*1). rewrite Hfst.
    apply list_elem_of_fmap. by exists e. }
  destruct (truthy (li_static it)) eqn:Hit.
  - apply elem_of_cons in He as [->|He]; [simpl in Hne; congruence|].
    destruct (IH placed Hnd e He Hne) as [H0|[Hx|(f & Hf & Hfe & Hh)]];
      [by left | by right; left |].
    right; right. exists f. split_and!; [by right | done | done].
  - set (it' := compactItem ax placed it) in *.
    destruct (compactItem_spec ax placed it) as (_ & Hb & _).
    fold it' in Hb.
    apply elem_of_cons in He as [->|He].
    + simpl. apply blocked_spec in Hb as [H0|Hx]; [by left | by right; left].
    + destruct (IH (placed ++ [it']) Hnd e He Hne)
        as [H0|[(x & Hx & Hh)|(f & Hf & Hfe & Hh)]]; [by left | |].
      * apply elem_of_app in Hx as [Hx|Hx]; [right; left; by exists x|].
        apply list_elem_of_singleton in Hx as ->.
        right; right. exists (k, it'). split_and!; [by left | by eapply Hidx | done].
      * right; right. exists f. split_and!; [by right | done | done].
Qed.




(** ** Layouts and their entries *)

Lemma indexed_elem (l : Layout) k it : (k, it) ∈ indexed l ↔ l !! k = Some it.
Proof.
  unfold indexed. rewrite elem_of_lookup_imap. split.
  - intros (i & y & [= -> ->] & Hl). done.
  - intros Hl. by exists k, it.
Qed.

Lemma indexed_fst (l : Layout) : (indexed l).*1 = seq 0 (length l).
Proof.
  unfold indexed. rewrite fmap_imap.
  rewrite <- (list_fmap_id (seq 0 (length l))). by rewrite <- imap_seq_0.
Qed.

Lemma restore_lookup (l : Layout) (es : list Entry) k :
  restore l es !! k
  = (λ it, default it ((list_to_map es : gmap nat LayoutItem) !! k)) <$> l !! k.
Proof. unfold restore. by rewrite list_lookup_imap. Qed.

Lemma restore_elem (l : Layout) (es : list Entry) k it :
  NoDup es.*1 → es.*1 ≡ₚ seq 0 (length l) →
  restore l es !! k = Some it ↔ (k, it) ∈ es.
Proof.
  intros Hnd Hperm. rewrite restore_lookup. split.
  - intros Hl. apply fmap_Some in Hl as (it0 & Hl0 & ->).
    assert (k ∈ es.*1) as Hk.
    { rewrite Hperm. apply elem_of_seq. apply lookup_lt_Some in Hl0. lia. }
    apply list_elem_of_fmap in Hk as ([k' it1] & -> & Hin). simpl.
    apply (elem_of_list_to_map (M := gmap nat)) in Hin as Hm; [|done].
    rewrite Hm. done.
  - intros Hin.
    assert (k ∈ es.*1) as Hk by (apply list_elem_of_fmap; by exists (k, it)).
    rewrite Hperm in Hk. apply elem_of_seq in Hk.
    destruct (lookup_lt_is_Some_2 l k) as [it0 Hl0]; [lia|].
    rewrite Hl0. simpl.
    apply (elem_of_list_to_map (M := gmap nat)) in Hin; [|done].
    by rewrite Hin.
Qed.


Lemma indexed_restore (l : Layout) (es : list Entry) :
  NoDup es.*1 → es.*1 ≡ₚ seq 0 (length l) → indexed (restore l es) ≡ₚ es.
Proof.
  intros Hnd Hperm. apply NoDup_Permutation.
  - eapply NoDup_fmap_1. rewrite indexed_fst. apply NoDup_seq.
  - by eapply NoDup_fmap_1.
  - intros [k it]. rewrite indexed_elem. by apply restore_elem.
Qed.

Lemma sortLayoutItems_perm ax (l : Layout) : sortLayoutItems ax l ≡ₚ indexed l.
Proof. apply merge_sort_Permutation. Qed.


(** ** Compaction along an axis *)




Lemma statics_elem (l : Layout) x :
  x ∈ statics l ↔ x ∈ l ∧ truthy (li_static x) = true.
Proof.
  unfold statics. by rewrite list_elem_of_In, filter_In, <- list_elem_of_In.
Qed.

Lemma sorted_elem ax (l : Layout) k it :
  (k, it) ∈ sortLayoutItems ax l ↔ l !! k = Some it.
Proof. by rewrite sortLayoutItems_perm, indexed_elem. Qed.

Lemma place_nonneg ax todo : ∀ placed,
  Forall2 (λ a b : Entry, 0 ≤ pos ax a.2 → 0 ≤ pos ax b.2)
    todo (place ax placed todo).
Proof.
  induction todo as [|[k it] rest IH]; intros placed; simpl; [constructor|].
  destruct (truthy (li_static it)); constructor; try apply IH; [done|].
  by destruct (compactItem_spec ax placed it) as (_ & _ & _ & Hnn).
Qed.

(** What a pass over the sorted entries of a layout returns. *)
Lemma pass_spec ax (l : Layout) :
  let out := place ax (statics l) (sortLayoutItems ax l) in
  Forall2 (shifted ax) (sortLayoutItems ax l) out
  ∧ out.*1 ≡ₚ seq 0 (length l)
  ∧ NoDup out.*1
  ∧ (∀ e f, e ∈ out → f ∈ out → f ≠ e → truthy (li_static e.2) = false →
            hits e.2 f.2 = false)
  ∧ ∀ e, e ∈ out → atRest ax out e.
Proof.
  simpl. set (todo := sortLayoutItems ax l). set (out := place ax _ todo).
  assert (Forall2 (shifted ax) todo out) as Hsh by apply place_shifted.
  assert (out.*1 ≡ₚ seq 0 (length l)) as Hidx.
  { rewrite <- (shifted_fst _ _ _ Hsh). unfold todo.
    by rewrite sortLayoutItems_perm, indexed_fst. }
  assert (NoDup out.*1) as Hnd by (rewrite Hidx; apply NoDup_seq).
  assert (∀ f, f ∈ todo → truthy (li_static f.2) = true → f.2 ∈ statics l)
    as Hst.
  { intros [k x] Hf Hs. apply statics_elem. split; [|done].
    apply sorted_elem in Hf. by eapply list_elem_of_lookup_2. }
  pose proof (place_free ax todo (statics l) Hst) as Hfree. fold out in Hfree.
  split_and!; [done | done | done | |].
  { intros e f He Hf Hfe Hne. by apply (Hfree e He Hne). }
  intros e He. destruct (truthy (li_static e.2)) eqn:Hne; [by left|].
  right. destruct (Hfree e He Hne) as [_ Hothers]. split.
  - destruct (place_stopped ax todo (statics l)) with (e := e)
      as [H0|[(x & Hx & Hh)|(f & Hf & Hfe & Hh)]]; [|done|done|by left| |].
    + rewrite (shifted_fst _ _ _ Hsh). done.
    + apply statics_elem in Hx as [Hx Hs].
      apply list_elem_of_lookup in Hx as [k Hk].
      right. exists (k, x). split_and!; [|by left|done].
      apply (shifted_statics ax todo out (k, x) Hsh Hs). by apply sorted_elem.
    + right. exists f. split_and!; [done| |done].
      assert (hits e.2 f.2 = false) as Hnow.
      { apply Hothers; [done|]. by intros ->. }
      pose proof (blocked_adjacent ax _ _ Hh Hnow) as Hadj.
      apply hits_spec in Hh as [_ Hcol]. apply (collides_axis ax) in Hcol.
      right. apply key_lt_lower; [done|]. lia.
  - intros f Hf _. destruct (decide (f = e)) as [->|Hfe]; [apply hits_self|].
    by apply Hothers.
Qed.


(** The entries of a compacted layout are those of the pass. *)
Lemma compactAxis_entries ax (l : Layout) :
  let l0 := resetMoved l in
  ∀ e, e ∈ indexed (compactAxis ax l)
       ↔ e ∈ place ax (statics l0) (sortLayoutItems ax l0).
Proof.
  simpl. intros e.
  destruct (pass_spec ax (resetMoved l)) as (_ & Hidx & Hnd & _).
  unfold compactAxis. by rewrite (indexed_restore _ _ Hnd Hidx).
Qed.

(** Where the item of an index goes in a compaction. *)
Lemma compactAxis_lookup ax (l : Layout) k it' :
  compactAxis ax l !! k = Some it' →
  ∃ it, l !! k = Some it
        ∧ it' = with_pos ax (pos ax it') (with_moved (Some false) it)
        ∧ (truthy (li_static it) = true → it' = with_moved (Some false) it)
        ∧ (0 ≤ pos ax it → 0 ≤ pos ax it').
Proof.
  intros Hk. apply indexed_elem, compactAxis_entries in Hk.
  destruct (pass_spec ax (resetMoved l)) as (Hsh & _).
  apply list_elem_of_lookup in Hk as [n Hn].
  destruct (Forall2_lookup_r _ _ _ _ _ Hsh Hn)
    as ([k0 it0] & Hn0 & Hk0 & Hit & Hsame).
  pose proof (Forall2_lookup_lr _ _ _ _ _ _ (place_nonneg ax _ _) Hn0 Hn) as Hnn.
  simpl in *. subst k0.
  apply list_elem_of_lookup_2, sorted_elem in Hn0.
  unfold resetMoved in Hn0. rewrite list_lookup_fmap in Hn0.
  apply fmap_Some in Hn0 as (it1 & Hl & ->).
  exists it1. split_and!; [done | done | | by destruct ax].
  intros Hs. by injection (Hsame Hs).
Qed.


(** "No-overlap invariant: when overlap is disallowed, after compact, no
    two items in the result satisfy collides": no item that is not static
    lies on another item.  (Static items stay where the host put them, also
    on one another.) *)
Lemma compactAxis_no_overlap ax (l : Layout) j k a b :
  compactAxis ax l !! j = Some a → compactAxis ax l !! k = Some b →
  j ≠ k → truthy (li_static a) = false → li_i a ≠ li_i b →
  collides a b = false.
Proof.
  intros Ha Hb Hjk Hst Hid.
  apply indexed_elem, compactAxis_entries in Ha, Hb.
  destruct (pass_spec ax (resetMoved l)) as (_ & _ & _ & Hfree & _).
  assert (hits a b = false) as Hh.
  { apply (Hfree (j, a) (k, b)); [done | done | | done]. by intros [= ->]. }
  unfold hits in Hh. rewrite bool_decide_eq_true_2 in Hh; [done|].
  by intros Heq.
Qed.

(** "Static invariance": a compaction leaves a static item where it is. *)
Lemma compactAxis_static ax (l : Layout) k it :
  l !! k = Some it → truthy (li_static it) = true →
  compactAxis ax l !! k = Some (with_moved (Some false) it).
Proof.
  intros Hl Hst.
  destruct (lookup_lt_is_Some_2 (compactAxis ax l) k) as [it' Hk].
  { unfold compactAxis, restore, resetMoved.
    rewrite length_imap, length_fmap. by eapply lookup_lt_Some. }
  rewrite Hk. apply compactAxis_lookup in Hk as (it0 & Hl0 & _ & Hsame & _).
  assert (it0 = it) as -> by congruence. by rewrite (Hsame Hst).
Qed.


(** ** The overlap variants *)






(** ** Compaction keeps corrected bounds *)












(** ** Picking a breakpoint *)

Section pick.
Variable prefer : Z → Z → bool.
Variable ge : Z → Z → Prop.
Hypothesis ge_refl : ∀ a, ge a a.
Hypothesis ge_trans : ∀ a b c, ge a b → ge b c → ge a c.
Hypothesis prefer_true : ∀ a b, prefer a b = true → ge a b.
Hypothesis prefer_false : ∀ a b, prefer a b = false → ge b a.

Lemma pick_from (l : list (string * Z)) : ∀ a,
  ∃ p, foldl (λ acc p,
                match acc with
                | None => Some p
                | Some q => if prefer p.2 q.2 then Some p else Some q
                end) (Some a) l = Some p
       ∧ (p = a ∨ p ∈ l) ∧ ge p.2 a.2 ∧ ∀ q, q ∈ l → ge p.2 q.2.
Proof.
  induction l as [|x l IH]; intros a; simpl.
  - exists a. split_and!; [done | by left | done |].
    intros q Hq. by apply elem_of_nil in Hq.
  - destruct (prefer x.2 a.2) eqn:Hp.
    + destruct (IH x) as (p & Hf & Hin & Hge & Hall).
      exists p. split_and!; [done | | |].
      * right. destruct Hin as [->|Hin]; [by left | by right].
      * eauto.
      * intros q Hq. apply elem_of_cons in Hq as [->|Hq]; auto.
    + destruct (IH a) as (p & Hf & Hin & Hge & Hall).
      exists p. split_and!; [done | | done |].
      * destruct Hin as [->|Hin]; [by left | right; by right].
      * intros q Hq. apply elem_of_cons in Hq as [->|Hq]; eauto.
Qed.

Lemma pick_spec (l : list (string * Z)) :
  match pick prefer l with
  | None => l = []
  | Some p => p ∈ l ∧ ∀ q, q ∈ l → ge p.2 q.2
  end.
Proof.
  unfold pick. destruct l as [|x l]; simpl; [done|].
  destruct (pick_from l x) as (p & -> & Hin & Hge & Hall).
  split.
  - destruct Hin as [->|Hin]; [by left | by right].
  - intros q Hq. apply elem_of_cons in Hq as [->|Hq]; auto.
Qed.
End pick.

Lemma largest_spec (l : list (string * Z)) :
  match largest l with
  | None => l = []
  | Some p => p ∈ l ∧ ∀ q, q ∈ l → q.2 ≤ p.2
  end.
Proof.
  apply (pick_spec _ (λ a b, b ≤ a)); [lia | lia | |].
  - intros a b Hp. apply bool_decide_eq_true in Hp. lia.
  - intros a b Hp. apply bool_decide_eq_false in Hp. lia.
Qed.

Lemma smallest_spec (l : list (string * Z)) :
  match smallest l with
  | None => l = []
  | Some p => p ∈ l ∧ ∀ q, q ∈ l → p.2 ≤ q.2
  end.
Proof.
  apply (pick_spec _ (λ a b, a ≤ b)); [lia | lia | |].
  - intros a b Hp. apply bool_decide_eq_true in Hp. lia.
  - intros a b Hp. apply bool_decide_eq_false in Hp. lia.
Qed.

Lemma getBreakpointFromWidth_result (bps : Breakpoints) (width : Z) :
  match getBreakpointFromWidth bps width with
  | None => bps = ∅
  | Some b =>
      ∃ mw, bps !! b = Some mw
        ∧ ((mw ≤ width
            ∧ ∀ b' mw', bps !! b' = Some mw' → mw' ≤ width → mw' ≤ mw)
           ∨ ((∀ b' mw', bps !! b' = Some mw' → width < mw')
              ∧ ∀ b' mw', bps !! b' = Some mw' → mw ≤ mw'))
  end.
Proof.
  unfold getBreakpointFromWidth.
  pose proof (largest_spec (filter (λ p, p.2 ≤ width) (map_to_list bps))) as Hl.
  destruct (largest _) as [[b mw]|].
  - destruct Hl as [Hin Hmax]. apply list_elem_of_filter in Hin as [Hq Hin].
    simpl in *. exists mw. split; [by apply elem_of_map_to_list|].
    left. split; [done|]. intros b' mw' Hb' Hq'.
    apply (Hmax (b', mw')). apply list_elem_of_filter. split; [done|].
    by apply elem_of_map_to_list.
  - pose proof (smallest_spec (map_to_list bps)) as Hs.
    destruct (smallest _) as [[b mw]|]; simpl.
    + destruct Hs as [Hin Hmin]. exists mw.
      split; [by apply elem_of_map_to_list|]. right. split.
      * intros b' mw' Hb'. destruct (decide (mw' ≤ width)) as [Hq|]; [|lia].
        assert ((b', mw') ∈ filter (λ p, p.2 ≤ width) (map_to_list bps)) as Hf.
        { apply list_elem_of_filter. split; [done|]. by apply elem_of_map_to_list. }
        rewrite Hl in Hf. by apply elem_of_nil in Hf.
      * intros b' mw' Hb'. apply (Hmin (b', mw')). by apply elem_of_map_to_list.
    + by apply map_to_list_empty_iff.
Qed.


(** ** The engine against its testable properties *)

(** "Adjacent edges never collide." *)
Lemma collides_adjacent a b :
  li_x b = li_x a + li_w a ∨ li_y b = li_y a + li_h a → collides a b = false.
Proof.
  intros Hadj. apply not_true_is_false. intros Hc.
  apply (collides_axis AxisY) in Hc. simpl in Hc. lia.
Qed.

(** "Zero-area items never collide." *)
Lemma collides_zero_area a b :
  li_w a ≤ 0 ∨ li_h a ≤ 0 → collides a b = false.
Proof.
  intros Hzero. apply not_true_is_false. intros Hc.
  apply (collides_axis AxisY) in Hc. simpl in Hc. lia.
Qed.


(** "Bounds invariant: after correctBounds(L, {cols}), every item satisfies
    0 <= x and x + w <= cols." *)
Lemma correctBounds_invariant (l : Layout) cols it :
  1 ≤ cols → it ∈ correctBounds l cols →
  0 ≤ li_x it ∧ li_x it + li_w it ≤ cols ∧ 1 ≤ li_w it ∧ 1 ≤ li_h it.
Proof.
  intros Hcols Hin. unfold correctBounds in Hin.
  apply list_elem_of_fmap in Hin as (it0 & -> & _).
  simpl. unfold clamp. lia.
Qed.

Lemma getLayoutItem_None (l : Layout) id :
  getLayoutItem l id = None ↔ id ∉ li_i <$> l.
Proof.
  unfold getLayoutItem. split.
  - intros Hnone Hin. apply list_elem_of_fmap in Hin as (it & -> & Hin).
    apply list_elem_of_In in Hin.
    pose proof (find_none _ _ Hnone it Hin) as Hf. simpl in Hf.
    by rewrite bool_decide_eq_true_2 in Hf.
  - intros Hnotin. destruct (find _ l) as [it|] eqn:Hf; [|done].
    apply find_some in Hf as [Hin Hid]. apply bool_decide_eq_true in Hid.
    destruct Hnotin. apply list_elem_of_fmap. exists it.
    split; [done | by apply list_elem_of_In].
Qed.

(** Three items in two columns, pulled up. *)
Example compact_vertical_example :
  compact verticalCompactor
    [item "a" 0 3 2 2; item "b" 0 7 2 2; item "c" 2 1 1 1] 12
  = [with_moved (Some false) (item "a" 0 0 2 2);
     with_moved (Some false) (item "b" 0 2 2 2);
     with_moved (Some false) (item "c" 2 0 1 1)].
Proof. vm_compute. reflexivity. Qed.

(** An item that lies on another one goes to its trailing edge. *)
Example compact_onto_example :
  compact verticalCompactor [item "a" 0 0 2 2; item "b" 0 1 2 2] 12
  = [with_moved (Some false) (item "a" 0 0 2 2);
     with_moved (Some false) (item "b" 0 2 2 2)].
Proof. vm_compute. reflexivity. Qed.

(** A static item stays and stops what comes after it. *)
Example compact_static_example :
  compact verticalCompactor
    [with_static (Some true) (item "s" 0 2 1 1); item "a" 0 6 1 2] 12
  = [with_moved (Some false) (with_static (Some true) (item "s" 0 2 1 1));
     with_moved (Some false) (item "a" 0 3 1 2)].
Proof. vm_compute. reflexivity. Qed.

(** A static item also stops what comes before it in the order: item "a"
    lies on it and goes to its trailing edge. *)
Example compact_before_static_example :
  compact verticalCompactor
    [item "a" 0 0 1 3; with_static (Some true) (item "s" 0 2 1 2)] 12
  = [with_moved (Some false) (item "a" 0 4 1 3);
     with_moved (Some false) (with_static (Some true) (item "s" 0 2 1 2))].
Proof. vm_compute. reflexivity. Qed.

(** A move onto an item: the chain displaces "b" and then "c" by one row
    each; compaction closes the rows up again. *)
Example moveElement_chain_example :
  moveElement [item "a" 0 0 2 2; item "b" 0 2 2 2; item "c" 0 4 2 2]
    (item "a" 0 0 2 2) 0 1 true false Vertical 12 false
  = [with_moved (Some true) (item "a" 0 1 2 2);
     with_moved (Some true) (item "b" 0 3 2 2);
     with_moved (Some true) (item "c" 0 5 2 2)].
Proof. vm_compute. reflexivity. Qed.

(** "Scenario C: item w:6 under lg with cols=12; deriving for md with
    cols=10 yields w = round(6 x 10/12) = 5." *)
Example scale_example :
  li_w <$> findOrGenerateResponsiveLayout
             {[ "lg"%string := 12; "md"%string := 10 ]}
             {[ "lg"%string := [item "a" 0 0 6 2] ]} ∅ "md" "lg" 10
             verticalCompactor
  = [5].
Proof. vm_compute. reflexivity. Qed.

(** A row that is the sentinel resolves to the first row below the items
    that have a row. *)
Example resolveRows_example :
  li_y <$> resolveRows
             [(row 0, item "a" 0 0 2 2); (appendAtBottom, item "b" 0 0 1 1);
              (row 2, item "c" 0 0 1 3)]
  = [0; 5; 2].
Proof. vm_compute. reflexivity. Qed.
(** ** Looking items up *)

Lemma getLayoutItem_Some (l : Layout) i a :
  getLayoutItem l i = Some a → a ∈ l ∧ li_i a = i.
Proof.
  unfold getLayoutItem. intros Hf. apply find_some in Hf as [Hin Hid].
  split; [by apply list_elem_of_In | by apply bool_decide_eq_true in Hid].
Qed.

(** Looking up an id in two layouts that agree on ids, index by index. *)
Lemma getLayoutItem_Forall2 (R : LayoutItem → LayoutItem → Prop)
  (l l' : Layout) i a :
  (∀ a b, R a b → li_i a = li_i b) →
  Forall2 R l l' →
  getLayoutItem l i = Some a →
  ∃ b, getLayoutItem l' i = Some b ∧ R a b.
Proof.
  intros Hid Hall. unfold getLayoutItem.
  induction Hall as [|x y l l' Hxy _ IH]; simpl; [done|].
  rewrite <- (Hid _ _ Hxy). case_bool_decide.
  - intros [= ->]. by exists y.
  - apply IH.
Qed.

Lemma getLayoutItem_replaceItem (l : Layout) (t : LayoutItem) :
  is_Some (getLayoutItem l (li_i t)) →
  getLayoutItem (replaceItem l t) (li_i t) = Some t.
Proof.
  unfold getLayoutItem, replaceItem. intros [a Ha].
  induction l as [|x l IH]; simpl in *; [done|].
  destruct (bool_decide (li_i x = li_i t)) eqn:Hx; simpl.
  - by rewrite bool_decide_eq_true_2.
  - rewrite Hx. by apply IH.
Qed.

Lemma correctBounds_sizes (l : Layout) cols :
  Forall2 (λ a b, li_i a = li_i b
                  ∧ li_w b = clamp (li_w a) 1 cols ∧ li_h b = Z.max 1 (li_h a)
                  ∧ li_minW a = li_minW b ∧ li_maxW a = li_maxW b
                  ∧ li_minH a = li_minH b ∧ li_maxH a = li_maxH b)
    l (correctBounds l cols).
Proof.
  unfold correctBounds. apply Forall2_fmap_r, Forall_Forall2_diag, Forall_forall.
  intros a _. by simpl.
Qed.

Lemma compactAxis_length ax (l : Layout) : length (compactAxis ax l) = length l.
Proof.
  unfold compactAxis, restore, resetMoved. by rewrite length_imap, length_fmap.
Qed.

Lemma compactWith_sameSize t overlap (l : Layout) cols :
  Forall2 sameSize l (compactWith t overlap l cols).
Proof.
  assert (∀ ax, Forall2 sameSize l (compactAxis ax l)) as Haxis.
  { intros ax. apply Forall2_same_length_lookup_2.
    - by rewrite compactAxis_length.
    - intros k a b Ha Hb.
      apply compactAxis_lookup in Hb as (a' & Ha' & Hb & _).
      assert (a' = a) as -> by congruence. rewrite Hb.
      by destruct ax. }
  assert (∀ ax, Forall2 sameSize l (compactOverlap ax l cols)) as Hover.
  { intros ax. unfold compactOverlap, resetMoved. rewrite <- list_fmap_compose.
    apply Forall2_fmap_r, Forall_Forall2_diag, Forall_forall.
    intros a _. simpl. unfold clampItem. simpl.
    destruct (truthy (li_static a)); [done|]. by destruct ax. }
  destruct t, overlap; simpl; auto.
  all: apply Forall_Forall2_diag, Forall_forall; by intros a _.
Qed.

(** ** The depth of a displacement chain *)

Lemma movableCount_cons (a : LayoutItem) (l : Layout) :
  movableCount (a :: l)
  = ((if movable a then 1 else 0) + movableCount l)%nat.
Proof. unfold movableCount. simpl. by destruct (movable a). Qed.

Lemma displaced_movable ax (a : LayoutItem) : movable (displaced ax a) = false.
Proof. unfold movable, displaced. simpl. apply andb_false_r. Qed.

Lemma displaceItem_cons ax id (a : LayoutItem) (l : Layout) :
  displaceItem ax id (a :: l)
  = (if bool_decide (li_i a = id) then displaced ax a else a)
    :: displaceItem ax id l.
Proof. done. Qed.

Lemma displaceItem_count ax id (l : Layout) :
  (movableCount (displaceItem ax id l) ≤ movableCount l)%nat.
Proof.
  induction l as [|a l IH]; [done|].
  rewrite displaceItem_cons, !movableCount_cons.
  case_bool_decide; [rewrite displaced_movable|]; destruct (movable a); lia.
Qed.

(** A displacement visits an item that no displacement had visited. *)
Lemma displaceItem_visits ax id (l : Layout) now :
  getLayoutItem l id = Some now → movable now = true →
  (movableCount (displaceItem ax id l) < movableCount l)%nat.
Proof.
  unfold getLayoutItem. induction l as [|a l IH]; [done|].
  intros Hfind Hmov. simpl in Hfind.
  pose proof (displaceItem_count ax id l) as Hle.
  rewrite displaceItem_cons, !movableCount_cons.
  case_bool_decide as Hid.
  - injection Hfind as ->. rewrite displaced_movable, Hmov. lia.
  - specialize (IH Hfind Hmov). destruct (movable a); lia.
Qed.

Lemma displaceN_count ax n : ∀ (l : Layout) mover,
  (movableCount (displaceN ax n l mover) ≤ movableCount l)%nat.
Proof.
  induction n as [|n IH]; intros l mover; simpl; [done|].
  generalize (getAllCollisions l mover). intros cs.
  assert (∀ lay : Layout, (movableCount lay ≤ movableCount l)%nat →
            (movableCount
               (foldl (λ lay c,
                         match getLayoutItem lay (li_i c) with
                         | Some now =>
                             if movable now
                             then displaceN ax n (displaceItem ax (li_i c) lay)
                                    (displaced ax now)
                             else lay
                         | None => lay
                         end) lay cs) ≤ movableCount l)%nat) as Hfold.
  { induction cs as [|c cs IHcs]; intros lay Hlay; simpl; [done|].
    apply IHcs. destruct (getLayoutItem lay (li_i c)) as [now|]; [|done].
    destruct (movable now); [|done].
    pose proof (IH (displaceItem ax (li_i c) lay) (displaced ax now)).
    pose proof (displaceItem_count ax (li_i c) lay). lia. }
  by apply Hfold.
Qed.

(** A chain is at most as deep as the layout has items to visit: with that
    many rounds or more, the result is the same. *)
Lemma displaceN_enough ax n : ∀ m (l : Layout) mover,
  (movableCount l ≤ n)%nat → (movableCount l ≤ m)%nat →
  displaceN ax n l mover = displaceN ax m l mover.
Proof.
  assert (∀ k (l : Layout) mover, movableCount l = 0%nat →
            displaceN ax k l mover = l) as Hnone.
  { intros [|k] l mover Hzero; simpl; [done|].
    generalize (getAllCollisions l mover). intros cs.
    induction cs as [|c cs IHcs]; simpl; [done|].
    destruct (getLayoutItem l (li_i c)) as [now|] eqn:Hnow; [|done].
    destruct (movable now) eqn:Hmov; [|done].
    pose proof (displaceItem_visits ax _ _ _ Hnow Hmov). lia. }
  induction n as [|n IH]; intros m l mover Hn Hm.
  { rewrite (Hnone m); [done | lia]. }
  destruct m as [|m]; [rewrite (Hnone (S n)); [done | lia]|].
  simpl. generalize (getAllCollisions l mover). intros cs.
  assert (∀ lay : Layout, (movableCount lay ≤ movableCount l)%nat →
            foldl (λ lay c,
                     match getLayoutItem lay (li_i c) with
                     | Some now =>
                         if movable now
                         then displaceN ax n (displaceItem ax (li_i c) lay)
                                (displaced ax now)
                         else lay
                     | None => lay
                     end) lay cs
            = foldl (λ lay c,
                       match getLayoutItem lay (li_i c) with
                       | Some now =>
                           if movable now
                           then displaceN ax m (displaceItem ax (li_i c) lay)
                                  (displaced ax now)
                           else lay
                       | None => lay
                       end) lay cs) as Hfold.
  { induction cs as [|c cs IHcs]; intros lay Hlay; simpl; [done|].
    destruct (getLayoutItem lay (li_i c)) as [now|] eqn:Hnow; [|by apply IHcs].
    destruct (movable now) eqn:Hmov; [|by apply IHcs].
    pose proof (displaceItem_visits ax _ _ _ Hnow Hmov) as Hlt.
    rewrite (IH m) by lia. apply IHcs.
    pose proof (displaceN_count ax m (displaceItem ax (li_i c) lay)
                  (displaced ax now)). lia. }
  by apply Hfold.
Qed.

Lemma movableCount_length (l : Layout) : (movableCount l ≤ length l)%nat.
Proof.
  unfold movableCount. induction l as [|a l IH]; [done|]. simpl.
  destruct (movable a); simpl; lia.
Qed.

(** The rounds that [arrange] allows are enough. *)
Lemma displaceN_fuel ax n (l : Layout) mover :
  (length l ≤ n)%nat → displaceN ax n l mover = displaceN ax (length l) l mover.
Proof.
  intros Hn. pose proof (movableCount_length l).
  apply displaceN_enough; lia.
Qed.

(** ** Moves and resizes keep the items *)

Lemma sameSize_refl a : sameSize a a.
Proof. by unfold sameSize. Qed.

Lemma sameSize_trans a b c : sameSize a b → sameSize b c → sameSize a c.
Proof. unfold sameSize. intros. intuition congruence. Qed.

Lemma Forall2_sameSize_refl (l : Layout) : Forall2 sameSize l l.
Proof. apply Forall_Forall2_diag, Forall_forall. intros a _. apply sameSize_refl. Qed.

Lemma Forall2_sameSize_trans (l k m : Layout) :
  Forall2 sameSize l k → Forall2 sameSize k m → Forall2 sameSize l m.
Proof. apply Forall2_trans, sameSize_trans. Qed.

Lemma displaceItem_sameSize ax id (l : Layout) :
  Forall2 sameSize l (displaceItem ax id l).
Proof.
  unfold displaceItem. apply Forall2_fmap_r, Forall_Forall2_diag, Forall_forall.
  intros a _. simpl. case_bool_decide; [|apply sameSize_refl]. by destruct ax.
Qed.

(** A displacement chain moves items and marks them; it takes none away
    and resizes none. *)
Lemma displaceN_sameSize ax n : ∀ (l : Layout) mover,
  Forall2 sameSize l (displaceN ax n l mover).
Proof.
  induction n as [|n IH]; intros l mover; simpl; [apply Forall2_sameSize_refl|].
  generalize (getAllCollisions l mover). intros cs.
  assert (∀ lay : Layout, Forall2 sameSize l lay →
            Forall2 sameSize l
              (foldl (λ lay c,
                        match getLayoutItem lay (li_i c) with
                        | Some now =>
                            if movable now
                            then displaceN ax n (displaceItem ax (li_i c) lay)
                                   (displaced ax now)
                            else lay
                        | None => lay
                        end) lay cs)) as Hfold.
  { induction cs as [|c cs IHcs]; intros lay Hlay; simpl; [done|].
    apply IHcs. destruct (getLayoutItem lay (li_i c)) as [now|]; [|done].
    destruct (movable now); [|done].
    eapply Forall2_sameSize_trans; [exact Hlay|].
    eapply Forall2_sameSize_trans; [apply displaceItem_sameSize | apply IH]. }
  apply Hfold, Forall2_sameSize_refl.
Qed.

Lemma resetMoved_sameSize (l : Layout) : Forall2 sameSize l (resetMoved l).
Proof.
  unfold resetMoved. apply Forall2_fmap_r, Forall_Forall2_diag, Forall_forall.
  by intros a _.
Qed.

(** The item that a move or resize places is in the layout it returns. *)
Lemma arrange_lookup t overlap (layout : Layout) (target : LayoutItem) :
  is_Some (getLayoutItem layout (li_i target)) →
  ∃ a, getLayoutItem (arrange t overlap layout target) (li_i target) = Some a
       ∧ sameSize target a.
Proof.
  intros [b Hb]. unfold arrange.
  set (mover := with_moved (Some true) target).
  assert (li_i mover = li_i target) as Hid by done.
  assert (getLayoutItem (replaceItem (resetMoved layout) mover) (li_i target)
          = Some mover) as Hplaced.
  { rewrite <- Hid. apply getLayoutItem_replaceItem. rewrite Hid.
    destruct (getLayoutItem_Forall2 sameSize _ _ _ b (λ a b Hab, proj1 Hab)
                (resetMoved_sameSize layout) Hb) as (b' & Hb' & _).
    by eexists. }
  assert (sameSize target mover) as Hsame by done.
  destruct (axisOf t) as [ax|]; [|by exists mover].
  destruct overlap; [by exists mover|].
  destruct (getLayoutItem_Forall2 sameSize _ _ _ mover (λ a b Hab, proj1 Hab)
              (displaceN_sameSize ax
                 (length (replaceItem (resetMoved layout) mover)) _ mover)
              Hplaced) as (a & Ha & Hma).
  exists a. split; [done|]. by eapply sameSize_trans.
Qed.

(** ** Sizes through the resize pipeline *)

(** Bounds correction and compaction keep an item and its size bounds, and
    correct its size. *)
Lemma normalize_size t overlap cols (layout : Layout) i b :
  getLayoutItem layout i = Some b →
  ∃ a,
    getLayoutItem (compactWith t overlap (correctBounds layout cols) cols) i
    = Some a
    ∧ li_w a = clamp (li_w b) 1 cols ∧ li_h a = Z.max 1 (li_h b)
    ∧ li_minW a = li_minW b ∧ li_maxW a = li_maxW b
    ∧ li_minH a = li_minH b ∧ li_maxH a = li_maxH b.
Proof.
  intros H1.
  destruct (getLayoutItem_Forall2 _ _ _ i b
              (λ a b (Hab : _ ∧ _), proj1 Hab)
              (correctBounds_sizes layout cols) H1)
    as (c & H2 & Hc).
  destruct (getLayoutItem_Forall2 sameSize _ _ i c
              (λ a b Hab, proj1 Hab)
              (compactWith_sameSize t overlap _ cols) H2)
    as (a & H3 & Ha).
  exists a. split; [done|].
  destruct Hc as (_ & Hw & Hh & Hb1 & Hb2 & Hb3 & Hb4).
  destruct Ha as (_ & Hw' & Hh' & Ha1 & Ha2 & Ha3 & Ha4).
  rewrite <- Hw', <- Hh', <- Ha1, <- Ha2, <- Ha3, <- Ha4.
  rewrite Hw, Hh, <- Hb1, <- Hb2, <- Hb3, <- Hb4. done.
Qed.

Lemma clampSize_within v lo hi :
  (∀ a b, lo = Some a → hi = Some b → a ≤ b) →
  (∀ a, lo = Some a → a ≤ clampSize v lo hi)
  ∧ (∀ b, hi = Some b → clampSize v lo hi ≤ b).
Proof.
  intros Hfit. unfold clampSize.
  destruct lo as [a|], hi as [b|]; split; intros c Hc; simplify_eq;
    try (specialize (Hfit _ _ eq_refl eq_refl)); lia.
Qed.

(** The size the resize pipeline of the engine stores for an item: the
    clamped and corrected size that was asked for, or the corrected size of
    the item as it was when the engine rejects the resize. *)
Lemma resize_pipeline_size t overlap prevent cols (layout : Layout)
  (l : LayoutItem) (w h : Z) (x y : option Z) :
  getLayoutItem layout (li_i l) = Some l →
  li_static l ≠ Some true →
  let committed :=
    compactWith t overlap
      (correctBounds
         (resizeElement layout l w h x y true prevent t cols overlap) cols)
      cols in
  let size :=
    if rejected prevent overlap layout (resizeTarget l w h x y)
    then (li_w l, li_h l)
    else (clampSize w (li_minW l) (li_maxW l),
          clampSize h (li_minH l) (li_maxH l)) in
  (rejected prevent overlap layout (resizeTarget l w h x y) = true →
   committed = compactWith t overlap (correctBounds layout cols) cols)
  ∧ ∃ a,
      getLayoutItem committed (li_i l) = Some a
      ∧ li_w a = clamp size.1 1 cols ∧ li_h a = Z.max 1 size.2
      ∧ li_minW a = li_minW l ∧ li_maxW a = li_maxW l
      ∧ li_minH a = li_minH l ∧ li_maxH a = li_maxH l.
Proof.
  intros Hl Hst. simpl. unfold resizeElement.
  assert (truthy (li_static l) = false) as ->.
  { by destruct (li_static l) as [[]|]. }
  destruct (rejected prevent overlap layout (resizeTarget l w h x y)) eqn:Hrej.
  - split; [done|]. by apply normalize_size.
  - split; [done|].
    destruct (arrange_lookup t overlap layout (resizeTarget l w h x y))
      as (b & Hb & Hsame); [by eexists|].
    change (li_i (resizeTarget l w h x y)) with (li_i l) in Hb.
    destruct (normalize_size t overlap cols _ _ _ Hb)
      as (a & Ha & Hw & Hh & H1 & H2 & H3 & H4).
    exists a. split; [done|].
    destruct Hsame as (_ & Sw & Sh & S1 & S2 & S3 & S4).
    rewrite Hw, Hh, H1, H2, H3, H4, <- Sw, <- Sh, <- S1, <- S2, <- S3, <- S4.
    done.
Qed.

Lemma resize_pipeline_within t overlap prevent cols (layout : Layout)
  (l : LayoutItem) (w h : Z) (x y : option Z) :
  getLayoutItem layout (li_i l) = Some l →
  li_static l ≠ Some true →
  boundsFit cols l →
  rejected prevent overlap layout (resizeTarget l w h x y) = false →
  ∃ a,
    getLayoutItem
      (compactWith t overlap
         (correctBounds
            (resizeElement layout l w h x y true prevent t cols overlap) cols)
         cols) (li_i l) = Some a
    ∧ withinSizeBounds a.
Proof.
  intros Hl Hst (Hfw & Hlo & Hhi & Hfh & Hhh) Hrej.
  destruct (resize_pipeline_size t overlap prevent cols layout l w h x y Hl Hst)
    as (_ & a & Ha & Hw & Hh & H1 & H2 & H3 & H4).
  rewrite Hrej in Hw, Hh. simpl in Hw, Hh.
  exists a. split; [done|].
  destruct (clampSize_within w _ _ Hfw) as [Hwlo Hwhi].
  destruct (clampSize_within h _ _ Hfh) as [Hhlo Hhhi].
  unfold withinSizeBounds. rewrite Hw, Hh, H1, H2, H3, H4. unfold clamp.
  split_and!; intros m Hm.
  - specialize (Hwlo m Hm). specialize (Hlo m Hm). lia.
  - specialize (Hwhi m Hm). specialize (Hhi m Hm). lia.
  - specialize (Hhlo m Hm). lia.
  - specialize (Hhhi m Hm). specialize (Hhh m Hm). lia.
Qed.

(** The move of the engine, compacted, keeps the moved item in the layout. *)
Lemma move_pipeline_keeps t overlap cols (layout : Layout) (l : LayoutItem)
  (x y : Z) (isUserAction prevent : bool) :
  getLayoutItem layout (li_i l) = Some l →
  is_Some
    (getLayoutItem
       (compactWith t overlap
          (moveElement layout l x y isUserAction prevent t cols overlap) cols)
       (li_i l)).
Proof.
  intros Hl.
  assert (is_Some (getLayoutItem
            (moveElement layout l x y isUserAction prevent t cols overlap)
            (li_i l))) as [b Hb].
  { unfold moveElement. destruct (truthy (li_static l)); [by eexists|].
    set (target := with_y _ _).
    destruct (rejected _ _ _ _); [by eexists|].
    destruct (arrange_lookup t overlap layout target) as (a & Ha & _);
      [by eexists | by eexists]. }
  destruct (getLayoutItem_Forall2 sameSize _ _ (li_i l) b
              (λ a b Hab, proj1 Hab)
              (compactWith_sameSize t overlap _ cols) Hb) as (a & Ha & _).
  by eexists.
Qed.

Lemma composable_step_keeps (o : UseGridLayout.Options) t overlap
  (l : Layout) (i : string) (p : Z * Z) :
  UseGridLayout.compactor (H := layoutCore) o = getCompactor t overlap →
  is_Some (getLayoutItem l i) →
  is_Some (getLayoutItem
             (UseGridLayout.movedAndCompacted (H := layoutCore) o l i p) i).
Proof.
  intros Hc [it Hit]. unfold UseGridLayout.movedAndCompacted. simpl.
  rewrite Hit, Hc. simpl.
  apply getLayoutItem_Some in Hit as Hid. destruct Hid as [_ <-].
  by apply move_pipeline_keeps.
Qed.
End EngineFacts.

(** On a configuration with a breakpoint, and for a breakpoint with a
    column count, the functions of the responsive interface return what the
    engine returns. *)
Lemma responsiveCore_returns (colsConfig bps cols : Breakpoints) (width : Z)
  (bp : string) :
  (bps ≠ ∅ →
   Engine.getBreakpointFromWidth bps width
   = Some (getBreakpointFromWidth (CoreResponsive := Engine.responsiveCore colsConfig)
             bps width))
  ∧ (is_Some (cols !! bp) →
     Engine.getColsFromBreakpoint bp cols
     = Some (getColsFromBreakpoint (CoreResponsive := Engine.responsiveCore colsConfig)
               bp cols)).
Proof.
  split.
  - intros Hne. simpl.
    pose proof (EngineFacts.getBreakpointFromWidth_result bps width) as Hr.
    by destruct (Engine.getBreakpointFromWidth bps width).
  - intros [c Hc]. simpl. unfold Engine.getColsFromBreakpoint. by rewrite Hc.
Qed.

(* ------------------------------------------------------------------ *)
(** * Compaction and normalisation *)
(* ------------------------------------------------------------------ *)



(* ------------------------------------------------------------------ *)
(** * Breakpoints *)
(* ------------------------------------------------------------------ *)

(** C2.  [getBreakpointFromWidth] returns a breakpoint of the map whose
    minimal width is the largest among those that are at most the width;
    when no breakpoint qualifies it returns one of smallest minimal width.
    It has no result only for a map without breakpoints.  For
    [{lg:1200, md:996, sm:768}] and width 800 it returns "sm". *)
Theorem getBreakpointFromWidth_largest_qualifying :
  (∀ (bps : Breakpoints) (width : Z),
     match Engine.getBreakpointFromWidth bps width with
     | None => bps = ∅
     | Some b =>
         ∃ mw, bps !! b = Some mw
           ∧ ((mw ≤ width
               ∧ ∀ b' mw', bps !! b' = Some mw' → mw' ≤ width → mw' ≤ mw)
              ∨ ((∀ b' mw', bps !! b' = Some mw' → width < mw')
                 ∧ ∀ b' mw', bps !! b' = Some mw' → mw ≤ mw'))
     end)
  ∧ Engine.getBreakpointFromWidth
      {[ "lg"%string := 1200; "md"%string := 996; "sm"%string := 768 ]} 800
    = Some "sm"%string.
Proof.
  split; [apply EngineFacts.getBreakpointFromWidth_result|].
  vm_compute. reflexivity.
Qed.

(* ------------------------------------------------------------------ *)
(** * Drag handlers *)
(* ------------------------------------------------------------------ *)

Section drag.
Context `{CoreLayout}.

(** C3.  On a drag update and on a drag stop of an item of the layout, the
    layout the handler stores is [compact (moveElement layout item x y ...)
    cols], in the composable and in the component alike; every layout the
    handler emits (and the layout the watcher of the composable hands to
    [onLayoutChange]) is that compacted layout, never the result of
    [moveElement] itself. *)
Theorem drag_commits_compacted_move
  (o : UseGridLayout.Options) (env : GridLayout.Env)
  (cst : UseGridLayout.State) (gst : GridLayout.State)
  (i : string) (x y : Z) (lc lg : LayoutItem) :
  getLayoutItem (UseGridLayout.layout cst) i = Some lc →
  getLayoutItem (GridLayout.internalLayout gst) i = Some lg →
  is_Some (GridLayout.activeDrag gst) →
  let c := UseGridLayout.compactor o in
  let ccompacted :=
    compact c
      (moveElement (UseGridLayout.layout cst) lc x y true
         (UseGridLayout.preventCollision_ o) (type c) (UseGridLayout.cols o)
         (allowOverlap c))
      (UseGridLayout.cols o) in
  let e := GridLayout.effectiveCompactor env in
  let gcompacted :=
    compact e
      (moveElement (GridLayout.internalLayout gst) lg x y true
         (default false (preventCollision e)) (type e)
         (GridLayout.gridConfig_cols env) (allowOverlap e))
      (GridLayout.gridConfig_cols env) in
  UseGridLayout.layout (UseGridLayout.onDrag o cst i x y) = ccompacted
  ∧ UseGridLayout.layout (UseGridLayout.onDragStop o cst i x y) = ccompacted
  ∧ Forall (λ l, l = ccompacted)
      (UseGridLayout.layoutWatcher (UseGridLayout.onDrag o cst i x y)).2
  ∧ Forall (λ l, l = ccompacted)
      (UseGridLayout.layoutWatcher (UseGridLayout.onDragStop o cst i x y)).2
  ∧ GridLayout.internalLayout (GridLayout.onDrag env gst i x y).1 = gcompacted
  ∧ (∃ ph, (GridLayout.onDrag env gst i x y).2
           = [GridLayout.emit_callback GridLayout.drag gcompacted
                (GridLayout.oldDragItem gst) (Some lg) (Some ph)])
  ∧ GridLayout.internalLayout (GridLayout.onDragStop env gst i x y).1
    = gcompacted
  ∧ (∃ rest, (GridLayout.onDragStop env gst i x y).2
             = GridLayout.emit_callback GridLayout.dragStop gcompacted
                 (GridLayout.oldDragItem gst) (Some lg) None :: rest
             ∧ Forall (λ e, GridLayout.emittedLayout e = gcompacted) rest).
Proof.
  intros Hc Hg [ph Hph]. simpl.
  unfold UseGridLayout.layoutWatcher, UseGridLayout.onDrag,
    UseGridLayout.onDragStop, GridLayout.onDrag, GridLayout.onDragStop,
    GridLayout.moved.
  rewrite Hc, Hg, Hph. simpl. split_and!; try done.
  - case_match; simpl; repeat constructor.
  - case_match; simpl; repeat constructor.
  - by eexists.
  - eexists. split; [done|]. repeat case_match; repeat constructor.
Qed.

(** C4.  For an id the lookup does not find, [onDragStart], [onDrag],
    [onDragStop] and [onResizeStart] (and, in the component, [onResize] and
    [onResizeStop]) leave the whole state, the layout included, as it is
    and emit nothing; [onDragStart] and [onResizeStart] of the composable
    return [null]. *)
Theorem unknown_item_is_noop
  (o : UseGridLayout.Options) (env : GridLayout.Env)
  (cst : UseGridLayout.State) (gst : GridLayout.State)
  (id : string) (x y w h : Z) (handle : ResizeHandleAxis) :
  getLayoutItem (UseGridLayout.layout cst) id = None →
  getLayoutItem (GridLayout.internalLayout gst) id = None →
  UseGridLayout.onDragStart cst id x y = (cst, None)
  ∧ UseGridLayout.onDrag o cst id x y = cst
  ∧ UseGridLayout.onDragStop o cst id x y = cst
  ∧ UseGridLayout.onResizeStart cst id = (cst, None)
  ∧ GridLayout.onDragStart gst id x y = (gst, [])
  ∧ GridLayout.onDrag env gst id x y = (gst, [])
  ∧ GridLayout.onDragStop env gst id x y = (gst, [])
  ∧ GridLayout.onResizeStart gst id w h = (gst, [])
  ∧ GridLayout.onResize env gst id w h handle = (gst, [])
  ∧ GridLayout.onResizeStop env gst id w h handle = (gst, []).
Proof.
  intros Hc Hg.
  unfold UseGridLayout.onDragStart, UseGridLayout.onDrag,
    UseGridLayout.onDragStop, UseGridLayout.onResizeStart,
    GridLayout.onDragStart, GridLayout.onDrag, GridLayout.onDragStop,
    GridLayout.onResizeStart, GridLayout.onResize, GridLayout.onResizeStop.
  rewrite Hc, Hg. split_and!; try done. by destruct (GridLayout.activeDrag gst).
Qed.

(** ** Drag gestures *)

Lemma composable_onDragStart_layout (s : UseGridLayout.State) (i : string)
  (x y : Z) :
  UseGridLayout.layout (UseGridLayout.onDragStart s i x y).1
  = UseGridLayout.layout s.
Proof. unfold UseGridLayout.onDragStart. by destruct (getLayoutItem _ _). Qed.

Lemma composable_onDrag_layout (o : UseGridLayout.Options)
  (s : UseGridLayout.State) (i : string) (p : Z * Z) :
  UseGridLayout.layout (UseGridLayout.onDrag o s i p.1 p.2)
  = UseGridLayout.movedAndCompacted o (UseGridLayout.layout s) i p.
Proof.
  unfold UseGridLayout.onDrag, UseGridLayout.movedAndCompacted.
  by destruct (getLayoutItem _ _).
Qed.

Lemma composable_onDragStop_layout (o : UseGridLayout.Options)
  (s : UseGridLayout.State) (i : string) (p : Z * Z) :
  UseGridLayout.layout (UseGridLayout.onDragStop o s i p.1 p.2)
  = UseGridLayout.movedAndCompacted o (UseGridLayout.layout s) i p.
Proof.
  unfold UseGridLayout.onDragStop, UseGridLayout.movedAndCompacted.
  by destruct (getLayoutItem _ _).
Qed.

Lemma composable_drags_layout (o : UseGridLayout.Options) (i : string)
  (moves : list (Z * Z)) : ∀ s : UseGridLayout.State,
  UseGridLayout.layout
    (foldl (λ s p, UseGridLayout.onDrag o s i p.1 p.2) s moves)
  = foldl (λ l p, UseGridLayout.movedAndCompacted o l i p)
      (UseGridLayout.layout s) moves.
Proof.
  induction moves as [|p moves IH]; intros s; simpl; [done|].
  by rewrite IH, composable_onDrag_layout.
Qed.

Lemma component_onDrag_layout (env : GridLayout.Env) (s : GridLayout.State)
  (i : string) (p : Z * Z) :
  GridLayout.internalLayout (GridLayout.onDrag env s i p.1 p.2).1
  = GridLayout.movedAndCompacted env (GridLayout.internalLayout s) i p.
Proof.
  unfold GridLayout.onDrag, GridLayout.movedAndCompacted.
  by destruct (getLayoutItem _ _).
Qed.

Lemma component_onDrag_inv (env : GridLayout.Env) (s : GridLayout.State)
  (i : string) (p : Z * Z) :
  GridLayout.gestureInv i s →
  GridLayout.gestureInv i (GridLayout.onDrag env s i p.1 p.2).1.
Proof.
  unfold GridLayout.onDrag. intros Hinv.
  destruct (getLayoutItem _ _) eqn:Hl; simpl; [|done].
  left. by eexists.
Qed.

Lemma component_onDrag_events (env : GridLayout.Env) (s : GridLayout.State)
  (i : string) (p : Z * Z) (l : Layout) (e : GridLayout.Emit) :
  e ∈ (GridLayout.onDrag env s i p.1 p.2).2 → ¬ GridLayout.reportsLayout l e.
Proof.
  unfold GridLayout.onDrag.
  destruct (getLayoutItem _ _); simpl; intros He.
  - apply list_elem_of_singleton in He as ->. by intros [|].
  - by apply elem_of_nil in He.
Qed.

Lemma component_drags (env : GridLayout.Env) (i : string)
  (moves : list (Z * Z)) : ∀ r : GridLayout.State * list GridLayout.Emit,
  GridLayout.gestureInv i r.1 →
  let r' :=
    foldl (λ r p, GridLayout.andThen r (λ s, GridLayout.onDrag env s i p.1 p.2))
      r moves in
  GridLayout.internalLayout r'.1
  = foldl (λ l p, GridLayout.movedAndCompacted env l i p)
      (GridLayout.internalLayout r.1) moves
  ∧ GridLayout.gestureInv i r'.1
  ∧ ∀ l e, e ∈ r'.2 → GridLayout.reportsLayout l e → e ∈ r.2.
Proof.
  induction moves as [|p moves IH]; intros r Hinv; simpl; [done|].
  destruct (IH (GridLayout.andThen r (λ s, GridLayout.onDrag env s i p.1 p.2)))
    as (Hl & Hi & He).
  { by apply component_onDrag_inv. }
  split_and!; [|done|].
  - rewrite Hl. simpl. by rewrite component_onDrag_layout.
  - intros l e Hin Hrep. specialize (He l e Hin Hrep). simpl in He.
    apply elem_of_app in He as [He|He]; [done|].
    by apply component_onDrag_events with (l := l) in He.
Qed.

Lemma component_onDragStart_spec (s : GridLayout.State) (i : string) (x y : Z) :
  let r := GridLayout.onDragStart s i x y in
  GridLayout.internalLayout r.1 = GridLayout.internalLayout s
  ∧ GridLayout.gestureInv i r.1
  ∧ ∀ l e, e ∈ r.2 → ¬ GridLayout.reportsLayout l e.
Proof.
  unfold GridLayout.onDragStart, GridLayout.gestureInv.
  destruct (getLayoutItem _ _) eqn:Hl; simpl; split_and!; try done.
  - left. by eexists.
  - intros l' e He. apply list_elem_of_singleton in He as ->. by intros [|].
  - by right.
  - intros l' e He. by apply elem_of_nil in He.
Qed.

Lemma component_onDragStop_spec (env : GridLayout.Env) (s : GridLayout.State)
  (i : string) (p : Z * Z) :
  GridLayout.gestureInv i s →
  let r := GridLayout.onDragStop env s i p.1 p.2 in
  GridLayout.internalLayout r.1
  = GridLayout.movedAndCompacted env (GridLayout.internalLayout s) i p
  ∧ (is_Some (getLayoutItem (GridLayout.internalLayout s) i) →
     GridLayout.activeDrag r.1 = None)
  ∧ ∀ l e, e ∈ r.2 → GridLayout.reportsLayout l e →
           l = GridLayout.internalLayout r.1.
Proof.
  unfold GridLayout.onDragStop, GridLayout.movedAndCompacted, GridLayout.gestureInv.
  intros [[ph Hph]|Hnone].
  - rewrite Hph. destruct (getLayoutItem _ _) eqn:Hl; simpl.
    + split_and!; [done | done |].
      intros l' e He Hrep. apply elem_of_cons in He as [->|He].
      { by destruct Hrep. }
      case_match; [|by apply elem_of_nil in He].
      apply elem_of_cons in He as [->|He]; [destruct Hrep; congruence|].
      apply list_elem_of_singleton in He as ->. destruct Hrep; congruence.
    + split_and!; [done | by intros [? ?] |].
      intros l' e He. by apply elem_of_nil in He.
  - rewrite Hnone. destruct (GridLayout.activeDrag s); simpl.
    + split_and!; [done | by intros [? ?] |].
      intros l' e He. by apply elem_of_nil in He.
    + split_and!; [done | by intros [? ?] |].
      intros l' e He. by apply elem_of_nil in He.
Qed.

(** The layouts of a drag gesture, in the composable and in the component. *)
Lemma drag_gesture_layouts
  (o : UseGridLayout.Options) (env : GridLayout.Env)
  (cst : UseGridLayout.State) (gst : GridLayout.State)
  (i : string) (start : Z * Z) (moves : list (Z * Z)) (stop : Z * Z) :
  let cfinal := UseGridLayout.dragSequence o cst i start moves stop in
  let gfinal := GridLayout.dragSequence env gst i start moves stop in
  let cstep := λ l p, UseGridLayout.movedAndCompacted o l i p in
  let gstep := λ l p, GridLayout.movedAndCompacted env l i p in
  UseGridLayout.layout cfinal
  = foldl cstep (UseGridLayout.layout cst) (moves ++ [stop])
  ∧ (is_Some (getLayoutItem (foldl cstep (UseGridLayout.layout cst) moves) i) →
     UseGridLayout.activeDrag (UseGridLayout.dragState cfinal) = None)
  ∧ GridLayout.internalLayout gfinal.1
    = foldl gstep (GridLayout.internalLayout gst) (moves ++ [stop])
  ∧ (is_Some (getLayoutItem (foldl gstep (GridLayout.internalLayout gst) moves) i) →
     GridLayout.activeDrag gfinal.1 = None)
  ∧ ∀ l e, e ∈ gfinal.2 → GridLayout.reportsLayout l e →
           l = GridLayout.internalLayout gfinal.1.
Proof.
  unfold UseGridLayout.dragSequence, GridLayout.dragSequence.
  unfold GridLayout.andThen at 1. simpl.
  assert (∀ s : UseGridLayout.State,
    UseGridLayout.layout
      (foldl (λ s p, UseGridLayout.onDrag o s i p.1 p.2)
         (UseGridLayout.onDragStart s i start.1 start.2).1 moves)
    = foldl (λ l p, UseGridLayout.movedAndCompacted o l i p)
        (UseGridLayout.layout s) moves) as Hc.
  { intros s. by rewrite composable_drags_layout, composable_onDragStart_layout. }
  destruct (component_onDragStart_spec gst i start.1 start.2) as (Hl1 & Hi1 & He1).
  destruct (component_drags env i moves _ Hi1) as (Hl2 & Hi2 & He2).
  destruct (component_onDragStop_spec env _ i stop Hi2) as (Hl3 & Ha3 & He3).
  split_and!.
  - by rewrite foldl_app, composable_onDragStop_layout, Hc.
  - intros [l Hl]. unfold UseGridLayout.onDragStop. by rewrite Hc, Hl.
  - by rewrite foldl_app, Hl3, Hl2, Hl1.
  - rewrite <- Hl1, <- Hl2. apply Ha3.
  - intros l e He Hrep. apply elem_of_app in He as [He|He].
    + apply (He2 l) in He; [|done]. by apply (He1 l) in He.
    + by eapply He3.
Qed.
Lemma foldl_keeps (step : Layout → Z * Z → Layout) (i : string)
  (moves : list (Z * Z)) : ∀ l : Layout,
  (∀ l p, is_Some (getLayoutItem l i) → is_Some (getLayoutItem (step l p) i)) →
  is_Some (getLayoutItem l i) →
  is_Some (getLayoutItem (foldl step l moves) i).
Proof.
  induction moves as [|p moves IH]; intros l Hkeep Hl; simpl; [done|].
  apply IH; [done|]. by apply Hkeep.
Qed.

Lemma composable_unknown_gesture (o : UseGridLayout.Options)
  (s : UseGridLayout.State) (i : string) (start : Z * Z)
  (moves : list (Z * Z)) (stop : Z * Z) :
  getLayoutItem (UseGridLayout.layout s) i = None →
  UseGridLayout.dragSequence o s i start moves stop = s.
Proof.
  intros Hnone. unfold UseGridLayout.dragSequence.
  assert ((UseGridLayout.onDragStart s i start.1 start.2).1 = s) as ->.
  { unfold UseGridLayout.onDragStart. by rewrite Hnone. }
  assert (foldl (λ s p, UseGridLayout.onDrag o s i p.1 p.2) s moves = s) as ->.
  { induction moves as [|p moves IH]; simpl; [done|].
    unfold UseGridLayout.onDrag at 2. by rewrite Hnone. }
  unfold UseGridLayout.onDragStop. by rewrite Hnone.
Qed.

Lemma component_unknown_gesture (env : GridLayout.Env)
  (s : GridLayout.State) (i : string) (start : Z * Z)
  (moves : list (Z * Z)) (stop : Z * Z) :
  getLayoutItem (GridLayout.internalLayout s) i = None →
  GridLayout.dragSequence env s i start moves stop = (s, []).
Proof.
  intros Hnone. unfold GridLayout.dragSequence.
  assert (GridLayout.onDragStart s i start.1 start.2 = (s, [])) as ->.
  { unfold GridLayout.onDragStart. by rewrite Hnone. }
  assert (foldl (λ r p, GridLayout.andThen r
                          (λ s, GridLayout.onDrag env s i p.1 p.2))
            (s, []) moves = (s, [])) as ->.
  { induction moves as [|p moves IH]; simpl; [done|].
    unfold GridLayout.andThen at 2, GridLayout.onDrag at 2 3. simpl.
    by rewrite Hnone. }
  unfold GridLayout.andThen, GridLayout.onDragStop. simpl. rewrite Hnone.
  by destruct (GridLayout.activeDrag s).
Qed.

(** C9.  In a drag gesture (one start, any number of updates, one stop) the
    placeholder stays in its own state, [activeDrag]: the layout after the
    gesture is the input layout taken through [moveElement] and the
    compactor once per update and once for the stop, whatever the
    placeholder and the start coordinates are; an [update:layout] or
    [layoutChange] event carries exactly that layout.  [activeDrag] is
    [null] after a stop that finds the item; so it is after every gesture
    that starts without a placeholder, with an engine that keeps a dragged
    item in the layout. *)
Theorem placeholder_never_in_layout
  (o : UseGridLayout.Options) (env : GridLayout.Env)
  (cst : UseGridLayout.State) (gst : GridLayout.State)
  (i : string) (start : Z * Z) (moves : list (Z * Z)) (stop : Z * Z) :
  let cfinal := UseGridLayout.dragSequence o cst i start moves stop in
  let gfinal := GridLayout.dragSequence env gst i start moves stop in
  let cstep := λ l p, UseGridLayout.movedAndCompacted o l i p in
  let gstep := λ l p, GridLayout.movedAndCompacted env l i p in
  UseGridLayout.layout cfinal
  = foldl cstep (UseGridLayout.layout cst) (moves ++ [stop])
  ∧ (is_Some (getLayoutItem (foldl cstep (UseGridLayout.layout cst) moves) i) →
     UseGridLayout.activeDrag (UseGridLayout.dragState cfinal) = None)
  ∧ ((∀ l p, is_Some (getLayoutItem l i) → is_Some (getLayoutItem (cstep l p) i)) →
     UseGridLayout.activeDrag (UseGridLayout.dragState cst) = None →
     UseGridLayout.activeDrag (UseGridLayout.dragState cfinal) = None)
  ∧ GridLayout.internalLayout gfinal.1
    = foldl gstep (GridLayout.internalLayout gst) (moves ++ [stop])
  ∧ (is_Some (getLayoutItem (foldl gstep (GridLayout.internalLayout gst) moves) i) →
     GridLayout.activeDrag gfinal.1 = None)
  ∧ ((∀ l p, is_Some (getLayoutItem l i) → is_Some (getLayoutItem (gstep l p) i)) →
     GridLayout.activeDrag gst = None →
     GridLayout.activeDrag gfinal.1 = None)
  ∧ ∀ l e, e ∈ gfinal.2 → GridLayout.reportsLayout l e →
           l = GridLayout.internalLayout gfinal.1.
Proof.
  pose proof (drag_gesture_layouts o env cst gst i start moves stop)
    as (H1 & H2 & H3 & H4 & H5).
  cbv zeta. split_and!; try done.
  - intros Hkeep Hrest.
    destruct (getLayoutItem (UseGridLayout.layout cst) i) as [it|] eqn:Hl.
    + apply H2. apply foldl_keeps; [done | by eexists].
    + by rewrite composable_unknown_gesture.
  - intros Hkeep Hrest.
    destruct (getLayoutItem (GridLayout.internalLayout gst) i) as [it|] eqn:Hl.
    + apply H4. apply foldl_keeps; [done | by eexists].
    + by rewrite component_unknown_gesture.
Qed.
End drag.

(* ------------------------------------------------------------------ *)
(** * Item policy and resize geometry *)
(* ------------------------------------------------------------------ *)

Section items.
Context `{CoreLayout}.

(** C5.  A static item is neither draggable nor resizable, whatever its own
    flags and the grid-level configuration say.  For any other item a
    boolean [isDraggable] / [isResizable] flag of the item decides, and
    [dragConfig.enabled] / [resizeConfig.enabled] decide only when the item
    has no such flag. *)
Theorem static_overrides_item_policy (env : GridLayout.Env) (it : LayoutItem) :
  (li_static it = Some true →
   GridLayout.isItemDraggable env it = false
   ∧ GridLayout.isItemResizable env it = false)
  ∧ (li_static it ≠ Some true →
     (∀ b, li_isDraggable it = Some b → GridLayout.isItemDraggable env it = b)
     ∧ (li_isDraggable it = None →
        GridLayout.isItemDraggable env it = GridLayout.dragConfig_enabled env)
     ∧ (∀ b, li_isResizable it = Some b → GridLayout.isItemResizable env it = b)
     ∧ (li_isResizable it = None →
        GridLayout.isItemResizable env it = GridLayout.resizeConfig_enabled env)).
Proof.
  unfold GridLayout.isItemDraggable, GridLayout.isItemResizable. split.
  - by intros ->.
  - intros Hst.
    assert (truthy (li_static it) = false) as ->.
    { by destruct (li_static it) as [[]|]. }
    split_and!; [by intros b -> | by intros -> | by intros b -> | by intros ->].
Qed.

(** C6.  With a handle on the west edge ("w", "nw", "sw")
    [calculateResizePosition] returns [x = item.x - (newW - item.w)], so that
    the right edge [x + w] of the resized item is the old one; with a handle
    on the north edge ("n", "nw", "ne") it returns
    [y = item.y - (newH - item.h)], so that the bottom edge stays.  With any
    other handle the returned [x], respectively [y], is [undefined]; with
    "e", "s" and "se" both are, and [resizeElement] is called without a
    position. *)
Theorem resize_position_fixes_opposite_edge (env : GridLayout.Env)
  (layout : Layout) (it : LayoutItem) (newW newH : Z)
  (handle : ResizeHandleAxis) :
  let r := GridLayout.calculateResizePosition it newW newH handle in
  (handle ∈ [handle_w; handle_nw; handle_sw] →
   ∃ x, r.1 = Some x ∧ x = li_x it - (newW - li_w it)
        ∧ x + newW = li_x it + li_w it)
  ∧ (handle ∉ [handle_w; handle_nw; handle_sw] → r.1 = None)
  ∧ (handle ∈ [handle_n; handle_nw; handle_ne] →
     ∃ y, r.2 = Some y ∧ y = li_y it - (newH - li_h it)
          ∧ y + newH = li_y it + li_h it)
  ∧ (handle ∉ [handle_n; handle_nw; handle_ne] → r.2 = None)
  ∧ (handle ∈ [handle_e; handle_s; handle_se] →
     r = (None, None)
     ∧ GridLayout.resizedAndCompacted env layout it newW newH handle
       = let e := GridLayout.effectiveCompactor env in
         compact e
           (correctBounds
              (resizeElement layout it newW newH None None true
                 (default false (preventCollision e)) (type e)
                 (GridLayout.gridConfig_cols env) (allowOverlap e))
              (GridLayout.gridConfig_cols env))
           (GridLayout.gridConfig_cols env)).
Proof.
  simpl. split_and!; intros Hh;
    rewrite ?elem_of_cons, ?not_elem_of_cons, ?elem_of_nil in Hh.
  - eexists. split_and!; [|done|lia].
    destruct handle; simpl; try done; intuition congruence.
  - destruct handle; simpl; try done; intuition congruence.
  - eexists. split_and!; [|done|lia].
    destruct handle; simpl; try done; intuition congruence.
  - destruct handle; simpl; try done; intuition congruence.
  - unfold GridLayout.resizedAndCompacted.
    destruct handle; simpl; try done; intuition congruence.
Qed.
End items.

(* ------------------------------------------------------------------ *)
(** * Size bounds on a resize *)
(* ------------------------------------------------------------------ *)

(** The claim C7 as stated, refuted: [onResize] of the composable stores
    item "a" of the demo layout (maxW = 4, maxH = 4) 6 wide and 6 high; and
    in a grid of four columns the component stores an item of minimal width
    five 4 columns wide, as bounds correction has the last word. *)
Lemma resize_within_size_bounds_counterexample :
  (∃ a,
     Engine.getLayoutItem
       (UseGridLayout.layout
          (UseGridLayout.onResize (H := Engine.layoutCore)
             Examples.composableOptions Examples.composableState
             "a" 6 6 None None)) "a" = Some a
     ∧ ¬ Engine.withinSizeBounds a)
  ∧ (∃ a,
       Engine.getLayoutItem
         (GridLayout.internalLayout
            (GridLayout.onResize (H := Engine.layoutCore)
               Examples.narrowEnv Examples.narrowState
               "wide" 5 1 handle_se).1) "wide" = Some a
       ∧ ¬ Engine.withinSizeBounds a).
Proof.
  split; eexists; (split; [vm_compute; reflexivity|]).
  - intros (_ & Hmax & _). specialize (Hmax 4 eq_refl). simpl in Hmax. lia.
  - intros (Hmin & _). specialize (Hmin 5 eq_refl). simpl in Hmin. lia.
Qed.

(** C7, amended.  In the component every resize ([onResize],
    [onResizeStop]) of an item of the layout hands the proposed width and
    height to [resizeElement] first and stores
    [compact (correctBounds (resizeElement ...) cols) cols].  With the
    engine of the specification, where [resizeElement] clamps to the size
    bounds of the item, and with any of its compactors, whatever the option
    to prevent collisions: the stored width and height of an item that is
    not static lie within its size bounds whenever these fit the grid and
    the engine does not reject the resize; a rejected resize stores the
    normalised layout as it was, the item at the size it had.  [onResizeStop]
    stores the layout that [onResize] stores. *)
Theorem component_resize_within_fitting_bounds :
  (∀ (core : CoreLayout) (env : GridLayout.Env) (st : GridLayout.State)
     (i : string) (w h : Z) (handle : ResizeHandleAxis) (l : LayoutItem),
     getLayoutItem (GridLayout.internalLayout st) i = Some l →
     let p := GridLayout.calculateResizePosition l w h handle in
     let e := GridLayout.effectiveCompactor env in
     let cols := GridLayout.gridConfig_cols env in
     let committed :=
       compact e
         (correctBounds
            (resizeElement (GridLayout.internalLayout st) l w h p.1 p.2 true
               (default false (preventCollision e)) (type e) cols
               (allowOverlap e))
            cols)
         cols in
     GridLayout.internalLayout (GridLayout.onResize env st i w h handle).1
     = committed
     ∧ GridLayout.internalLayout (GridLayout.onResizeStop env st i w h handle).1
       = committed)
  ∧ (∀ (t : CompactType) (overlap : bool) (prevent : option bool)
       (env : GridLayout.Env) (st : GridLayout.State)
       (i : string) (w h : Z) (handle : ResizeHandleAxis) (l : LayoutItem),
       let cols := GridLayout.gridConfig_cols env in
       let p := GridLayout.calculateResizePosition l w h handle in
       let reject :=
         Engine.rejected (default false prevent) overlap
           (GridLayout.internalLayout st)
           (Engine.resizeTarget l w h p.1 p.2) in
       let committed :=
         GridLayout.internalLayout
           (GridLayout.onResize (H := Engine.layoutCore) env st i w h
              handle).1 in
       GridLayout.effectiveCompactor (H := Engine.layoutCore) env
       = Engine.preventing prevent t overlap →
       Engine.getLayoutItem (GridLayout.internalLayout st) i = Some l →
       li_static l ≠ Some true →
       Engine.boundsFit cols l →
       GridLayout.internalLayout
         (GridLayout.onResizeStop (H := Engine.layoutCore) env st i w h
            handle).1 = committed
       ∧ ∃ a,
         Engine.getLayoutItem committed i = Some a
         ∧ (reject = false → Engine.withinSizeBounds a)
         ∧ (reject = true →
            committed
            = compact (Engine.preventing prevent t overlap)
                (Engine.correctBounds (GridLayout.internalLayout st) cols)
                cols
            ∧ li_w a = Engine.clamp (li_w l) 1 cols
            ∧ li_h a = Z.max 1 (li_h l))).
Proof.
  split.
  - intros core env st i w h handle l Hl.
    unfold GridLayout.onResize, GridLayout.onResizeStop,
      GridLayout.resizedAndCompacted, GridLayout.calculateResizePosition.
    by rewrite Hl.
  - intros t overlap prevent env st i w h handle l cols p reject committed
      Hc Hl Hst Hfit.
    apply EngineFacts.getLayoutItem_Some in Hl as Hid. destruct Hid as [_ <-].
    destruct (EngineFacts.resize_pipeline_size t overlap (default false prevent)
                cols (GridLayout.internalLayout st) l w h p.1 p.2 Hl Hst)
      as (Hrej & a & Ha & Hw & Hh & H1 & H2 & H3 & H4).
    assert (committed
            = Engine.compactWith t overlap
                (Engine.correctBounds
                   (Engine.resizeElement (GridLayout.internalLayout st) l w h
                      p.1 p.2 true (default false prevent) t cols overlap)
                   cols) cols) as Hcommitted.
    { unfold committed, GridLayout.onResize, GridLayout.resizedAndCompacted.
      simpl. by rewrite Hl, Hc. }
    split.
    { unfold committed, GridLayout.onResize, GridLayout.onResizeStop.
      simpl. by rewrite Hl. }
    rewrite Hcommitted. exists a. split; [exact Ha|]. split.
    + intros Hno.
      destruct (EngineFacts.resize_pipeline_within t overlap
                  (default false prevent) cols (GridLayout.internalLayout st)
                  l w h p.1 p.2 Hl Hst Hfit Hno) as (a' & Ha' & Hin).
      assert (a' = a) as -> by congruence. done.
    + intros Hyes. fold reject in Hw, Hh. rewrite Hyes in Hw, Hh.
      split_and!; [by apply Hrej | done | done].
Qed.


(* ------------------------------------------------------------------ *)
(** * Responsive handlers *)
(* ------------------------------------------------------------------ *)

Section responsive.
Context `{CoreLayout} `{CoreResponsive}.

(** C8.  When the watcher of the responsive component sees a breakpoint
    change (the resolved breakpoint differs from the current one, or the
    breakpoint or column configuration changed), the layout that
    [findOrGenerateResponsiveLayout] produces goes through [correctBounds]
    with the new column count and then through [compact]; that layout
    becomes the current layout, is stored under the new breakpoint and is
    emitted with [layoutChange], the stored layouts with [update:layouts]. *)
Theorem breakpoint_change_corrects_and_compacts
  (st : ResponsiveGridLayout.State) (props : ResponsiveGridLayout.Props) :
  let newBreakpoint :=
    default
      (getBreakpointFromWidth (ResponsiveGridLayout.breakpoints props)
         (ResponsiveGridLayout.width props))
      (ResponsiveGridLayout.breakpoint props) in
  let newCols :=
    getColsFromBreakpoint newBreakpoint (ResponsiveGridLayout.cols props) in
  let c := ResponsiveGridLayout.effectiveCompactor props in
  let found :=
    findOrGenerateResponsiveLayout (ResponsiveGridLayout.preserved st)
      (ResponsiveGridLayout.breakpoints props) newBreakpoint
      (ResponsiveGridLayout.currentBreakpoint st) newCols c in
  let newLayout := compact c (correctBounds found newCols) newCols in
  let r := ResponsiveGridLayout.widthWatcher st props in
  (ResponsiveGridLayout.width props ≠ ResponsiveGridLayout.prevWidth st
   ∨ ResponsiveGridLayout.breakpoint props
     ≠ ResponsiveGridLayout.prevBreakpointProp st
   ∨ ResponsiveGridLayout.breakpoints props
     ≠ ResponsiveGridLayout.prevBreakpoints st
   ∨ ResponsiveGridLayout.cols props ≠ ResponsiveGridLayout.prevColsConfig st) →
  (ResponsiveGridLayout.currentBreakpoint st ≠ newBreakpoint
   ∨ ResponsiveGridLayout.breakpoints props
     ≠ ResponsiveGridLayout.prevBreakpoints st
   ∨ ResponsiveGridLayout.cols props ≠ ResponsiveGridLayout.prevColsConfig st) →
  ResponsiveGridLayout.currentLayout r.1 = newLayout
  ∧ ResponsiveGridLayout.currentBreakpoint r.1 = newBreakpoint
  ∧ ResponsiveGridLayout.currentCols r.1 = newCols
  ∧ ResponsiveGridLayout.internalLayouts r.1
    = <[newBreakpoint := newLayout]> (ResponsiveGridLayout.preserved st)
  ∧ ResponsiveGridLayout.internalLayouts r.1 !! newBreakpoint = Some newLayout
  ∧ ∃ widthChange,
      r.2 = [ResponsiveGridLayout.emit_breakpointChange newBreakpoint newCols;
             ResponsiveGridLayout.emit_layoutChange newLayout
               (ResponsiveGridLayout.internalLayouts r.1);
             ResponsiveGridLayout.emit_update_layouts
               (ResponsiveGridLayout.internalLayouts r.1);
             widthChange].
Proof.
  simpl. intros Hfire Hswitch.
  unfold ResponsiveGridLayout.widthWatcher, ResponsiveGridLayout.derivedLayout,
    deepEqual, default in *.
  cbv zeta.
  match goal with
  | |- context [if ?b then _ else _] => assert (b = true) as ->
  end.
  { rewrite !orb_true_iff, !negb_true_iff, !bool_decide_eq_true,
      !bool_decide_eq_false. tauto. }
  match goal with
  | |- context [if ?b then _ else _] => assert (b = true) as ->
  end.
  { rewrite !orb_true_iff, !negb_true_iff, !bool_decide_eq_true,
      !bool_decide_eq_false. tauto. }
  simpl. split_and!; try done.
  - apply lookup_insert_eq.
  - by eexists.
Qed.

(** C10.  In the width watcher of [useResponsiveLayout], a changed width
    that resolves to the current breakpoint leaves [breakpoint], [cols] and
    [layouts] as they are and calls [onWidthChange] only.  After any run of
    the watcher, [breakpoint] and [cols] are both as before, or both the
    pair derived from the new width. *)
Theorem width_change_within_breakpoint
  (o : UseResponsiveLayout.Options) (st : UseResponsiveLayout.State)
  (newWidth : Z) :
  let newBreakpoint :=
    getBreakpointFromWidth (UseResponsiveLayout.breakpoints o) newWidth in
  let newCols :=
    getColsFromBreakpoint newBreakpoint (UseResponsiveLayout.colsConfig o) in
  let r := UseResponsiveLayout.widthWatcher o st newWidth in
  (UseResponsiveLayout.prevWidth st ≠ newWidth →
   newBreakpoint = UseResponsiveLayout.breakpoint st →
   UseResponsiveLayout.breakpoint r.1 = UseResponsiveLayout.breakpoint st
   ∧ UseResponsiveLayout.cols r.1 = UseResponsiveLayout.cols st
   ∧ UseResponsiveLayout.layouts r.1 = UseResponsiveLayout.layouts st
   ∧ r.2 = [UseResponsiveLayout.onWidthChange newWidth (10, 10) newCols None])
  ∧ ((UseResponsiveLayout.breakpoint r.1 = UseResponsiveLayout.breakpoint st
      ∧ UseResponsiveLayout.cols r.1 = UseResponsiveLayout.cols st)
     ∨ (UseResponsiveLayout.breakpoint r.1 = newBreakpoint
        ∧ UseResponsiveLayout.cols r.1 = newCols)).
Proof.
  simpl. unfold UseResponsiveLayout.widthWatcher. split.
  - intros Hw Hb. rewrite (bool_decide_eq_false_2 _ Hw).
    rewrite bool_decide_eq_false_2; [done|]. by intros Hne.
  - repeat case_bool_decide; simpl; auto.
Qed.
End responsive.

(* ------------------------------------------------------------------ *)
(** * The theorems at work on the demo layout *)
(* ------------------------------------------------------------------ *)


(** Dragging item "a" of the demo layout to column 3, row 1. *)
Lemma drag_commits_compacted_move_witness :
  (Engine.getLayoutItem Examples.demoLayout "a" = Some Examples.itemA
   ∧ is_Some (GridLayout.activeDrag Examples.componentDragging))
  ∧ UseGridLayout.layout
      (UseGridLayout.onDrag (H := Engine.layoutCore)
         Examples.composableOptions Examples.composableState "a" 3 1)
    = compact Engine.verticalCompactor
        (Engine.moveElement Examples.demoLayout Examples.itemA 3 1 true false
           Vertical 12 false) 12.
Proof.
  split; [split; [reflexivity | by eexists]|].
  apply (drag_commits_compacted_move (H := Engine.layoutCore)
           Examples.composableOptions Examples.componentEnv
           Examples.composableState Examples.componentDragging
           "a" 3 1 Examples.itemA Examples.itemA);
    [reflexivity | reflexivity | by eexists].
Defined.

(** No item of the demo layout has the id "zz". *)
Lemma unknown_item_is_noop_witness :
  Engine.getLayoutItem Examples.demoLayout "zz" = None
  ∧ UseGridLayout.onDragStart (H := Engine.layoutCore)
      Examples.composableState "zz" 3 1
    = (Examples.composableState, None).
Proof.
  split; [reflexivity|].
  apply (unknown_item_is_noop (H := Engine.layoutCore)
           Examples.composableOptions Examples.componentEnv
           Examples.composableState Examples.componentState
           "zz" 3 1 2 2 handle_se);
    reflexivity.
Defined.

(** Item "a" made static, and item "a" as it is under an enabling grid. *)
Lemma static_overrides_item_policy_witness :
  (li_static (with_static (Some true) Examples.itemA) = Some true
   ∧ GridLayout.isItemDraggable Examples.componentEnv
       (with_static (Some true) Examples.itemA) = false)
  ∧ (li_static Examples.itemA ≠ Some true
     ∧ li_isDraggable Examples.itemA = None
     ∧ GridLayout.isItemDraggable Examples.componentEnv Examples.itemA = true).
Proof.
  split.
  - split; [reflexivity|].
    destruct (static_overrides_item_policy Examples.componentEnv
                (with_static (Some true) Examples.itemA)) as [Hstatic _].
    apply Hstatic. reflexivity.
  - split_and!; [done | reflexivity |].
    destruct (static_overrides_item_policy Examples.componentEnv Examples.itemA)
      as [_ Hother].
    destruct Hother as (_ & Hnone & _); [done|].
    apply Hnone. reflexivity.
Defined.

(** Widening item "a" (x = 0, w = 2) to 3 columns from its west edge. *)
Lemma resize_position_fixes_opposite_edge_witness :
  handle_w ∈ [handle_w; handle_nw; handle_sw]
  ∧ ∃ x, (GridLayout.calculateResizePosition Examples.itemA 3 2 handle_w).1
         = Some x
         ∧ x = li_x Examples.itemA - (3 - li_w Examples.itemA)
         ∧ x + 3 = li_x Examples.itemA + li_w Examples.itemA.
Proof.
  split; [by left|].
  apply (resize_position_fixes_opposite_edge (H := Engine.layoutCore)
           Examples.componentEnv Examples.demoLayout Examples.itemA 3 2
           handle_w).
  by left.
Defined.

(** The responsive component shrinking from 1250 to 800 pixels: from "lg"
    to "sm". *)
Lemma breakpoint_change_corrects_and_compacts_witness :
  (ResponsiveGridLayout.width Examples.responsiveProps
   ≠ ResponsiveGridLayout.prevWidth Examples.responsiveComponentState)
  ∧ ResponsiveGridLayout.currentBreakpoint
      (ResponsiveGridLayout.widthWatcher
         (H := Engine.layoutCore) (H0 := Examples.responsiveEngine)
         Examples.responsiveComponentState Examples.responsiveProps).1
    = "sm"%string.
Proof.
  split; [done|].
  apply (breakpoint_change_corrects_and_compacts
           (H := Engine.layoutCore) (H0 := Examples.responsiveEngine)
           Examples.responsiveComponentState Examples.responsiveProps).
  - by left.
  - left. vm_compute. done.
Defined.

(** A gesture on item "a": start, two updates, stop. *)
Lemma placeholder_never_in_layout_witness :
  (is_Some
     (Engine.getLayoutItem
        (foldl (λ l p,
                  UseGridLayout.movedAndCompacted (H := Engine.layoutCore)
                    Examples.composableOptions l "a" p)
           Examples.demoLayout [(1, 0); (2, 1)]) "a")
   ∧ UseGridLayout.activeDrag
       (UseGridLayout.dragState Examples.composableState) = None)
  ∧ UseGridLayout.activeDrag
      (UseGridLayout.dragState
         (UseGridLayout.dragSequence (H := Engine.layoutCore)
            Examples.composableOptions Examples.composableState "a" (0, 0)
            [(1, 0); (2, 1)] (3, 1)))
    = None.
Proof.
  split; [split; [vm_compute; by eexists | reflexivity]|].
  destruct (placeholder_never_in_layout (H := Engine.layoutCore)
              Examples.composableOptions Examples.componentEnv
              Examples.composableState Examples.componentState "a" (0, 0)
              [(1, 0); (2, 1)] (3, 1)) as (_ & Hstop & Hrest & _).
  apply Hrest; [|reflexivity].
  intros l p. by apply (EngineFacts.composable_step_keeps _ Vertical false).
Defined.

(** [useResponsiveLayout] growing from 1250 to 1300 pixels: still "lg". *)
Lemma width_change_within_breakpoint_witness :
  (UseResponsiveLayout.prevWidth Examples.responsiveState ≠ 1300
   ∧ Engine.getBreakpointFromWidth UseResponsiveLayout.DEFAULT_BREAKPOINTS 1300
     = Some (UseResponsiveLayout.breakpoint Examples.responsiveState))
  ∧ UseResponsiveLayout.layouts
      (UseResponsiveLayout.widthWatcher
         (H := Engine.layoutCore) (H0 := Examples.responsiveEngine)
         Examples.responsiveOptions Examples.responsiveState 1300).1
    = UseResponsiveLayout.layouts Examples.responsiveState.
Proof.
  split; [split; [done | vm_compute; reflexivity]|].
  apply (width_change_within_breakpoint
           (H := Engine.layoutCore) (H0 := Examples.responsiveEngine)
           Examples.responsiveOptions Examples.responsiveState 1300).
  - done.
  - vm_compute. reflexivity.
Defined.

(** Resizing item "a" of the demo layout (sizes 1 to 4) to 6 by 6 in the
    component; and shrinking an item of width 6 (at most 4 allowed) onto its
    neighbour under a compactor that prevents collisions, which the engine
    rejects. *)
Lemma component_resize_within_fitting_bounds_witness :
  (Engine.getLayoutItem Examples.demoLayout "a" = Some Examples.itemA
   ∧ li_static Examples.itemA ≠ Some true
   ∧ Engine.boundsFit 12 Examples.itemA
   ∧ Engine.boundsFit 12 Examples.oversizedItem)
  ∧ (∃ a,
       Engine.getLayoutItem
         (GridLayout.internalLayout
            (GridLayout.onResize (H := Engine.layoutCore)
               Examples.componentEnv Examples.componentState
               "a" 6 6 handle_se).1) "a" = Some a
       ∧ Engine.withinSizeBounds a)
  ∧ (∃ a,
       Engine.getLayoutItem
         (GridLayout.internalLayout
            (GridLayout.onResize (H := Engine.layoutCore)
               Examples.preventingEnv Examples.preventingState
               "a" 3 2 handle_se).1) "a" = Some a
       ∧ li_w a = 6).
Proof.
  assert (Engine.boundsFit 12 Examples.itemA) as Hfit.
  { unfold Engine.boundsFit. simpl. split_and!; intros; simplify_eq; lia. }
  assert (Engine.boundsFit 12 Examples.oversizedItem) as Hfit'.
  { unfold Engine.boundsFit. simpl. split_and!; intros; simplify_eq; lia. }
  split; [split_and!; [reflexivity | done | exact Hfit | exact Hfit']|].
  destruct component_resize_within_fitting_bounds as [_ Hbounds].
  split.
  - destruct (Hbounds Vertical false None Examples.componentEnv
                Examples.componentState "a" 6 6 handle_se Examples.itemA)
      as (_ & a & Ha & Hin & _); [reflexivity | reflexivity | done | exact Hfit|].
    exists a. split; [exact Ha|]. apply Hin. reflexivity.
  - destruct (Hbounds Vertical false (Some true) Examples.preventingEnv
                Examples.preventingState "a" 3 2 handle_se
                Examples.oversizedItem)
      as (_ & a & Ha & _ & Hkept);
      [reflexivity | reflexivity | done | exact Hfit'|].
    exists a. split; [exact Ha|].
    destruct Hkept as (_ & Hw & _); [reflexivity | exact Hw].
Defined.

(* ------------------------------------------------------------------ *)
(** * Further properties of the handlers *)
(* ------------------------------------------------------------------ *)

Section composable_more.
Context `{CoreLayout}.

Lemma composable_onDrag_flags (o : UseGridLayout.Options)
  (s : UseGridLayout.State) (i : string) (x y : Z) :
  UseGridLayout.isDragging (UseGridLayout.onDrag o s i x y)
  = UseGridLayout.isDragging s
  ∧ UseGridLayout.prevLayout (UseGridLayout.onDrag o s i x y)
    = UseGridLayout.prevLayout s.
Proof. unfold UseGridLayout.onDrag. by destruct (getLayoutItem _ _). Qed.

Lemma composable_drags_flags (o : UseGridLayout.Options)
  (moves : list (string * (Z * Z))) : ∀ s : UseGridLayout.State,
  let s' := foldl (λ s m, UseGridLayout.onDrag o s m.1 m.2.1 m.2.2) s moves in
  UseGridLayout.isDragging s' = UseGridLayout.isDragging s
  ∧ UseGridLayout.prevLayout s' = UseGridLayout.prevLayout s.
Proof.
  induction moves as [|m moves IH]; intros s; simpl; [done|].
  destruct (IH (UseGridLayout.onDrag o s m.1 m.2.1 m.2.2)) as [-> ->].
  apply composable_onDrag_flags.
Qed.

(** X1.  [useGridLayout]: from an [onDragStart] that finds its item, through
    any drag updates (of any ids), the watcher on the [layout] option
    ignores a new props layout; once [onDragStop] has found its item, a
    props layout that differs from the last one notified is taken again and
    stored after [correctBounds] and [compact]. *)
Theorem composable_props_sync_waits_for_drag_end
  (o : UseGridLayout.Options) (st : UseGridLayout.State) (i : string) (x y : Z)
  (moves : list (string * (Z * Z))) (newLayout : Layout) :
  is_Some (getLayoutItem (UseGridLayout.layout st) i) →
  let st1 := (UseGridLayout.onDragStart st i x y).1 in
  let st2 :=
    foldl (λ s m, UseGridLayout.onDrag o s m.1 m.2.1 m.2.2) st1 moves in
  UseGridLayout.propsWatcher o st2 newLayout = st2
  ∧ ∀ (j : string) (p : Z * Z),
      is_Some (getLayoutItem (UseGridLayout.layout st2) j) →
      newLayout ≠ UseGridLayout.prevLayout st →
      UseGridLayout.layout
        (UseGridLayout.propsWatcher o
           (UseGridLayout.onDragStop o st2 j p.1 p.2) newLayout)
      = UseGridLayout.initializeLayout o newLayout.
Proof.
  intros [it Hit] st1 st2.
  destruct (composable_drags_flags o moves st1) as [Hd Hp].
  fold st2 in Hd, Hp.
  assert (UseGridLayout.isDragging st1 = true
          ∧ UseGridLayout.prevLayout st1 = UseGridLayout.prevLayout st)
    as [Hd1 Hp1].
  { unfold st1, UseGridLayout.onDragStart. by rewrite Hit. }
  split.
  - unfold UseGridLayout.propsWatcher. by rewrite Hd, Hd1.
  - intros j p [jt Hj] Hne.
    unfold UseGridLayout.onDragStop. rewrite Hj.
    unfold UseGridLayout.propsWatcher, deepEqual. simpl.
    rewrite Hp, Hp1. by rewrite bool_decide_eq_false_2.
Qed.

(** X2.  [useGridLayout]: the watcher on [layout] calls [onLayoutChange] with
    the current layout exactly when it differs from the layout notified
    last, and then never again for the same layout; the notified layout
    coming back as the [layout] option changes nothing. *)
Theorem composable_layout_change_notified_once
  (o : UseGridLayout.Options) (st : UseGridLayout.State) :
  let r := UseGridLayout.layoutWatcher st in
  (r.2 = [] ∨ r.2 = [UseGridLayout.layout st])
  ∧ (r.2 = [] ↔ UseGridLayout.layout st = UseGridLayout.prevLayout st)
  ∧ UseGridLayout.layout r.1 = UseGridLayout.layout st
  ∧ UseGridLayout.layoutWatcher r.1 = (r.1, [])
  ∧ UseGridLayout.propsWatcher o r.1 (UseGridLayout.layout st) = r.1.
Proof.
  simpl. unfold UseGridLayout.layoutWatcher, UseGridLayout.propsWatcher, deepEqual.
  case_bool_decide as Heq; simpl.
  - rewrite Heq, !bool_decide_eq_true_2 by done. simpl.
    destruct (UseGridLayout.isDragging st); naive_solver.
  - rewrite !bool_decide_eq_true_2 by done. simpl.
    destruct (UseGridLayout.isDragging st); naive_solver.
Qed.

Lemma resized_other (itemId : string) (w h : Z) (x y : option Z) (l : Layout) :
  itemId ∉ li_i <$> l → UseGridLayout.resized itemId w h x y <$> l = l.
Proof.
  intros Hn. rewrite <-(list_fmap_id l) at 2.
  apply list_fmap_ext. intros k it Hk. unfold UseGridLayout.resized.
  rewrite bool_decide_eq_false_2; [done|].
  intros <-. apply Hn. apply list_elem_of_fmap. exists it. split; [done|].
  by eapply list_elem_of_lookup_2.
Qed.

(** X3.  [useGridLayout]: unlike the drag handlers, [onResize] and
    [onResizeStop] do not look the item up.  For an id that no item of the
    layout carries they resize nothing and store
    [compact (correctBounds layout)]: the state is as before exactly when the
    layout was normalised already. *)
Theorem composable_resize_of_unknown_id_renormalises
  (o : UseGridLayout.Options) (st : UseGridLayout.State) (itemId : string)
  (w h : Z) (x y : option Z) :
  itemId ∉ li_i <$> UseGridLayout.layout st →
  let normalised :=
    compact (UseGridLayout.compactor o)
      (correctBounds (UseGridLayout.layout st) (UseGridLayout.cols o))
      (UseGridLayout.cols o) in
  UseGridLayout.onResize o st itemId w h x y
  = UseGridLayoutDrop.withLayout st normalised
  ∧ UseGridLayout.layout (UseGridLayout.onResizeStop o st itemId w h)
    = normalised
  ∧ (normalised = UseGridLayout.layout st →
     UseGridLayout.onResize o st itemId w h x y = st).
Proof.
  intros Hn normalised.
  assert (UseGridLayout.onResize o st itemId w h x y
          = UseGridLayoutDrop.withLayout st normalised) as Hr.
  { unfold UseGridLayout.onResize. by rewrite resized_other. }
  split_and!; [done| |].
  - unfold UseGridLayout.onResizeStop, UseGridLayout.onResize. simpl.
    by rewrite resized_other.
  - intros Hfix. rewrite Hr, Hfix. by destruct st.
Qed.
End composable_more.

(* ------------------------------------------------------------------ *)
(** * Item ids under the engine *)
(* ------------------------------------------------------------------ *)

Lemma engine_findsById : findsById (H := Engine.layoutCore).
Proof.
  intros l id. simpl.
  pose proof (EngineFacts.getLayoutItem_None l id) as Hn.
  destruct (Engine.getLayoutItem l id) as [a|] eqn:Ha.
  - split; [intros _|by eexists].
    destruct (decide (id ∈ li_i <$> l)) as [|Hno]; [done|].
    apply Hn in Hno. done.
  - split; [by intros [? ?]|]. intros Hin.
    destruct Hn as [Hn _]. by destruct (Hn eq_refl).
Qed.

Lemma engine_correctBounds_keepsIds (cols : Z) :
  keepsIds (λ l, Engine.correctBounds l cols).
Proof.
  intros l. unfold Engine.correctBounds. rewrite <-list_fmap_compose.
  by apply list_fmap_ext.
Qed.

Lemma engine_compact_keepsIds (t : CompactType) (overlap : bool) (cols : Z) :
  keepsIds (λ l, Engine.compactWith t overlap l cols).
Proof.
  intros l. pose proof (EngineFacts.compactWith_sameSize t overlap l cols) as Hs.
  symmetry. induction Hs as [|a b l l' (Hi & _) _ IH]; [done|].
  rewrite !fmap_cons. by f_equal.
Qed.

Lemma filter_ids (d : string) (l : Layout) :
  li_i <$> filter (λ it, li_i it ≠ d) l = filter (λ i, i ≠ d) (li_i <$> l).
Proof.
  induction l as [|a l IH]; [done|].
  rewrite fmap_cons, !filter_cons. destruct (decide (li_i a ≠ d)).
  - by rewrite fmap_cons, IH.
  - done.
Qed.

Lemma filter_twice {A : Type} (P : A → Prop) `{∀ x, Decision (P x)}
  (l : list A) : filter P (filter P l) = filter P l.
Proof. rewrite list_filter_filter. apply list_filter_iff. intros x. tauto. Qed.

Lemma filter_fresh (d : string) (ids : list string) :
  d ∉ ids → filter (λ i, i ≠ d) ids = ids.
Proof.
  induction ids as [|a ids IH]; [done|].
  rewrite not_elem_of_cons. intros [Hne Hn].
  rewrite filter_cons_True by done. by rewrite IH.
Qed.

Section drop.
Context `{CoreLayout}.
Context {DroppingPosition : Type}.

Lemma composable_normalise_ids (o : UseGridLayout.Options) (l : Layout) :
  keepsIds (λ l, correctBounds l (UseGridLayout.cols o)) →
  keepsIds (λ l, compact (UseGridLayout.compactor o) l (UseGridLayout.cols o)) →
  li_i <$> compact (UseGridLayout.compactor o)
             (correctBounds l (UseGridLayout.cols o)) (UseGridLayout.cols o)
  = li_i <$> l.
Proof. intros Hb Hc. by rewrite (Hc _), (Hb _). Qed.

Lemma onDropDragOver_ids (o : UseGridLayout.Options)
  (st : UseGridLayoutDrop.State DroppingPosition)
  (droppingItem : LayoutItem) (p : DroppingPosition) :
  findsById →
  keepsIds (λ l, correctBounds l (UseGridLayout.cols o)) →
  keepsIds (λ l, compact (UseGridLayout.compactor o) l (UseGridLayout.cols o)) →
  li_i <$> UseGridLayout.layout
             (UseGridLayoutDrop.refs
                (UseGridLayoutDrop.onDropDragOver o st droppingItem p))
  = if decide (li_i droppingItem
               ∈ li_i <$> UseGridLayout.layout (UseGridLayoutDrop.refs st))
    then li_i <$> UseGridLayout.layout (UseGridLayoutDrop.refs st)
    else (li_i <$> UseGridLayout.layout (UseGridLayoutDrop.refs st))
         ++ [li_i droppingItem].
Proof.
  intros Hf Hb Hc. unfold UseGridLayoutDrop.onDropDragOver. simpl.
  destruct (getLayoutItem _ _) as [a|] eqn:Ha.
  - rewrite decide_True; [done|]. apply Hf. by eexists.
  - rewrite decide_False.
    + simpl. rewrite composable_normalise_ids by done. by rewrite fmap_app.
    + intros Hin. apply Hf in Hin. rewrite Ha in Hin. by destruct Hin.
Qed.

(** X4.  [useGridLayout]: over an engine that finds items by id and keeps
    ids, [onDropDragOver] leaves an item of the dropping item's id in the
    layout; a second [dragover] for the same item changes nothing but the
    dropping position, and the composable reports an interaction. *)
Theorem drop_dragover_adds_item_once (o : UseGridLayout.Options)
  (st : UseGridLayoutDrop.State DroppingPosition)
  (droppingItem : LayoutItem) (p1 p2 : DroppingPosition) :
  findsById →
  keepsIds (λ l, correctBounds l (UseGridLayout.cols o)) →
  keepsIds (λ l, compact (UseGridLayout.compactor o) l (UseGridLayout.cols o)) →
  let st1 := UseGridLayoutDrop.onDropDragOver o st droppingItem p1 in
  li_i droppingItem
    ∈ li_i <$> UseGridLayout.layout (UseGridLayoutDrop.refs st1)
  ∧ UseGridLayoutDrop.onDropDragOver o st1 droppingItem p2
    = UseGridLayoutDrop.mkState (UseGridLayoutDrop.refs st1) (Some p2)
  ∧ UseGridLayoutDrop.isInteracting st1 = true.
Proof.
  intros Hf Hb Hc st1.
  assert (li_i droppingItem
            ∈ li_i <$> UseGridLayout.layout (UseGridLayoutDrop.refs st1)) as Hin.
  { unfold st1. rewrite onDropDragOver_ids by done. case_decide; [done|].
    apply elem_of_app. right. by apply list_elem_of_singleton. }
  split_and!; [done| |].
  - apply Hf in Hin as [a Ha].
    unfold UseGridLayoutDrop.onDropDragOver at 1. by rewrite Ha.
  - unfold UseGridLayoutDrop.isInteracting, st1. simpl.
    apply orb_true_r.
Qed.

(** X5.  [useGridLayout]: over an engine that finds items by id and keeps
    ids, a drag-in of the placeholder "__dropping-elem__" followed by
    [onDropDragLeave] leaves the items of the ids the layout had before, in
    the same order, and no dropping position; a second [onDropDragLeave]
    changes nothing. *)
Theorem drop_leave_restores_item_ids (o : UseGridLayout.Options)
  (st : UseGridLayoutDrop.State DroppingPosition)
  (placeholder : LayoutItem) (p : DroppingPosition) :
  findsById →
  keepsIds (λ l, correctBounds l (UseGridLayout.cols o)) →
  keepsIds (λ l, compact (UseGridLayout.compactor o) l (UseGridLayout.cols o)) →
  li_i placeholder = UseGridLayoutDrop.droppingElem →
  UseGridLayoutDrop.droppingElem
    ∉ li_i <$> UseGridLayout.layout (UseGridLayoutDrop.refs st) →
  let st2 :=
    UseGridLayoutDrop.onDropDragLeave
      (UseGridLayoutDrop.onDropDragOver o st placeholder p) in
  li_i <$> UseGridLayout.layout (UseGridLayoutDrop.refs st2)
  = li_i <$> UseGridLayout.layout (UseGridLayoutDrop.refs st)
  ∧ UseGridLayoutDrop.droppingPosition st2 = None
  ∧ UseGridLayoutDrop.onDropDragLeave st2 = st2.
Proof.
  intros Hf Hb Hc Hid Hfresh st2.
  assert (li_i <$> UseGridLayout.layout (UseGridLayoutDrop.refs st2)
          = li_i <$> UseGridLayout.layout (UseGridLayoutDrop.refs st)) as Hids.
  { unfold st2, UseGridLayoutDrop.onDropDragLeave. cbn [UseGridLayoutDrop.refs
      UseGridLayoutDrop.withLayout UseGridLayout.layout].
    rewrite filter_ids, onDropDragOver_ids by done.
    rewrite Hid, decide_False by done.
    rewrite filter_app, filter_fresh by done.
    rewrite filter_cons_False; [|by intros Hne; apply Hne].
    by rewrite filter_nil, app_nil_r. }
  split_and!; [done|done|].
  unfold UseGridLayoutDrop.onDropDragLeave at 1.
  assert (filter (λ it, li_i it ≠ UseGridLayoutDrop.droppingElem)
            (UseGridLayout.layout (UseGridLayoutDrop.refs st2))
          = UseGridLayout.layout (UseGridLayoutDrop.refs st2)) as ->.
  { unfold st2, UseGridLayoutDrop.onDropDragLeave. cbn [UseGridLayoutDrop.refs
      UseGridLayoutDrop.withLayout UseGridLayout.layout].
    apply filter_twice. }
  unfold st2, UseGridLayoutDrop.onDropDragLeave, UseGridLayoutDrop.withLayout.
  simpl. done.
Qed.

Lemma dropped_ids (droppingItem : LayoutItem) (l : Layout) :
  li_i <$> (UseGridLayoutDrop.dropped droppingItem <$> l)
  = (λ i, if bool_decide (i = UseGridLayoutDrop.droppingElem)
          then li_i droppingItem else i) <$> (li_i <$> l).
Proof.
  rewrite <-!list_fmap_compose. apply list_fmap_ext. intros k it _. simpl.
  unfold UseGridLayoutDrop.dropped. by case_bool_decide.
Qed.

(** X6.  [useGridLayout]: over an engine that keeps ids, [onDrop] gives every
    item of id "__dropping-elem__" the id of the dropped item, wherever it
    stands, leaves the other ids and the order alone and clears the dropping
    position.  Over an engine that also finds items by id, a drag-in of the
    placeholder into a layout without one, followed by [onDrop], ends with
    the ids of the layout before and the id of the dropped item after them,
    and the interaction the drag-in started is over. *)
Theorem drop_commits_dropped_item (o : UseGridLayout.Options)
  (droppingItem : LayoutItem) :
  keepsIds (λ l, correctBounds l (UseGridLayout.cols o)) →
  keepsIds (λ l, compact (UseGridLayout.compactor o) l (UseGridLayout.cols o)) →
  let rename := λ i : string,
    if bool_decide (i = UseGridLayoutDrop.droppingElem)
    then li_i droppingItem else i in
  (∀ st : UseGridLayoutDrop.State DroppingPosition,
     let st1 := UseGridLayoutDrop.onDrop o st droppingItem in
     li_i <$> UseGridLayout.layout (UseGridLayoutDrop.refs st1)
     = rename <$> (li_i <$> UseGridLayout.layout (UseGridLayoutDrop.refs st))
     ∧ UseGridLayoutDrop.droppingPosition st1 = None)
  ∧ (findsById →
     ∀ (st : UseGridLayoutDrop.State DroppingPosition)
       (placeholder : LayoutItem) (p : DroppingPosition),
       li_i placeholder = UseGridLayoutDrop.droppingElem →
       UseGridLayoutDrop.droppingElem
         ∉ li_i <$> UseGridLayout.layout (UseGridLayoutDrop.refs st) →
       let st2 :=
         UseGridLayoutDrop.onDrop o
           (UseGridLayoutDrop.onDropDragOver o st placeholder p)
           droppingItem in
       li_i <$> UseGridLayout.layout (UseGridLayoutDrop.refs st2)
       = (li_i <$> UseGridLayout.layout (UseGridLayoutDrop.refs st))
         ++ [li_i droppingItem]
       ∧ UseGridLayoutDrop.droppingPosition st2 = None
       ∧ UseGridLayoutDrop.isInteracting st2
         = UseGridLayoutDrop.isInteracting
             (UseGridLayoutDrop.mkState (DroppingPosition := DroppingPosition)
                (UseGridLayoutDrop.refs st) None)).
Proof.
  intros Hb Hc rename.
  assert (∀ s : UseGridLayoutDrop.State DroppingPosition,
            li_i <$> UseGridLayout.layout
                       (UseGridLayoutDrop.refs
                          (UseGridLayoutDrop.onDrop o s droppingItem))
            = rename <$> (li_i <$> UseGridLayout.layout (UseGridLayoutDrop.refs s)))
    as Hdrop.
  { intros s. unfold UseGridLayoutDrop.onDrop.
    cbn [UseGridLayoutDrop.refs UseGridLayoutDrop.withLayout UseGridLayout.layout].
    rewrite composable_normalise_ids by done. apply dropped_ids. }
  split; [intros st st1; split; [apply Hdrop | done]|].
  intros Hf st placeholder p Hid Hfresh st2.
  split_and!; [|done|].
  - unfold st2. rewrite Hdrop, onDropDragOver_ids by done.
    rewrite Hid, decide_False by done.
    rewrite fmap_app. simpl. unfold rename at 2.
    rewrite bool_decide_eq_true_2 by done. f_equal.
    rewrite <-(list_fmap_id (li_i <$> _)) at 2.
    apply list_fmap_ext. intros k i Hk. unfold rename.
    rewrite bool_decide_eq_false_2; [done|]. intros ->.
    apply Hfresh. by eapply list_elem_of_lookup_2.
  - unfold st2, UseGridLayoutDrop.isInteracting, UseGridLayoutDrop.onDrop,
      UseGridLayoutDrop.onDropDragOver. simpl.
    by destruct (getLayoutItem _ _).
Qed.
End drop.

Section component_more.
Context `{CoreLayout}.

Lemma component_onDrag_flags (env : GridLayout.Env) (s : GridLayout.State)
  (i : string) (x y : Z) :
  let s' := (GridLayout.onDrag env s i x y).1 in
  GridLayout.isDragging s' = GridLayout.isDragging s
  ∧ (is_Some (GridLayout.activeDrag s) → is_Some (GridLayout.activeDrag s')).
Proof.
  unfold GridLayout.onDrag. destruct (getLayoutItem _ _); simpl; [|done].
  split; [done|]. by eexists.
Qed.

Lemma component_drags_flags (env : GridLayout.Env)
  (moves : list (string * (Z * Z))) : ∀ s : GridLayout.State,
  let s' :=
    foldl (λ s m, (GridLayout.onDrag env s m.1 m.2.1 m.2.2).1) s moves in
  GridLayout.isDragging s' = GridLayout.isDragging s
  ∧ (is_Some (GridLayout.activeDrag s) → is_Some (GridLayout.activeDrag s')).
Proof.
  induction moves as [|m moves IH]; intros s; simpl; [done|].
  destruct (IH (GridLayout.onDrag env s m.1 m.2.1 m.2.2).1) as [-> Ha].
  destruct (component_onDrag_flags env s m.1 m.2.1 m.2.2) as [-> Hb].
  split; [done|]. intros Hs. by apply Ha, Hb.
Qed.

(** X7.  [GridLayout]: from an [onDragStart] that finds its item, through any
    drag updates, the watcher on [props.layout] ignores a new props layout;
    once [onDragStop] has found its item, a props layout that differs from
    the internal one replaces it after [correctBounds] and [compact]. *)
Theorem component_props_sync_waits_for_drag_end
  (env : GridLayout.Env) (st : GridLayout.State) (i : string) (x y : Z)
  (moves : list (string * (Z * Z))) (newLayout : Layout) :
  is_Some (getLayoutItem (GridLayout.internalLayout st) i) →
  let st1 := (GridLayout.onDragStart st i x y).1 in
  let st2 :=
    foldl (λ s m, (GridLayout.onDrag env s m.1 m.2.1 m.2.2).1) st1 moves in
  GridLayout.propsWatcher env st2 newLayout = st2
  ∧ ∀ (j : string) (p : Z * Z),
      is_Some (getLayoutItem (GridLayout.internalLayout st2) j) →
      let st3 := (GridLayout.onDragStop env st2 j p.1 p.2).1 in
      newLayout ≠ GridLayout.internalLayout st3 →
      GridLayout.internalLayout (GridLayout.propsWatcher env st3 newLayout)
      = GridLayout.synchronizeLayout env newLayout.
Proof.
  intros [it Hit] st1 st2.
  destruct (component_drags_flags env moves st1) as [Hd Ha]. fold st2 in Hd, Ha.
  assert (GridLayout.isDragging st1 = true
          ∧ is_Some (GridLayout.activeDrag st1)) as [Hd1 Ha1].
  { unfold st1, GridLayout.onDragStart. rewrite Hit. simpl. split; [done|].
    by eexists. }
  split.
  - unfold GridLayout.propsWatcher. by rewrite Hd, Hd1.
  - intros j p [jt Hj]. destruct (Ha Ha1) as [a Hact].
    unfold GridLayout.onDragStop. rewrite Hact, Hj. simpl. intros Hne.
    unfold GridLayout.propsWatcher, deepEqual. simpl.
    by rewrite bool_decide_eq_false_2.
Qed.

(** X8.  [GridLayout]: whenever [onDragStop], [onResizeStop] or
    [handleKeydown] emits [update:layout], the layout it carries is the
    internal layout after the handler, [layoutChange] is emitted with it as
    well, and that layout coming back as [props.layout] changes nothing. *)
Theorem component_reported_layout_is_current
  (env : GridLayout.Env) (st : GridLayoutContainer.State)
  (i : string) (x y w h : Z) (handle : ResizeHandleAxis) (key : string)
  (r : GridLayoutContainer.State * list GridLayoutContainer.Emit)
  (l : Layout) :
  r ∈ [GridLayoutContainer.onGrid (λ g, GridLayout.onDragStop env g i x y) st;
       GridLayoutContainer.onGrid
         (λ g, GridLayout.onResizeStop env g i w h handle) st;
       GridLayoutContainer.handleKeydown env st key] →
  GridLayoutContainer.emit_grid (GridLayout.emit_update_layout l) ∈ r.2 →
  GridLayout.internalLayout (GridLayoutContainer.grid r.1) = l
  ∧ GridLayoutContainer.emit_grid (GridLayout.emit_layoutChange l) ∈ r.2
  ∧ GridLayout.propsWatcher env (GridLayoutContainer.grid r.1) l
    = GridLayoutContainer.grid r.1.
Proof.
  intros Hr He.
  assert (GridLayout.internalLayout (GridLayoutContainer.grid r.1) = l
          ∧ GridLayoutContainer.emit_grid (GridLayout.emit_layoutChange l) ∈ r.2)
    as [Hl Hc].
  { rewrite !elem_of_cons, elem_of_nil in Hr.
    destruct Hr as [->|[->|[->|[]]]].
    - unfold GridLayoutContainer.onGrid, GridLayout.onDragStop in *.
      destruct (GridLayout.activeDrag _); [|by apply elem_of_nil in He].
      destruct (getLayoutItem _ _); [|by apply elem_of_nil in He].
      simpl in *. destruct (GridLayout.oldLayout _) as [old|]; simpl in *.
      + destruct (negb _); simpl in *.
        * rewrite !elem_of_cons, elem_of_nil in He.
          destruct He as [|[He|[|[]]]]; try done. simplify_eq.
          split; [done|]. rewrite !elem_of_cons. auto.
        * rewrite !elem_of_cons, elem_of_nil in He. by destruct He as [|[]].
      + rewrite !elem_of_cons, elem_of_nil in He. by destruct He as [|[]].
    - unfold GridLayoutContainer.onGrid, GridLayout.onResizeStop in *.
      destruct (getLayoutItem _ _); [|by apply elem_of_nil in He].
      simpl in *. destruct (GridLayout.oldLayout _) as [old|]; simpl in *.
      + destruct (negb _); simpl in *.
        * rewrite !elem_of_cons, elem_of_nil in He.
          destruct He as [|[He|[|[]]]]; try done. simplify_eq.
          split; [done|]. rewrite !elem_of_cons. auto.
        * rewrite !elem_of_cons, elem_of_nil in He. by destruct He as [|[]].
      + rewrite !elem_of_cons, elem_of_nil in He. by destruct He as [|[]].
    - unfold GridLayoutContainer.handleKeydown in *.
      destruct (GridLayoutContainer.selectedItem st) as [sel|];
        [|by apply elem_of_nil in He].
      destruct (_ && _); [|by apply elem_of_nil in He].
      destruct (getLayoutItem _ _); simpl in *.
      + rewrite !elem_of_cons, elem_of_nil in He.
        destruct He as [|[He|[|[|[]]]]]; try done. simplify_eq.
        split; [done|]. rewrite !elem_of_cons. auto.
      + rewrite !elem_of_cons, elem_of_nil in He. by destruct He as [|[]]. }
  split_and!; [done..|].
  unfold GridLayout.propsWatcher, deepEqual. rewrite Hl.
  rewrite bool_decide_eq_true_2 by done. simpl.
  by destruct (GridLayout.isDragging _).
Qed.

(** X9.  [GridLayout]: selecting an item of the layout (whose id is not the
    empty string, which counts as no selection) and pressing Escape removes
    the items of that id and no other, over a compactor that keeps ids; the
    events are [itemSelected], [itemRemove], [update:layout], [layoutChange]
    and [itemSelected null], and afterwards nothing is selected: Escape and
    a click on the container do nothing more. *)
Theorem escape_removes_selected_item
  (env : GridLayout.Env) (st : GridLayoutContainer.State) (i : string)
  (it : LayoutItem) :
  i ≠ ""%string →
  getLayoutItem (GridLayout.internalLayout (GridLayoutContainer.grid st)) i
  = Some it →
  keepsIds (λ l, compact (GridLayout.effectiveCompactor env) l
                   (GridLayout.gridConfig_cols env)) →
  let r1 := GridLayoutContainer.onItemSelect st i in
  let r2 := GridLayoutContainer.handleKeydown env r1.1 "Escape" in
  let l' := GridLayout.internalLayout (GridLayoutContainer.grid r2.1) in
  li_i <$> l'
  = filter (λ j, j ≠ i)
      (li_i <$> GridLayout.internalLayout (GridLayoutContainer.grid st))
  ∧ (i ∉ li_i <$> l')
  ∧ GridLayoutContainer.selectedItem r2.1 = None
  ∧ r1.2 ++ r2.2
    = [GridLayoutContainer.emit_itemSelected (Some i);
       GridLayoutContainer.emit_itemRemove i it;
       GridLayoutContainer.emit_grid (GridLayout.emit_update_layout l');
       GridLayoutContainer.emit_grid (GridLayout.emit_layoutChange l');
       GridLayoutContainer.emit_itemSelected None]
  ∧ GridLayoutContainer.handleKeydown env r2.1 "Escape" = (r2.1, [])
  ∧ GridLayoutContainer.clearSelection r2.1 = (r2.1, [])
  ∧ GridLayoutContainer.clearSelection r1.1
    = (GridLayoutContainer.mkState (GridLayoutContainer.grid st) None
         (GridLayoutContainer.dragEnterCounter st),
       [GridLayoutContainer.emit_itemSelected None]).
Proof.
  intros Hne Hit Hc r1 r2 l'.
  unfold l', r2, r1, GridLayoutContainer.onItemSelect,
    GridLayoutContainer.handleKeydown.
  cbn [fst snd GridLayoutContainer.selectedItem GridLayoutContainer.grid].
  rewrite (bool_decide_eq_true_2 ("Escape" = "Escape")%string) by done.
  rewrite (bool_decide_eq_false_2 (i = ""%string)) by done.
  cbn [negb andb]. rewrite Hit.
  cbn [fst snd GridLayoutContainer.selectedItem GridLayoutContainer.grid
         GridLayoutContainer.withInternalLayout GridLayout.internalLayout].
  assert (li_i <$> compact (GridLayout.effectiveCompactor env)
                     (filter (λ l, li_i l ≠ i)
                        (GridLayout.internalLayout (GridLayoutContainer.grid st)))
                     (GridLayout.gridConfig_cols env)
          = filter (λ j, j ≠ i)
              (li_i <$> GridLayout.internalLayout (GridLayoutContainer.grid st)))
    as Hids.
  { rewrite (Hc _). apply filter_ids. }
  split_and!; try done.
  rewrite Hids. intros Hin. apply list_elem_of_filter in Hin. by destruct Hin.
Qed.

Lemma depth_snoc (c : Z) (events : list GridLayoutContainer.DragEvent)
  (e : GridLayoutContainer.DragEvent) :
  GridLayoutContainer.depth c (events ++ [e])
  = GridLayoutContainer.depth (GridLayoutContainer.depth c events) [e].
Proof. unfold GridLayoutContainer.depth. by rewrite foldl_app. Qed.

Lemma drag_events_inv (events : list GridLayoutContainer.DragEvent)
  (st : GridLayoutContainer.State) :
  let st' := foldl (GridLayoutContainer.onDragEvent true) st events in
  let removed :=
    GridLayoutContainer.withInternalLayout (GridLayoutContainer.grid st)
      (filter (λ it, li_i it ≠ UseGridLayoutDrop.droppingElem)
         (GridLayout.internalLayout (GridLayoutContainer.grid st))) in
  GridLayoutContainer.dragEnterCounter st'
  = GridLayoutContainer.depth (GridLayoutContainer.dragEnterCounter st) events
  ∧ GridLayoutContainer.selectedItem st' = GridLayoutContainer.selectedItem st
  ∧ (GridLayoutContainer.grid st' = GridLayoutContainer.grid st
     ∨ GridLayoutContainer.grid st' = removed).
Proof.
  induction events as [|e events IH] using rev_ind; [simpl; auto|].
  simpl in *. rewrite foldl_app, depth_snoc. simpl.
  destruct IH as (Hc & Hs & Hg).
  set (s := foldl (GridLayoutContainer.onDragEvent true) st events) in *.
  destruct e; simpl;
    unfold GridLayoutContainer.handleDragEnter, GridLayoutContainer.handleDragLeave,
      GridLayoutContainer.handleDragOver, GridLayoutContainer.handleDrop; simpl;
    rewrite <-?Hc; try done.
  case_bool_decide; simpl; [|done].
  split_and!; [done..|]. right.
  destruct Hg as [->| ->]; [done|].
  unfold GridLayoutContainer.withInternalLayout. simpl. by rewrite filter_twice.
Qed.

(** X10.  [GridLayout], drop enabled: [dragEnterCounter] is the excess of
    [dragenter] over [dragleave] events since the last [drop]; as long as it
    never comes back to zero the layout is untouched, and the [dragleave]
    that brings it to zero leaves the layout without the placeholder
    "__dropping-elem__", the other items in their order.  With drop disabled
    the events change nothing. *)
Theorem drop_placeholder_leaves_with_the_pointer
  (events : list GridLayoutContainer.DragEvent) (st : GridLayoutContainer.State) :
  let run := foldl (GridLayoutContainer.onDragEvent true) in
  let c := GridLayoutContainer.dragEnterCounter st in
  GridLayoutContainer.dragEnterCounter (run st events)
  = GridLayoutContainer.depth c events
  ∧ ((∀ k, (0 < k ≤ length events)%nat →
           GridLayoutContainer.depth c (take k events) ≠ 0) →
     GridLayoutContainer.grid (run st events) = GridLayoutContainer.grid st)
  ∧ (∀ before,
       events = before ++ [GridLayoutContainer.dragleave] →
       GridLayoutContainer.depth c events = 0 →
       GridLayout.internalLayout (GridLayoutContainer.grid (run st events))
       = filter (λ it, li_i it ≠ UseGridLayoutDrop.droppingElem)
           (GridLayout.internalLayout (GridLayoutContainer.grid st)))
  ∧ foldl (GridLayoutContainer.onDragEvent false) st events = st.
Proof.
  intros run c. split_and!.
  - apply drag_events_inv.
  - unfold run. induction events as [|e events IH] using rev_ind; [done|].
    intros Hpos. rewrite foldl_app. simpl.
    assert (GridLayoutContainer.grid
              (foldl (GridLayoutContainer.onDragEvent true) st events)
            = GridLayoutContainer.grid st) as Hg.
    { apply IH. intros k Hk. specialize (Hpos k).
      rewrite length_app in Hpos. simpl in Hpos.
      rewrite take_app_le in Hpos by lia. apply Hpos. lia. }
    specialize (Hpos (length (events ++ [e]))).
    rewrite firstn_all, depth_snoc in Hpos.
    rewrite length_app in Hpos. simpl in Hpos.
    destruct (drag_events_inv events st) as (Hc & _ & _). simpl in Hc.
    fold c in Hc. rewrite <-Hc in Hpos.
    destruct e; simpl;
      unfold GridLayoutContainer.handleDragEnter,
        GridLayoutContainer.handleDragLeave, GridLayoutContainer.handleDragOver,
        GridLayoutContainer.handleDrop; simpl; try done.
    rewrite bool_decide_eq_false_2; [done|].
    simpl in Hpos. intros Hz. apply Hpos; lia.
  - intros before -> Hz. unfold run. rewrite foldl_app. simpl.
    rewrite depth_snoc in Hz. simpl in Hz.
    destruct (drag_events_inv before st) as (Hc & _ & Hg). simpl in Hc, Hg.
    fold c in Hc. unfold GridLayoutContainer.handleDragLeave. simpl.
    rewrite Hc, bool_decide_eq_true_2 by done. simpl.
    destruct Hg as [->| ->]; [done|]. simpl. apply filter_twice.
  - induction events as [|e events IH] using rev_ind; [done|].
    rewrite foldl_app, IH. by destruct e.
Qed.
End component_more.

Section responsive_more.
Context `{CoreLayout} `{CoreResponsive}.

Lemma responsive_watcher_same
  (s : ResponsiveGridLayout.State) (props : ResponsiveGridLayout.Props) :
  ResponsiveGridLayout.prevWidth s = ResponsiveGridLayout.width props →
  ResponsiveGridLayout.prevBreakpointProp s
  = ResponsiveGridLayout.breakpoint props →
  ResponsiveGridLayout.prevBreakpoints s
  = ResponsiveGridLayout.breakpoints props →
  ResponsiveGridLayout.prevColsConfig s = ResponsiveGridLayout.cols props →
  ResponsiveGridLayout.widthWatcher s props = (s, []).
Proof.
  intros Hw Hb Hbs Hc. unfold ResponsiveGridLayout.widthWatcher, deepEqual.
  cbv zeta. rewrite Hw, Hb, Hbs, Hc.
  rewrite (bool_decide_eq_false_2
             (ResponsiveGridLayout.width props ≠ ResponsiveGridLayout.width props)),
    (bool_decide_eq_false_2
       (ResponsiveGridLayout.breakpoint props
        ≠ ResponsiveGridLayout.breakpoint props))
    by (intros Hne; by apply Hne).
  rewrite !bool_decide_eq_true_2 by done. done.
Qed.

(** X11.  [ResponsiveGridLayout]: the watcher on width, breakpoint,
    breakpoints and cols records the props it has seen; run again on the same
    props it changes nothing and emits nothing. *)
Theorem responsive_watcher_settles
  (st : ResponsiveGridLayout.State) (props : ResponsiveGridLayout.Props) :
  let r := ResponsiveGridLayout.widthWatcher st props in
  ResponsiveGridLayout.widthWatcher r.1 props = (r.1, []).
Proof.
  simpl. destruct (ResponsiveGridLayout.widthWatcher st props) as [s' es] eqn:Hr.
  simpl. unfold ResponsiveGridLayout.widthWatcher in Hr. cbv zeta in Hr.
  destruct (_ || _ || _ || _) eqn:Hfire in Hr.
  - destruct (_ || _ || _) in Hr; simplify_eq; by apply responsive_watcher_same.
  - simplify_eq. unfold ResponsiveGridLayout.widthWatcher. cbv zeta.
    by rewrite Hfire.
Qed.

(** X12.  [ResponsiveGridLayout]: a run of the width watcher never drops or
    alters the stored layout of a breakpoint other than the one it switches
    to; the only layout it may add there is a copy of the current layout
    under the breakpoint it leaves. *)
Theorem responsive_watcher_keeps_other_breakpoints
  (st : ResponsiveGridLayout.State) (props : ResponsiveGridLayout.Props)
  (bp : string) :
  let st' := (ResponsiveGridLayout.widthWatcher st props).1 in
  bp ≠ ResponsiveGridLayout.currentBreakpoint st' →
  (is_Some (ResponsiveGridLayout.internalLayouts st !! bp) →
   ResponsiveGridLayout.internalLayouts st' !! bp
   = ResponsiveGridLayout.internalLayouts st !! bp)
  ∧ (ResponsiveGridLayout.internalLayouts st !! bp = None →
     ResponsiveGridLayout.internalLayouts st' !! bp = None
     ∨ (bp = ResponsiveGridLayout.currentBreakpoint st
        ∧ ResponsiveGridLayout.internalLayouts st' !! bp
          = Some (cloneLayout (ResponsiveGridLayout.currentLayout st)))).
Proof.
  simpl. unfold ResponsiveGridLayout.widthWatcher. cbv zeta.
  destruct (_ || _ || _ || _); [|simpl; auto].
  destruct (_ || _ || _); [|simpl; auto].
  simpl. intros Hne. rewrite lookup_insert_ne by done.
  unfold ResponsiveGridLayout.preserved.
  destruct (ResponsiveGridLayout.internalLayouts st
              !! ResponsiveGridLayout.currentBreakpoint st) as [cur|] eqn:Hcur.
  - auto.
  - destruct (decide (bp = ResponsiveGridLayout.currentBreakpoint st)) as [->|Hb].
    + rewrite lookup_insert_eq. split; [rewrite Hcur; by intros [? ?]|auto].
    + rewrite lookup_insert_ne by done. auto.
Qed.

Lemma responsive_step_layoutChange (st : ResponsiveGridLayoutWatchers.State)
  (e : ResponsiveGridLayoutWatchers.Event) (l : Layout) (ls : ResponsiveLayouts) :
  let r := ResponsiveGridLayoutWatchers.step st e in
  let s' := ResponsiveGridLayoutWatchers.responsive r.1 in
  ResponsiveGridLayout.emit_layoutChange l ls ∈ r.2 →
  ResponsiveGridLayout.currentLayout s' = l
  ∧ ResponsiveGridLayout.internalLayouts s' = ls
  ∧ ResponsiveGridLayoutWatchers.stored s'
  ∧ ResponsiveGridLayout.emit_update_layouts ls ∈ r.2.
Proof.
  simpl. unfold ResponsiveGridLayoutWatchers.stored.
  destruct e as [props|props newLayouts|props|newLayout]; simpl.
  - unfold ResponsiveGridLayout.widthWatcher. cbv zeta.
    destruct (_ || _ || _ || _); [|by intros ?%elem_of_nil].
    destruct (_ || _ || _); simpl.
    + rewrite !elem_of_cons, elem_of_nil. intros [|[He|[|[|[]]]]]; try done.
      simplify_eq. split_and!; try done; [apply lookup_insert_eq|auto].
    + rewrite !elem_of_cons, elem_of_nil. by intros [|[]].
  - by intros ?%elem_of_nil.
  - unfold ResponsiveGridLayoutWatchers.compactTypeWatcher.
    case_bool_decide; simpl; [|by intros ?%elem_of_nil].
    rewrite !elem_of_cons, elem_of_nil. intros [He|[|[]]]; try done.
    simplify_eq. split_and!; try done; [apply lookup_insert_eq|auto].
  - rewrite !elem_of_cons, elem_of_nil. intros [He|[|[]]]; try done.
    simplify_eq. split_and!; try done; [apply lookup_insert_eq|auto].
Qed.

(** X13.  [ResponsiveGridLayout]: whichever watcher or handler emits
    [layoutChange], the event carries the current layout and the stored
    layouts, the layout is the one stored under the current breakpoint,
    [update:layouts] is emitted with the same layouts, and these layouts
    coming back as [props.layouts] change nothing. *)
Theorem responsive_layout_change_reports_state
  (st : ResponsiveGridLayoutWatchers.State)
  (e : ResponsiveGridLayoutWatchers.Event) (l : Layout) (ls : ResponsiveLayouts)
  (props : ResponsiveGridLayout.Props) :
  let r := ResponsiveGridLayoutWatchers.step st e in
  let s' := ResponsiveGridLayoutWatchers.responsive r.1 in
  ResponsiveGridLayout.emit_layoutChange l ls ∈ r.2 →
  ResponsiveGridLayout.currentLayout s' = l
  ∧ ResponsiveGridLayout.internalLayouts s' = ls
  ∧ ls !! ResponsiveGridLayout.currentBreakpoint s' = Some l
  ∧ ResponsiveGridLayout.emit_update_layouts ls ∈ r.2
  ∧ ResponsiveGridLayoutWatchers.layoutsWatcher s' props ls = s'.
Proof.
  intros r s' He.
  destruct (responsive_step_layoutChange st e l ls He) as (Hl & Hls & Hst & Hu).
  fold r s' in Hl, Hls, Hst, Hu.
  unfold ResponsiveGridLayoutWatchers.stored in Hst.
  split_and!; try done.
  - by rewrite <-Hls, <-Hl.
  - unfold ResponsiveGridLayoutWatchers.layoutsWatcher, deepEqual.
    by rewrite Hls, bool_decide_eq_true_2.
Qed.

Lemma responsive_step_stored (st : ResponsiveGridLayoutWatchers.State)
  (e : ResponsiveGridLayoutWatchers.Event) :
  ResponsiveGridLayoutWatchers.isLayoutsChanged e = false →
  ResponsiveGridLayoutWatchers.stored
    (ResponsiveGridLayoutWatchers.responsive st) →
  ResponsiveGridLayoutWatchers.stored
    (ResponsiveGridLayoutWatchers.responsive
       (ResponsiveGridLayoutWatchers.step st e).1).
Proof.
  unfold ResponsiveGridLayoutWatchers.stored.
  destruct e as [props|props newLayouts|props|newLayout]; simpl; try done;
    intros _ Hst.
  - unfold ResponsiveGridLayout.widthWatcher. cbv zeta.
    destruct (_ || _ || _ || _); [|done].
    destruct (_ || _ || _); simpl; [apply lookup_insert_eq|done].
  - unfold ResponsiveGridLayoutWatchers.compactTypeWatcher.
    case_bool_decide; simpl; [apply lookup_insert_eq|done].
  - apply lookup_insert_eq.
Qed.

(** X14.  [ResponsiveGridLayout]: once the current layout is the one stored
    under the current breakpoint, it stays so through the width watcher, the
    watcher on the compactor type and the layouts reported by the child (the
    watcher on [props.layouts] apart). *)
Theorem responsive_current_layout_stays_stored
  (st : ResponsiveGridLayoutWatchers.State)
  (events : list ResponsiveGridLayoutWatchers.Event) :
  ResponsiveGridLayoutWatchers.stored
    (ResponsiveGridLayoutWatchers.responsive st) →
  Forall (λ e, ResponsiveGridLayoutWatchers.isLayoutsChanged e = false) events →
  ResponsiveGridLayoutWatchers.stored
    (ResponsiveGridLayoutWatchers.responsive
       (ResponsiveGridLayoutWatchers.run st events)).
Proof.
  intros Hst Hev. revert st Hst.
  induction Hev as [|e events He _ IH]; intros st Hst; [done|].
  simpl. apply IH. by apply responsive_step_stored.
Qed.

Lemma responsive_step_inSync (st : ResponsiveGridLayoutWatchers.State)
  (e : ResponsiveGridLayoutWatchers.Event) :
  ResponsiveGridLayoutWatchers.inSync
    (ResponsiveGridLayoutWatchers.responsive st) →
  ResponsiveGridLayoutWatchers.inSync
    (ResponsiveGridLayoutWatchers.responsive
       (ResponsiveGridLayoutWatchers.step st e).1).
Proof.
  unfold ResponsiveGridLayoutWatchers.inSync.
  destruct e as [props|props newLayouts|props|newLayout]; simpl; try done.
  - intros [Hb Hc]. unfold ResponsiveGridLayout.widthWatcher, deepEqual.
    cbv zeta.
    destruct (_ || _ || _ || _) eqn:Hfire; [|done].
    destruct (bool_decide (ResponsiveGridLayout.currentBreakpoint st.(ResponsiveGridLayoutWatchers.responsive) ≠ _)) eqn:Hbp;
      simpl; [by destruct (ResponsiveGridLayout.breakpoint props)|].
    apply bool_decide_eq_false in Hbp. apply dec_stable in Hbp.
    destruct (negb (bool_decide (ResponsiveGridLayout.breakpoints props = _)))
      eqn:Hbs; simpl; [by destruct (ResponsiveGridLayout.breakpoint props)|].
    destruct (negb (bool_decide (ResponsiveGridLayout.cols props = _)))
      eqn:Hcs; simpl; [by destruct (ResponsiveGridLayout.breakpoint props)|].
    apply negb_false_iff, bool_decide_eq_true in Hcs.
    split.
    + rewrite Hbp. by destruct (ResponsiveGridLayout.breakpoint props).
    + by rewrite Hcs.
  - intros Hs. unfold ResponsiveGridLayoutWatchers.layoutsWatcher.
    by destruct (negb _).
  - intros Hs. unfold ResponsiveGridLayoutWatchers.compactTypeWatcher.
    by case_bool_decide.
Qed.

(** X15.  [ResponsiveGridLayout]: from the setup on, through all watchers and
    handlers, the current breakpoint is the [breakpoint] prop the width
    watcher saw last or, without one, the breakpoint of the width and
    breakpoints it saw last, and the current column count is the one of that
    breakpoint. *)
Theorem responsive_breakpoint_in_sync
  (props : ResponsiveGridLayout.Props) (propsLayouts : ResponsiveLayouts)
  (initialLayout : Layout) (events : list ResponsiveGridLayoutWatchers.Event) :
  ResponsiveGridLayoutWatchers.inSync
    (ResponsiveGridLayoutWatchers.responsive
       (ResponsiveGridLayoutWatchers.run
          (ResponsiveGridLayoutWatchers.setup props propsLayouts initialLayout)
          events)).
Proof.
  assert (ResponsiveGridLayoutWatchers.inSync
            (ResponsiveGridLayoutWatchers.responsive
               (ResponsiveGridLayoutWatchers.setup props propsLayouts
                  initialLayout))) as Hinit.
  { split; simpl; [|done].
    unfold ResponsiveGridLayoutWatchers.getInitialBreakpoint.
    by destruct (ResponsiveGridLayout.breakpoint props). }
  revert Hinit. generalize (ResponsiveGridLayoutWatchers.setup props propsLayouts
                              initialLayout).
  induction events as [|e events IH]; intros st Hst; [done|].
  simpl. apply IH. by apply responsive_step_inSync.
Qed.
End responsive_more.

Section responsive_wiring.
Context `{CoreLayout} `{CoreResponsive}.

Lemma responsive_reports_twice (st : ResponsiveGridLayout.State)
  (e0 : GridLayout.Emit) (l : Layout) :
  (∃ n la a b p, e0 = GridLayout.emit_callback n la a b p) →
  let ls :=
    <[ResponsiveGridLayout.currentBreakpoint st := l]>
      (ResponsiveGridLayout.internalLayouts st) in
  let r' :=
    ResponsiveGridLayoutWatchers.onGridLayoutEmits st
      [e0; GridLayout.emit_update_layout l; GridLayout.emit_layoutChange l] in
  ResponsiveGridLayout.currentLayout r'.1 = l
  ∧ ResponsiveGridLayout.internalLayouts r'.1 = ls
  ∧ r'.2
    = [ResponsiveGridLayoutWatchers.forwarded e0;
       ResponsiveGridLayoutWatchers.own
         (ResponsiveGridLayout.emit_layoutChange l ls);
       ResponsiveGridLayoutWatchers.own
         (ResponsiveGridLayout.emit_update_layouts ls);
       ResponsiveGridLayoutWatchers.own
         (ResponsiveGridLayout.emit_layoutChange l ls);
       ResponsiveGridLayoutWatchers.own
         (ResponsiveGridLayout.emit_update_layouts ls)].
Proof.
  intros (n & la & a & b & p & ->). simpl.
  by rewrite !insert_insert_eq.
Qed.

Lemma responsive_forwards_only (st : ResponsiveGridLayout.State)
  (e0 : GridLayout.Emit) :
  (∃ n la a b p, e0 = GridLayout.emit_callback n la a b p) →
  ResponsiveGridLayoutWatchers.onGridLayoutEmits st [e0]
  = (st, [ResponsiveGridLayoutWatchers.forwarded e0]).
Proof. by intros (n & la & a & b & p & ->). Qed.

(** X16.  [ResponsiveGridLayout]: the template binds [update:layout] and
    [layoutChange] of the child to [handleLayoutChange].  After a drag or
    resize stop of the child that reports a changed layout, the current
    layout is the internal layout of the child, stored under the current
    breakpoint, and [layoutChange] and [update:layouts] have been emitted
    twice each; a stop that reports nothing leaves the state alone and is
    forwarded only. *)
Theorem responsive_adopts_reported_layout
  (env : GridLayout.Env) (g : GridLayout.State)
  (st : ResponsiveGridLayout.State)
  (i : string) (x y w h : Z) (handle : ResizeHandleAxis)
  (r : GridLayout.State * list GridLayout.Emit) :
  r ∈ [GridLayout.onDragStop env g i x y;
       GridLayout.onResizeStop env g i w h handle] →
  let l := GridLayout.internalLayout r.1 in
  let ls :=
    <[ResponsiveGridLayout.currentBreakpoint st := l]>
      (ResponsiveGridLayout.internalLayouts st) in
  let r' := ResponsiveGridLayoutWatchers.onGridLayoutEmits st r.2 in
  (GridLayout.emit_update_layout l ∈ r.2 →
   ResponsiveGridLayout.currentLayout r'.1 = l
   ∧ ResponsiveGridLayout.internalLayouts r'.1 = ls
   ∧ ∃ e0,
       r'.2
       = [ResponsiveGridLayoutWatchers.forwarded e0;
          ResponsiveGridLayoutWatchers.own
            (ResponsiveGridLayout.emit_layoutChange l ls);
          ResponsiveGridLayoutWatchers.own
            (ResponsiveGridLayout.emit_update_layouts ls);
          ResponsiveGridLayoutWatchers.own
            (ResponsiveGridLayout.emit_layoutChange l ls);
          ResponsiveGridLayoutWatchers.own
            (ResponsiveGridLayout.emit_update_layouts ls)])
  ∧ (GridLayout.emit_update_layout l ∉ r.2 →
     r'.1 = st
     ∧ r'.2 = ResponsiveGridLayoutWatchers.forwarded <$> r.2).
Proof.
  intros Hr.
  assert (r.2 = []
          ∨ (∃ e0, (∃ n la a b p, e0 = GridLayout.emit_callback n la a b p)
                   ∧ (r.2 = [e0]
                      ∨ r.2 = [e0;
                               GridLayout.emit_update_layout
                                 (GridLayout.internalLayout r.1);
                               GridLayout.emit_layoutChange
                                 (GridLayout.internalLayout r.1)])))
    as Hshape.
  { rewrite !elem_of_cons, elem_of_nil in Hr. destruct Hr as [->|[->|[]]].
    - unfold GridLayout.onDragStop.
      destruct (GridLayout.activeDrag g); [|by left].
      destruct (getLayoutItem _ _); [|by left].
      right. eexists. split; [by repeat eexists|]. simpl.
      destruct (GridLayout.oldLayout g); [destruct (negb _)|]; auto.
    - unfold GridLayout.onResizeStop.
      destruct (getLayoutItem _ _); [|by left].
      right. eexists. split; [by repeat eexists|]. simpl.
      destruct (GridLayout.oldLayout g); [destruct (negb _)|]; auto. }
  intros l ls r'. unfold r'.
  destruct Hshape as [->|(e0 & He0 & [-> | ->])].
  - split; [by intros ?%elem_of_nil|done].
  - split.
    + intros Hin. apply list_elem_of_singleton in Hin.
      destruct He0 as (n & la & a & b & p & ->). done.
    + intros _. by rewrite responsive_forwards_only.
  - fold l. split.
    + intros _.
      destruct (responsive_reports_twice st e0 l He0) as (Hl & Hls & Hes).
      split_and!; [done..|]. by exists e0.
    + intros Hn. destruct Hn. rewrite !elem_of_cons. auto.
Qed.
End responsive_wiring.

Section composable_responsive.
Context `{CoreLayout} `{CoreResponsive}.

(** X17.  [useResponsiveLayout]: the width watcher records the width it has
    seen; run again on it, it changes nothing and calls no callback. *)
Theorem composable_width_watcher_settles
  (o : UseResponsiveLayout.Options) (st : UseResponsiveLayout.State)
  (newWidth : Z) :
  let r := UseResponsiveLayout.widthWatcher o st newWidth in
  UseResponsiveLayout.prevWidth r.1 = newWidth
  ∧ UseResponsiveLayout.widthWatcher o r.1 newWidth = (r.1, []).
Proof.
  simpl. unfold UseResponsiveLayout.widthWatcher.
  case_bool_decide as Hw; simpl.
  - by rewrite bool_decide_eq_true_2.
  - case_bool_decide; simpl; by rewrite bool_decide_eq_true_2.
Qed.

Lemma composable_responsive_step (o : UseResponsiveLayout.Options)
  (st : UseResponsiveLayout.State) (e : UseResponsiveLayoutSetup.Event) :
  let inv := λ s : UseResponsiveLayout.State,
    UseResponsiveLayout.breakpoint s
    = getBreakpointFromWidth (UseResponsiveLayout.breakpoints o)
        (UseResponsiveLayout.prevWidth s)
    ∧ UseResponsiveLayout.cols s
      = getColsFromBreakpoint (UseResponsiveLayout.breakpoint s)
          (UseResponsiveLayout.colsConfig o)
    ∧ UseResponsiveLayout.prevBreakpoint s = UseResponsiveLayout.breakpoint s in
  inv st → inv (UseResponsiveLayoutSetup.step o st e).
Proof.
  simpl. intros (Hb & Hc & Hp). destruct e as [newWidth|bp l|ls]; simpl;
    [|done..].
  unfold UseResponsiveLayout.widthWatcher.
  case_bool_decide as Hw; simpl; [done|].
  case_bool_decide as Hn; simpl; [done|].
  by rewrite Hn.
Qed.

(** X18.  [useResponsiveLayout]: from the setup on, through the width watcher
    and both setters, the breakpoint is the one of the width seen last, the
    column count is the one of the breakpoint, and [prevBreakpoint] is the
    breakpoint: the computed [layout] always asks
    [findOrGenerateResponsiveLayout] with the breakpoint as the last
    breakpoint. *)
Theorem composable_breakpoint_follows_width
  (o : UseResponsiveLayout.Options) (sortedBreakpoints : list string)
  (width : Z) (propsLayouts : ResponsiveLayouts)
  (events : list UseResponsiveLayoutSetup.Event) :
  let st :=
    UseResponsiveLayoutSetup.run o
      (UseResponsiveLayoutSetup.setup o sortedBreakpoints width propsLayouts)
      events in
  UseResponsiveLayout.breakpoint st
  = getBreakpointFromWidth (UseResponsiveLayout.breakpoints o)
      (UseResponsiveLayout.prevWidth st)
  ∧ UseResponsiveLayout.cols st
    = getColsFromBreakpoint (UseResponsiveLayout.breakpoint st)
        (UseResponsiveLayout.colsConfig o)
  ∧ UseResponsiveLayout.prevBreakpoint st = UseResponsiveLayout.breakpoint st
  ∧ UseResponsiveLayout.layout o st
    = findOrGenerateResponsiveLayout (UseResponsiveLayout.layouts st)
        (UseResponsiveLayout.breakpoints o) (UseResponsiveLayout.breakpoint st)
        (UseResponsiveLayout.breakpoint st) (UseResponsiveLayout.cols st)
        (UseResponsiveLayout.compactor o).
Proof.
  cbv zeta.
  set (inv := λ s : UseResponsiveLayout.State,
    UseResponsiveLayout.breakpoint s
    = getBreakpointFromWidth (UseResponsiveLayout.breakpoints o)
        (UseResponsiveLayout.prevWidth s)
    ∧ UseResponsiveLayout.cols s
      = getColsFromBreakpoint (UseResponsiveLayout.breakpoint s)
          (UseResponsiveLayout.colsConfig o)
    ∧ UseResponsiveLayout.prevBreakpoint s = UseResponsiveLayout.breakpoint s).
  assert (inv (UseResponsiveLayoutSetup.run o
                 (UseResponsiveLayoutSetup.setup o sortedBreakpoints width
                    propsLayouts) events)) as (Hb & Hc & Hp).
  { assert (inv (UseResponsiveLayoutSetup.setup o sortedBreakpoints width
                   propsLayouts)) as Hinit by done.
    revert Hinit.
    generalize (UseResponsiveLayoutSetup.setup o sortedBreakpoints width
                  propsLayouts).
    induction events as [|e events IH]; intros st Hst; [done|].
    simpl. apply IH. by apply composable_responsive_step. }
  split_and!; try done.
  unfold UseResponsiveLayout.layout. by rewrite Hp.
Qed.

(** X19.  [useResponsiveLayout]: [initializeLayouts] stores a copy of the
    layout given for a name when the name is among the sorted breakpoints,
    and nothing for any other name. *)
Theorem initializeLayouts_keeps_breakpoints_only
  (sortedBreakpoints : list string) (propsLayouts : ResponsiveLayouts)
  (bp : string) :
  UseResponsiveLayoutSetup.initializeLayouts sortedBreakpoints propsLayouts !! bp
  = if decide (bp ∈ sortedBreakpoints)
    then cloneLayout <$> propsLayouts !! bp
    else None.
Proof.
  unfold UseResponsiveLayoutSetup.initializeLayouts.
  assert (∀ (l : list string) (acc : ResponsiveLayouts),
            foldl (λ cloned b,
                     match propsLayouts !! b with
                     | Some layout => <[b := cloneLayout layout]> cloned
                     | None => cloned
                     end) acc l !! bp
            = if decide (bp ∈ l)
              then match propsLayouts !! bp with
                   | Some layout => Some (cloneLayout layout)
                   | None => acc !! bp
                   end
              else acc !! bp) as Hgen.
  { induction l as [|b l IH]; intros acc; cbn [foldl].
    - rewrite decide_False; [done|]. apply not_elem_of_nil.
    - rewrite IH.
      destruct (decide (bp ∈ b :: l)) as [Hin|Hnin];
        destruct (decide (bp ∈ l)) as [Hin'|Hnin']; try done.
      + destruct (propsLayouts !! bp) as [layout|] eqn:Hl; [done|].
        destruct (propsLayouts !! b) as [lb|] eqn:Hb; [|done].
        rewrite lookup_insert_ne; [done|]. intros ->. by rewrite Hl in Hb.
      + apply elem_of_cons in Hin as [->|]; [|done].
        destruct (propsLayouts !! b) as [lb|] eqn:Hb; [|done].
        by rewrite lookup_insert_eq.
      + destruct Hnin. by right.
      + destruct (propsLayouts !! b) as [lb|] eqn:Hb; [|done].
        rewrite lookup_insert_ne; [done|]. intros ->. destruct Hnin. by left. }
  rewrite Hgen. case_decide; [|done].
  rewrite lookup_empty. by destruct (propsLayouts !! bp).
Qed.
End composable_responsive.

(* ------------------------------------------------------------------ *)
(** * The width of the container *)
(* ------------------------------------------------------------------ *)

Lemma container_frames_run (fs : list (nat * Z)) (s : UseContainerWidth.State) :
  foldl (λ s f, UseContainerWidth.frameCallback s f.2) s fs
  = match last fs with
    | Some f =>
        UseContainerWidth.mkState f.2 (UseContainerWidth.mounted s)
          (UseContainerWidth.observer s) None (UseContainerWidth.frames s)
          (UseContainerWidth.nextFrameId s)
    | None => s
    end.
Proof.
  induction fs as [|f fs IH] using rev_ind; [done|].
  rewrite foldl_app, last_snoc, IH. simpl.
  unfold UseContainerWidth.frameCallback. by destruct (last fs).
Qed.

Lemma container_animationFrame (st : UseContainerWidth.State) :
  UseContainerWidth.animationFrame st
  = match last (UseContainerWidth.frames st) with
    | Some f =>
        UseContainerWidth.mkState f.2 (UseContainerWidth.mounted st)
          (UseContainerWidth.observer st) None []
          (UseContainerWidth.nextFrameId st)
    | None =>
        UseContainerWidth.mkState (UseContainerWidth.width st)
          (UseContainerWidth.mounted st) (UseContainerWidth.observer st)
          (UseContainerWidth.rafId st) [] (UseContainerWidth.nextFrameId st)
    end.
Proof.
  unfold UseContainerWidth.animationFrame. rewrite container_frames_run.
  by destruct (last _).
Qed.

Lemma container_step_onePending (st : UseContainerWidth.State)
  (e : UseContainerWidth.Event) :
  UseContainerWidth.onePending st →
  UseContainerWidth.onePending (UseContainerWidth.step st e).
Proof.
  unfold UseContainerWidth.onePending. intros Hp.
  destruct e as [[w|]|[|w entries]|]; simpl; try done.
  - unfold UseContainerWidth.notify. by destruct (UseContainerWidth.observer st).
  - unfold UseContainerWidth.notify.
    destruct (UseContainerWidth.observer st); [|done]. simpl.
    destruct (UseContainerWidth.rafId st) as [id|]; simpl.
    + destruct Hp as [w0 ->].
      rewrite filter_cons_False; [|simpl; intros Hn; by apply Hn].
      rewrite filter_nil. simpl. by eexists.
    + rewrite Hp. simpl. by eexists.
  - rewrite container_animationFrame.
    destruct (UseContainerWidth.rafId st) as [id|]; simpl.
    + by destruct Hp as [w0 ->].
    + by rewrite Hp.
Qed.

Lemma container_run_onePending (events : list UseContainerWidth.Event) :
  ∀ st : UseContainerWidth.State,
  UseContainerWidth.onePending st →
  UseContainerWidth.onePending (UseContainerWidth.run st events).
Proof.
  induction events as [|e events IH]; intros st Hp; [done|].
  simpl. apply IH. by apply container_step_onePending.
Qed.

Lemma container_step_flags (st : UseContainerWidth.State)
  (e : UseContainerWidth.Event) :
  UseContainerWidth.observer (UseContainerWidth.step st e)
  = UseContainerWidth.observer st
  ∧ UseContainerWidth.mounted (UseContainerWidth.step st e)
    = UseContainerWidth.mounted st || UseContainerWidth.measures e.
Proof.
  destruct e as [[w|]|[|w entries]|]; simpl; rewrite ?orb_false_r; try done.
  - by destruct (UseContainerWidth.mounted st).
  - unfold UseContainerWidth.notify.
    by destruct (UseContainerWidth.observer st) eqn:Ho.
  - unfold UseContainerWidth.notify.
    destruct (UseContainerWidth.observer st) eqn:Ho; [|done]. simpl.
    by destruct (UseContainerWidth.rafId st).
  - rewrite container_animationFrame. by destruct (last _).
Qed.

Lemma container_run_flags (events : list UseContainerWidth.Event) :
  ∀ st : UseContainerWidth.State,
  UseContainerWidth.observer (UseContainerWidth.run st events)
  = UseContainerWidth.observer st
  ∧ UseContainerWidth.mounted (UseContainerWidth.run st events)
    = UseContainerWidth.mounted st || existsb UseContainerWidth.measures events.
Proof.
  induction events as [|e events IH]; intros st; simpl.
  - by rewrite orb_false_r.
  - destruct (IH (UseContainerWidth.step st e)) as [-> ->].
    destruct (container_step_flags st e) as [-> ->].
    by rewrite orb_assoc.
Qed.

Lemma container_onMounted_onePending (o : UseContainerWidth.Options)
  (node : option Z) (hasResizeObserver : bool) :
  UseContainerWidth.onePending
    (UseContainerWidth.onMounted (UseContainerWidth.setup o) node
       hasResizeObserver).
Proof. destruct node, hasResizeObserver; done. Qed.

(** X20.  [useContainerWidth]: whatever happened since the mount (with a
    [ResizeObserver]), after a resize notification exactly one frame callback
    is pending, the one of that notification; the next animation frame
    stores its width and leaves nothing pending. *)
Theorem container_width_takes_last_resize (o : UseContainerWidth.Options)
  (node : Z) (events : list UseContainerWidth.Event) (w : Z) (rest : list Z) :
  let st :=
    UseContainerWidth.run
      (UseContainerWidth.onMounted (UseContainerWidth.setup o) (Some node) true)
      (events ++ [UseContainerWidth.Resized (w :: rest)]) in
  (∃ id, UseContainerWidth.rafId st = Some id
         ∧ UseContainerWidth.frames st = [(id, w)])
  ∧ UseContainerWidth.animationFrame st
    = UseContainerWidth.mkState w true true None []
        (UseContainerWidth.nextFrameId st)
  ∧ UseContainerWidth.animationFrame (UseContainerWidth.animationFrame st)
    = UseContainerWidth.animationFrame st.
Proof.
  intros st. unfold st, UseContainerWidth.run. rewrite foldl_app.
  fold (UseContainerWidth.run
          (UseContainerWidth.onMounted (UseContainerWidth.setup o) (Some node)
             true) events).
  set (s := UseContainerWidth.run _ events).
  assert (UseContainerWidth.onePending s) as Hp.
  { apply container_run_onePending, container_onMounted_onePending. }
  destruct (container_run_flags events
              (UseContainerWidth.onMounted (UseContainerWidth.setup o)
                 (Some node) true)) as [Ho Hm].
  fold s in Ho, Hm. simpl in Ho, Hm.
  assert (UseContainerWidth.mounted s = true) as Hm'.
  { rewrite Hm. by destruct (default false _). }
  cbn [foldl UseContainerWidth.step]. unfold UseContainerWidth.notify.
  rewrite Ho.
  set (t := UseContainerWidth.observerCallback s (w :: rest)).
  unfold UseContainerWidth.onePending in Hp.
  assert ((∃ id, UseContainerWidth.rafId t = Some id
                 ∧ UseContainerWidth.frames t = [(id, w)])
          ∧ UseContainerWidth.mounted t = true
          ∧ UseContainerWidth.observer t = true) as ((id & Hid & Hfs) & Hmt & Hot).
  { unfold t. simpl. destruct (UseContainerWidth.rafId s) as [id0|]; simpl.
    - destruct Hp as [w0 ->].
      rewrite filter_cons_False; [|simpl; intros Hn; by apply Hn].
      rewrite filter_nil. simpl. split; [by eexists|done].
    - rewrite Hp. simpl. split; [by eexists|done]. }
  clearbody t. split_and!.
  - by exists id.
  - rewrite container_animationFrame, Hfs. simpl. by rewrite Hmt, Hot.
  - rewrite !container_animationFrame, Hfs. simpl. done.
Qed.

Lemma container_onUnmounted (s : UseContainerWidth.State) :
  UseContainerWidth.onePending s →
  UseContainerWidth.frames (UseContainerWidth.onUnmounted s) = []
  ∧ UseContainerWidth.rafId (UseContainerWidth.onUnmounted s) = None
  ∧ UseContainerWidth.observer (UseContainerWidth.onUnmounted s) = false.
Proof.
  unfold UseContainerWidth.onePending, UseContainerWidth.onUnmounted.
  destruct (UseContainerWidth.rafId s) as [id|] eqn:Hid; simpl.
  - intros [w0 Hw0].
    destruct (UseContainerWidth.observer s) eqn:Hob; simpl;
      rewrite ?Hw0, ?Hob;
      (rewrite filter_cons_False; [|simpl; intros Hn; by apply Hn]);
      by rewrite filter_nil.
  - intros Hf.
    destruct (UseContainerWidth.observer s) eqn:Hob; simpl;
      by rewrite ?Hf, ?Hob, ?Hid.
Qed.

(** X21.  [useContainerWidth]: after [onUnmounted] no frame callback is
    pending and no observer is left; resize notifications and animation
    frames change nothing any more (a manual [measureWidth] that finds the
    element still does). *)
Theorem container_width_rests_after_unmount (o : UseContainerWidth.Options)
  (node : option Z) (hasResizeObserver : bool)
  (events later : list UseContainerWidth.Event) :
  Forall (λ e, UseContainerWidth.measures e = false) later →
  let st :=
    UseContainerWidth.onUnmounted
      (UseContainerWidth.run
         (UseContainerWidth.onMounted (UseContainerWidth.setup o) node
            hasResizeObserver) events) in
  UseContainerWidth.run st later = st
  ∧ UseContainerWidth.frames st = []
  ∧ UseContainerWidth.rafId st = None
  ∧ UseContainerWidth.observer st = false.
Proof.
  intros Hlater st.
  assert (UseContainerWidth.frames st = [] ∧ UseContainerWidth.rafId st = None
          ∧ UseContainerWidth.observer st = false) as (Hf & Hr & Ho).
  { apply container_onUnmounted, container_run_onePending,
      container_onMounted_onePending. }
  split_and!; try done.
  clearbody st.
  induction Hlater as [|e later He _ IH]; [done|].
  simpl. assert (UseContainerWidth.step st e = st) as ->; [|done].
  destruct e as [[w|]|entries|]; simpl in *; try done.
  - unfold UseContainerWidth.notify. by rewrite Ho.
  - rewrite container_animationFrame, Hf. simpl. destruct st; simpl in *.
    by subst.
Qed.

(** X22.  [useContainerWidth]: [mounted] is true exactly when
    [measureBeforeMount] was not asked for, or the element was there at
    [onMounted], or a later [measureWidth] found it; it never goes back to
    false. *)
Theorem container_mounted_once_measured (o : UseContainerWidth.Options)
  (node : option Z) (hasResizeObserver : bool)
  (events : list UseContainerWidth.Event) :
  let st :=
    UseContainerWidth.run
      (UseContainerWidth.onMounted (UseContainerWidth.setup o) node
         hasResizeObserver) events in
  UseContainerWidth.mounted st
  = negb (default false (UseContainerWidth.measureBeforeMount o))
    || bool_decide (is_Some node)
    || existsb UseContainerWidth.measures events.
Proof.
  intros st. unfold st.
  destruct (container_run_flags events
              (UseContainerWidth.onMounted (UseContainerWidth.setup o) node
                 hasResizeObserver)) as [_ ->].
  f_equal. destruct node as [w|], hasResizeObserver; simpl;
    by destruct (default false _).
Qed.

(* ------------------------------------------------------------------ *)
(** * The ids of the component selector *)
(* ------------------------------------------------------------------ *)

Lemma string_app_cons (x : ascii) (a b : string) :
  String x a +:+ b = String x (a +:+ b).
Proof. reflexivity. Qed.

Lemma string_app_nil (a : string) : "" +:+ a = a.
Proof. reflexivity. Qed.

Lemma string_app_assoc (a b c : string) : (a +:+ b) +:+ c = a +:+ b +:+ c.
Proof.
  induction a as [|x a IH]; [done|]. by rewrite !string_app_cons, IH.
Qed.

Lemma hasDash_app (a b : string) :
  ComponentSelector.hasDash (a +:+ b)
  = ComponentSelector.hasDash a || ComponentSelector.hasDash b.
Proof.
  induction a as [|x a IH]; [done|]. rewrite string_app_cons.
  cbn [ComponentSelector.hasDash]. rewrite IH. by rewrite orb_assoc.
Qed.

Lemma pretty_N_go_hasDash (x : N) : ∀ s : string,
  ComponentSelector.hasDash (pretty_N_go x s) = ComponentSelector.hasDash s.
Proof.
  induction (N.lt_wf_0 x) as [x _ IH]. intros s.
  destruct (decide (x = 0)%N) as [->|Hx]; [by rewrite pretty_N_go_0|].
  rewrite pretty_N_go_step by lia. rewrite IH.
  - simpl. unfold pretty_N_char. by repeat case_match.
  - apply N.div_lt; lia.
Qed.

Lemma pretty_N_hasDash (x : N) : ComponentSelector.hasDash (pretty x) = false.
Proof.
  unfold pretty, pretty_N. case_decide; [done|]. by rewrite pretty_N_go_hasDash.
Qed.

Lemma after_last_dash (u v : string) :
  ComponentSelector.hasDash u = false → ComponentSelector.hasDash v = false →
  ∀ a b : string, a +:+ "-" +:+ u = b +:+ "-" +:+ v → u = v.
Proof.
  intros Hu Hv. induction a as [|x a IH]; intros [|y b] Heq;
    rewrite ?string_app_cons, ?string_app_nil in Heq.
  - by simplify_eq.
  - simplify_eq. rewrite hasDash_app in Hu. simpl in Hu.
    by rewrite orb_true_r in Hu.
  - simplify_eq. rewrite hasDash_app in Hv. simpl in Hv.
    by rewrite orb_true_r in Hv.
  - simplify_eq. by eapply IH.
Qed.

(** The id that [generateId] returns at the counter value [c]. *)
Lemma generateId_counter (idPrefix : string) (st : ComponentSelector.State)
  (now : N) :
  let g := ComponentSelector.generateId idPrefix st now in
  ComponentSelector.itemCounter g.1 = (ComponentSelector.itemCounter st + 1)%N
  ∧ g.2 = (idPrefix +:+ "-" +:+ pretty now) +:+ "-"
          +:+ pretty (ComponentSelector.itemCounter g.1).
Proof. simpl. split; [done|]. by rewrite !string_app_assoc. Qed.

Lemma ids_by_counter (a b : string) (c d : N) :
  a +:+ "-" +:+ pretty c = b +:+ "-" +:+ pretty d → c = d.
Proof.
  intros Heq. apply after_last_dash in Heq; [|apply pretty_N_hasDash..].
  by apply (inj pretty).
Qed.

Lemma NoDup_by_key {A B : Type} (R : A → B → Prop) (l : list A) (k : list B) :
  (∀ x y y', R x y → R x y' → y = y') →
  Forall2 R l k → NoDup k → NoDup l.
Proof.
  intros Hfun Hlk. induction Hlk as [|x y l k Hxy Hlk IH]; [constructor|].
  intros [Hy Hk]%NoDup_cons. apply NoDup_cons. split; [|by apply IH].
  intros Hx. apply list_elem_of_lookup in Hx as [n Hn].
  destruct (Forall2_lookup_l _ _ _ _ _ Hlk Hn) as (y' & Hy' & Hxy').
  apply Hy. rewrite (Hfun x y y' Hxy Hxy'). by eapply list_elem_of_lookup_2.
Qed.

Lemma selector_changes_counters (options : list ComponentSelector.ComponentOption)
  (idPrefix : string) (st : ComponentSelector.State) (events : list (string * N)) :
  let r := ComponentSelector.changes options idPrefix st events in
  ∃ cs : list N,
    Forall2 (λ id c, ∃ a, id = a +:+ "-" +:+ pretty c)
      (ComponentSelector.addedIds r.2) cs
    ∧ cs = (λ k, (ComponentSelector.itemCounter st + N.of_nat (S k))%N)
           <$> seq 0 (length cs)
    ∧ ComponentSelector.itemCounter r.1
      = (ComponentSelector.itemCounter st + N.of_nat (length cs))%N.
Proof.
  induction events as [|[value now] events IH] using rev_ind.
  - exists []. simpl. split_and!; [constructor|done|lia].
  - simpl in *. destruct IH as (cs & Hids & Hcs & Hc).
    unfold ComponentSelector.changes in *. rewrite foldl_app. simpl.
    set (r := foldl _ _ events) in *.
    unfold ComponentSelector.handleChange.
    case_bool_decide as Hv; simpl.
    { exists cs. unfold ComponentSelector.addedIds in *.
      rewrite omap_app. simpl. by rewrite app_nil_r. }
    destruct (List.find _ options) as [opt|]; simpl.
    + exists (cs ++ [(ComponentSelector.itemCounter r.1 + 1)%N]).
      unfold ComponentSelector.addedIds in *. rewrite omap_app. simpl.
      split_and!.
      * apply Forall2_app; [done|]. constructor; [|constructor].
        exists (idPrefix +:+ "-" +:+ pretty now).
        by rewrite !string_app_assoc.
      * rewrite length_app. simpl. rewrite Nat.add_1_r, seq_S, fmap_app.
        simpl. rewrite <-Hcs. f_equal. f_equal. lia.
      * rewrite length_app. simpl. lia.
    + exists cs. unfold ComponentSelector.addedIds in *.
      rewrite omap_app. simpl. by rewrite app_nil_r.
Qed.

(** X23.  [ComponentSelector]: over any run of change events, whatever the
    clock returns, the ids of the items the selector asks to add are
    pairwise distinct, and [itemCounter] has grown by their number. *)
Theorem selector_ids_never_repeat
  (options : list ComponentSelector.ComponentOption) (idPrefix : string)
  (st : ComponentSelector.State) (events : list (string * N)) :
  let r := ComponentSelector.changes options idPrefix st events in
  NoDup (ComponentSelector.addedIds r.2)
  ∧ ComponentSelector.itemCounter r.1
    = (ComponentSelector.itemCounter st
       + N.of_nat (length (ComponentSelector.addedIds r.2)))%N.
Proof.
  intros r.
  destruct (selector_changes_counters options idPrefix st events)
    as (cs & Hids & Hcs & Hc).
  fold r in Hids, Hc. split.
  - eapply NoDup_by_key; [|exact Hids|].
    + intros id c d [a ->] [b Hb]. by eapply ids_by_counter.
    + rewrite Hcs. apply NoDup_fmap_2; [|apply NoDup_seq].
      intros j k Hjk. lia.
  - rewrite Hc. by rewrite (Forall2_length _ _ _ Hids).
Qed.

(* ------------------------------------------------------------------ *)
(** * The example page *)
(* ------------------------------------------------------------------ *)

(** X24.  examples/App.vue: choosing one of the four components in the
    selector adds one item at the end of the layout, with the generated id,
    at row [Infinity] and with the default size of the component; the item is
    mapped to the component and rendered by a widget of the registry, not the
    default widget.  "Remove Last" then restores the page, when the layout
    was not empty and the id was not mapped before. *)
Theorem app_adds_selected_component (st : App.State)
  (sel : ComponentSelector.State) (idPrefix value : string) (now : N)
  (option : ComponentSelector.ComponentOption) :
  List.find (λ opt, bool_decide (ComponentSelector.co_id opt = value))
    App.componentOptions = Some option →
  let r :=
    ComponentSelector.handleChange App.componentOptions idPrefix sel value now in
  let st' := foldl App.onSelectorEmit st r.2 in
  let id := (ComponentSelector.generateId idPrefix sel now).2 in
  ∃ it,
    App.layout st' = App.layout st ++ [it]
    ∧ App.gi_i it = id
    ∧ App.gi_y it = ComponentSelector.Infinity
    ∧ Some (App.gi_w it) = ComponentSelector.co_defaultW option
    ∧ Some (App.gi_h it) = ComponentSelector.co_defaultH option
    ∧ App.getComponentId st' id = Some value
    ∧ App.getWidgetComponent (App.getComponentId st' id) ≠ App.DefaultWidget
    ∧ (App.layout st ≠ [] → App.componentMap st !! id = None →
       App.removeItem st' = st).
Proof.
  intros Hfind r st' id.
  assert (value ≠ ""%string ∧ ComponentSelector.co_id option = value
          ∧ App.getWidgetComponent (Some value) ≠ App.DefaultWidget
          ∧ is_Some (ComponentSelector.co_defaultW option)
          ∧ is_Some (ComponentSelector.co_defaultH option))
    as (Hne & Hid & Hw & [dw Hdw] & [dh Hdh]).
  { unfold App.componentOptions in Hfind. simpl in Hfind.
    repeat case_bool_decide; simplify_eq; simpl;
      split_and!; try done; by eexists. }
  unfold st', r, ComponentSelector.handleChange.
  rewrite bool_decide_eq_false_2 by done. rewrite Hfind. simpl.
  unfold App.onAddComponent. simpl.
  rewrite Hid, (bool_decide_eq_true_2 (value ≠ ""%string)) by done.
  eexists. split_and!; try done.
  - simpl. by rewrite Hdw.
  - simpl. by rewrite Hdh.
  - unfold App.getComponentId. simpl. apply lookup_insert_eq.
  - unfold App.getComponentId. simpl. by rewrite lookup_insert_eq.
  - intros Hl Hm. unfold App.removeItem. simpl.
    rewrite length_app. simpl.
    rewrite bool_decide_eq_true_2
      by (destruct (App.layout st); [done|simpl; lia]).
    rewrite last_snoc. simpl.
    replace (length (App.layout st) + 1 - 1)%nat with (length (App.layout st))
      by lia.
    rewrite take_app_length. rewrite delete_insert_id by exact Hm.
    by destruct st.
Qed.

Lemma app_step_keeps_one (st : App.State) (e : App.Event) :
  ¬ App.emptiesLayout e →
  App.layout st ≠ [] → App.layout (App.step st e) ≠ [].
Proof.
  intros He Hl. destruct e as [payload| |itemId| |newLayout]; simpl; try done.
  - by destruct (App.layout st).
  - unfold App.removeItem. case_bool_decide as Hlen; [|done]. simpl.
    intros Htake. apply (f_equal length) in Htake.
    rewrite length_take in Htake. simpl in Htake. lia.
  - destruct newLayout; [|done]. by destruct He.
Qed.

(** X25.  examples/App.vue: "Remove Last" removes the last item as long as
    two are left, and of the events of the page only a layout without items
    that the grid writes back through [v-model:layout] empties a layout that
    holds an item: after any run of events without such a write-back the
    layout still holds an item; the write-back itself empties it. *)
Theorem app_layout_emptied_only_by_grid (st : App.State)
  (events : list App.Event) :
  App.layout st ≠ [] →
  Forall (λ e, ¬ App.emptiesLayout e) events →
  App.layout (App.run st events) ≠ []
  ∧ (length (App.layout (App.run st (events ++ [App.RemoveLast])))
     = Nat.max 1 (length (App.layout (App.run st events)) - 1))%nat
  ∧ App.layout (App.run st (events ++ [App.UpdateLayout []])) = [].
Proof.
  intros Hl Hev.
  assert (App.layout (App.run st events) ≠ []) as Hrun.
  { revert st Hl. induction Hev as [|e events He _ IH]; intros st Hl; [done|].
    simpl. apply IH. by apply app_step_keeps_one. }
  split; [done|].
  unfold App.run in *. rewrite !foldl_app. simpl. split; [|done].
  set (s := foldl App.step st events) in *.
  unfold App.removeItem. case_bool_decide as Hlen; simpl.
  - rewrite length_take. lia.
  - destruct (App.layout s) as [|a [|b l]]; simpl in *; [done|done|lia].
Qed.

(* ------------------------------------------------------------------ *)
(** * The drag gesture of a grid item *)
(* ------------------------------------------------------------------ *)

Section grid_item.
Context {Px : Type} `{Pixels Px}.
Context {Constraints : Type} `{!GridItem.CoreCalculate (Px := Px) Constraints}.

Lemma handleDrag_active (props : GridItem.Props) (st : GridItem.State)
  (touch : option GridItem.Client) (h : option Px) :
  GridItem.dragging st = true → GridItem.dragPending st = false →
  let r := GridItem.handleDrag props st touch h in
  GridItem.dragging r.1 = true ∧ GridItem.dragPending r.1 = false
  ∧ GridItem.resizing r.1 = GridItem.resizing st
  ∧ Forall GridItem.isDrag r.2.
Proof.
  intros Hd Hp. unfold GridItem.handleDrag. rewrite Hd, Hp. cbn [negb andb].
  destruct touch as [touch|]; cbn [fst snd GridItem.dragging
    GridItem.dragPending GridItem.resizing]; [|done].
  split_and!; try done. cbn [app]. by repeat constructor.
Qed.

Lemma handleDrag_pending (props : GridItem.Props) (st : GridItem.State)
  (touch : option GridItem.Client) (h : option Px) :
  GridItem.dragging st = true → GridItem.dragPending st = true →
  GridItem.thresholdExceeded st = false →
  let r := GridItem.handleDrag props st touch h in
  (GridItem.within props (GridItem.initialDragClient st) (touch, h) →
   r = (st, []))
  ∧ (r = (st, [])
     ∨ (GridItem.dragging r.1 = true ∧ GridItem.dragPending r.1 = false
        ∧ GridItem.resizing r.1 = GridItem.resizing st
        ∧ ∃ d, r.2 = [GridItem.emitDragStart props (GridItem.dragPosition st); d]
               ∧ GridItem.isDrag d)).
Proof.
  intros Hd Hp He. unfold GridItem.handleDrag, GridItem.within.
  rewrite Hd, Hp, He. cbn [negb andb fst].
  destruct touch as [touch|]; [|auto].
  destruct (px_lt _ _) eqn:Hlt; [auto|].
  split; [by intros ?|]. right.
  cbn [fst snd GridItem.dragging GridItem.dragPending GridItem.resizing app].
  split_and!; try done. by eexists.
Qed.

Lemma griditem_moves_active (props : GridItem.Props)
  (moves : list (option GridItem.Client * option Px)) :
  ∀ (st : GridItem.State) (es : list GridItem.Emit),
  GridItem.dragging st = true → GridItem.dragPending st = false →
  let r :=
    foldl (λ r m, GridItem.andThen r (λ s, GridItem.handleDrag props s m.1 m.2))
      (st, es) moves in
  GridItem.dragging r.1 = true ∧ GridItem.dragPending r.1 = false
  ∧ GridItem.resizing r.1 = GridItem.resizing st
  ∧ ∃ ds, r.2 = es ++ ds ∧ Forall GridItem.isDrag ds.
Proof.
  induction moves as [|[touch h] moves IH]; intros st es Hd Hp.
  - simpl. split_and!; try done. exists []. by rewrite app_nil_r.
  - cbn [foldl].
    assert (GridItem.andThen (st, es)
              (λ s, GridItem.handleDrag props s (touch, h).1 (touch, h).2)
            = ((GridItem.handleDrag props st touch h).1,
               es ++ (GridItem.handleDrag props st touch h).2)) as -> by done.
    destruct (handleDrag_active props st touch h Hd Hp) as (Hd1 & Hp1 & Hr1 & Hall1).
    destruct (GridItem.handleDrag props st touch h) as [s1 es1]. simpl in *.
    destruct (IH s1 (es ++ es1) Hd1 Hp1) as (Hd' & Hp' & Hr' & ds & Hds & Hall).
    split_and!; try done; [congruence|].
    exists (es1 ++ ds). split; [by rewrite Hds, app_assoc|].
    by apply Forall_app.
Qed.

Lemma griditem_moves_pending (props : GridItem.Props)
  (moves : list (option GridItem.Client * option Px)) :
  ∀ (st : GridItem.State) (es : list GridItem.Emit),
  GridItem.dragging st = true → GridItem.dragPending st = true →
  GridItem.thresholdExceeded st = false →
  let r :=
    foldl (λ r m, GridItem.andThen r (λ s, GridItem.handleDrag props s m.1 m.2))
      (st, es) moves in
  (Forall (GridItem.within props (GridItem.initialDragClient st)) moves →
   r = (st, es))
  ∧ (r = (st, es)
     ∨ (GridItem.dragging r.1 = true ∧ GridItem.dragPending r.1 = false
        ∧ GridItem.resizing r.1 = GridItem.resizing st
        ∧ ∃ d ds,
            r.2 = es ++ GridItem.emitDragStart props (GridItem.dragPosition st)
                        :: d :: ds
            ∧ Forall GridItem.isDrag (d :: ds))).
Proof.
  induction moves as [|[touch h] moves IH]; intros st es Hd Hp He.
  - simpl. auto.
  - cbn [foldl].
    assert (GridItem.andThen (st, es)
              (λ s, GridItem.handleDrag props s (touch, h).1 (touch, h).2)
            = ((GridItem.handleDrag props st touch h).1,
               es ++ (GridItem.handleDrag props st touch h).2)) as -> by done.
    destruct (handleDrag_pending props st touch h Hd Hp He) as [Hin Hor].
    destruct Hor as [Hsame | (Hd1 & Hp1 & Hr1 & d & Hes1 & Hisd)].
    + rewrite Hsame. cbn [fst snd]. rewrite app_nil_r.
      destruct (IH st es Hd Hp He) as [Hin' Hor']. split; [|done].
      intros [_ Hrest]%Forall_cons. by apply Hin'.
    + split.
      { intros [Hw _]%Forall_cons. specialize (Hin Hw).
        rewrite Hin in Hes1. done. }
      right. destruct (GridItem.handleDrag props st touch h) as [s1 es1].
      simpl in *. subst es1.
      destruct (griditem_moves_active props moves s1
                  (es ++ [GridItem.emitDragStart props (GridItem.dragPosition st); d])
                  Hd1 Hp1) as (Hd' & Hp' & Hr' & ds & Hds & Hall).
      split_and!; try done; [congruence|].
      exists d, ds. split; [by rewrite Hds, <-app_assoc|].
      by constructor.
Qed.

Lemma griditem_moves_idle (props : GridItem.Props)
  (moves : list (option GridItem.Client * option Px)) :
  ∀ (st : GridItem.State) (es : list GridItem.Emit),
  GridItem.dragging st = false →
  foldl (λ r m, GridItem.andThen r (λ s, GridItem.handleDrag props s m.1 m.2))
    (st, es) moves
  = (st, es).
Proof.
  induction moves as [|[touch h] moves IH]; intros st es Hd; [done|].
  cbn [foldl].
  assert (GridItem.andThen (st, es)
            (λ s, GridItem.handleDrag props s (touch, h).1 (touch, h).2)
          = (st, es)) as ->; [|by apply IH].
  unfold GridItem.andThen, GridItem.handleDrag. cbn [fst snd].
  rewrite Hd. cbn [negb fst snd]. by rewrite app_nil_r.
Qed.

Lemma griditem_onPress (props : GridItem.Props) (byTouch : bool)
  (st : GridItem.State) (e : GridItem.Press) (rects : option GridItem.Rects) :
  GridItem.onPress props byTouch st e rects = (st, [])
  ∨ ∃ rs, rects = Some rs
          ∧ GridItem.onPress props byTouch st e rects
            = GridItem.startDrag props st (GridItem.pointer e) (Some rs).
Proof.
  unfold GridItem.onPress, GridItem.handleTouchStart, GridItem.handleMouseDown.
  destruct rects as [rs|].
  - destruct byTouch; repeat (destruct (negb _); [by left|]);
      right; by exists rs.
  - left. by destruct byTouch; repeat (destruct (negb _); [done|]).
Qed.

(** X26.  [GridItem]: after a gesture on an idle item the item is idle again, and the events
    of the gesture are none at all, or one [dragStart] for the position of
    the press, [drag] events, and one [dragStop]. *)
Theorem drag_gesture_events_are_bracketed (props : GridItem.Props)
  (st : GridItem.State) (byTouch : bool) (e : GridItem.Press)
  (rects : option GridItem.Rects)
  (moves : list (option GridItem.Client * option Px)) :
  GridItem.idle st →
  let r := GridItem.gesture props st byTouch e rects moves in
  (r.2 = []
   ∨ ∃ rs ds stop,
       rects = Some rs
       ∧ r.2 = GridItem.emitDragStart props (GridItem.pressPosition props rs)
               :: ds ++ [stop]
       ∧ Forall GridItem.isDrag ds ∧ GridItem.isDragStop stop)
  ∧ GridItem.idle r.1
  ∧ GridItem.resizing r.1 = GridItem.resizing st.
Proof.
  intros [Hidle Hpend]. unfold GridItem.gesture, GridItem.idle. cbv zeta.
  destruct (griditem_onPress props byTouch st e rects) as [-> | (rs & -> & ->)].
  { rewrite griditem_moves_idle by done.
    unfold GridItem.andThen, GridItem.handleDragStop. cbn [fst snd].
    rewrite Hidle. simpl. auto. }
  unfold GridItem.startDrag. fold (GridItem.pressPosition props rs).
  destruct (px_lt px_zero (GridItem.dragThreshold props)) eqn:Hthr.
  - match goal with
    | |- context [foldl ?f (?s, ?e) moves] =>
        destruct (griditem_moves_pending props moves s e
                    eq_refl eq_refl eq_refl) as [_ Hor];
        destruct (foldl f (s, e) moves) as [s2 es2]
    end.
    cbn [fst snd GridItem.resizing GridItem.dragPosition app] in Hor.
    unfold GridItem.andThen, GridItem.handleDragStop. cbn [fst snd].
    destruct Hor as [Heq | (Hd & Hp & Hr & d & ds & Hes & Hall)].
    + simplify_eq. simpl. auto.
    + rewrite Hd, Hp, Hes. simpl. split_and!; try done.
      right. eexists rs, (d :: ds), _. split_and!; [done|done|done|done].
  - match goal with
    | |- context [foldl ?f (?s, ?e) moves] =>
        destruct (griditem_moves_active props moves s e eq_refl Hpend)
          as (Hd & Hp & Hr & ds & Hes & Hall);
        destruct (foldl f (s, e) moves) as [s2 es2]
    end.
    cbn [fst snd GridItem.resizing app] in Hd, Hp, Hr, Hes.
    unfold GridItem.andThen, GridItem.handleDragStop. cbn [fst snd].
    rewrite Hd, Hp, Hes. simpl. split_and!; try done.
    right. eexists rs, ds, _. split_and!; [done|done|done|done].
Qed.

(** X27.  [GridItem]: with a positive drag threshold, a gesture on an idle item whose moves
    all stay within the threshold of the press emits no drag event, and the
    click that follows selects the item (unless a resize is going on). *)
Theorem press_within_threshold_is_a_click (props : GridItem.Props)
  (st : GridItem.State) (byTouch : bool) (e : GridItem.Press)
  (rects : option GridItem.Rects)
  (moves : list (option GridItem.Client * option Px)) :
  GridItem.idle st →
  px_lt px_zero (GridItem.dragThreshold props) = true →
  Forall (GridItem.within props (GridItem.pointer e)) moves →
  let r := GridItem.gesture props st byTouch e rects moves in
  r.2 = []
  ∧ GridItem.idle r.1
  ∧ GridItem.handleClick props r.1
    = if GridItem.resizing st then []
      else [GridItem.emit_select (li_i (GridItem.layoutItem props))].
Proof.
  intros [Hidle Hpend] Hthr Hin. unfold GridItem.gesture, GridItem.idle.
  cbv zeta.
  destruct (griditem_onPress props byTouch st e rects) as [-> | (rs & -> & ->)].
  { rewrite griditem_moves_idle by done.
    unfold GridItem.andThen, GridItem.handleDragStop, GridItem.handleClick.
    cbn [fst snd]. rewrite Hidle. simpl. by rewrite Hidle. }
  unfold GridItem.startDrag. rewrite Hthr.
  match goal with
  | |- context [foldl _ (?s, ?e) moves] =>
      destruct (griditem_moves_pending props moves s e
                  eq_refl eq_refl eq_refl) as [Hsame _]
  end.
  rewrite (Hsame Hin). unfold GridItem.andThen, GridItem.handleDragStop,
    GridItem.handleClick. simpl. done.
Qed.
End grid_item.

(* ------------------------------------------------------------------ *)
(** * The further theorems at work *)
(* ------------------------------------------------------------------ *)

(** A drag of item "a" of the demo layout with two updates, one of them for
    an unknown id: a props layout is ignored meanwhile. *)
Lemma composable_props_sync_waits_for_drag_end_witness :
  is_Some (Engine.getLayoutItem Examples.demoLayout "a")
  ∧ let st2 :=
      foldl (λ s m,
               UseGridLayout.onDrag (H := Engine.layoutCore)
                 Examples.composableOptions s m.1 m.2.1 m.2.2)
        (UseGridLayout.onDragStart (H := Engine.layoutCore)
           Examples.composableState "a" 0 0).1
        [("a"%string, (1, 0)); ("zz"%string, (5, 5))] in
    UseGridLayout.propsWatcher (H := Engine.layoutCore)
      Examples.composableOptions st2 [] = st2.
Proof.
  split; [by eexists|].
  destruct (composable_props_sync_waits_for_drag_end (H := Engine.layoutCore)
              Examples.composableOptions Examples.composableState "a" 0 0
              [("a"%string, (1, 0)); ("zz"%string, (5, 5))] [])
    as [Hblocked _]; [by eexists|].
  exact Hblocked.
Defined.

(** No item of the demo layout has the id "zz"; after [setLayout] the
    layout is normalised, and resizing "zz" changes nothing. *)
Lemma composable_resize_of_unknown_id_renormalises_witness :
  ("zz"%string ∉ li_i <$> UseGridLayout.layout Scenarios.normalisedState)
  ∧ UseGridLayout.onResize (H := Engine.layoutCore)
      Examples.composableOptions Scenarios.normalisedState "zz" 3 3 None None
    = Scenarios.normalisedState.
Proof.
  assert ("zz"%string ∉ li_i <$> UseGridLayout.layout Scenarios.normalisedState)
    as Hn.
  { apply (bool_decide_unpack _). vm_compute. exact I. }
  split; [exact Hn|].
  destruct (composable_resize_of_unknown_id_renormalises
              (H := Engine.layoutCore) Examples.composableOptions
              Scenarios.normalisedState "zz" 3 3 None None Hn)
    as (_ & _ & Hsame).
  apply Hsame. vm_compute. reflexivity.
Defined.

(** The placeholder dragged over the demo layout twice. *)
Lemma drop_dragover_adds_item_once_witness :
  findsById (H := Engine.layoutCore)
  ∧ UseGridLayoutDrop.droppingElem
      ∈ li_i <$> UseGridLayout.layout
                   (UseGridLayoutDrop.refs
                      (UseGridLayoutDrop.onDropDragOver (H := Engine.layoutCore)
                         Examples.composableOptions Scenarios.dropState
                         Scenarios.placeholder (10, 10))).
Proof.
  split; [exact engine_findsById|].
  destruct (drop_dragover_adds_item_once (H := Engine.layoutCore)
              Examples.composableOptions Scenarios.dropState
              Scenarios.placeholder (10, 10) (20, 10)) as [Hin _].
  - exact engine_findsById.
  - exact (engine_correctBounds_keepsIds 12).
  - exact (engine_compact_keepsIds Vertical false 12).
  - exact Hin.
Defined.

(** The placeholder dragged over the demo layout and out again. *)
Lemma drop_leave_restores_item_ids_witness :
  (li_i Scenarios.placeholder = UseGridLayoutDrop.droppingElem
   ∧ UseGridLayoutDrop.droppingElem ∉ li_i <$> Examples.demoLayout)
  ∧ li_i <$> UseGridLayout.layout
               (UseGridLayoutDrop.refs
                  (UseGridLayoutDrop.onDropDragLeave
                     (UseGridLayoutDrop.onDropDragOver (H := Engine.layoutCore)
                        Examples.composableOptions Scenarios.dropState
                        Scenarios.placeholder (10, 10))))
    = ["a"%string; "b"%string].
Proof.
  assert (UseGridLayoutDrop.droppingElem ∉ li_i <$> Examples.demoLayout) as Hn.
  { apply (bool_decide_unpack _). vm_compute. exact I. }
  split; [split; [reflexivity|exact Hn]|].
  destruct (drop_leave_restores_item_ids (H := Engine.layoutCore)
              Examples.composableOptions Scenarios.dropState
              Scenarios.placeholder (10, 10)) as [Hids _].
  - exact engine_findsById.
  - exact (engine_correctBounds_keepsIds 12).
  - exact (engine_compact_keepsIds Vertical false 12).
  - reflexivity.
  - exact Hn.
  - exact Hids.
Defined.

(** Dropping item "n" where the placeholder stands between "a" and "b";
    and a drag-in over the demo layout followed by the drop. *)
Lemma drop_commits_dropped_item_witness :
  (li_i Scenarios.placeholder = UseGridLayoutDrop.droppingElem
   ∧ UseGridLayoutDrop.droppingElem ∉ li_i <$> Examples.demoLayout)
  ∧ li_i <$> UseGridLayout.layout
               (UseGridLayoutDrop.refs
                  (UseGridLayoutDrop.onDrop (H := Engine.layoutCore)
                     Examples.composableOptions Scenarios.droppingState
                     Scenarios.droppedItem))
    = ["a"%string; "n"%string; "b"%string]
  ∧ li_i <$> UseGridLayout.layout
               (UseGridLayoutDrop.refs
                  (UseGridLayoutDrop.onDrop (H := Engine.layoutCore)
                     Examples.composableOptions
                     (UseGridLayoutDrop.onDropDragOver (H := Engine.layoutCore)
                        Examples.composableOptions Scenarios.dropState
                        Scenarios.placeholder (10, 10))
                     Scenarios.droppedItem))
    = ["a"%string; "b"%string; "n"%string].
Proof.
  assert (UseGridLayoutDrop.droppingElem ∉ li_i <$> Examples.demoLayout) as Hn.
  { apply (bool_decide_unpack _). vm_compute. exact I. }
  split; [split; [reflexivity|exact Hn]|].
  destruct (drop_commits_dropped_item (H := Engine.layoutCore)
              (DroppingPosition := (Z * Z)%type)
              Examples.composableOptions Scenarios.droppedItem)
    as (Hdrop & Hdragin).
  - exact (engine_correctBounds_keepsIds 12).
  - exact (engine_compact_keepsIds Vertical false 12).
  - split.
    + destruct (Hdrop Scenarios.droppingState) as [Hids _]. exact Hids.
    + destruct (Hdragin engine_findsById Scenarios.dropState
                  Scenarios.placeholder (10, 10)) as (Hids & _);
        [reflexivity | exact Hn | exact Hids].
Defined.

(** A drag of item "a" of the demo layout in the component. *)
Lemma component_props_sync_waits_for_drag_end_witness :
  is_Some (Engine.getLayoutItem Examples.demoLayout "a")
  ∧ let st2 :=
      foldl (λ s m,
               (GridLayout.onDrag (H := Engine.layoutCore)
                  Examples.componentEnv s m.1 m.2.1 m.2.2).1)
        (GridLayout.onDragStart (H := Engine.layoutCore)
           Examples.componentState "a" 0 0).1
        [("a"%string, (1, 0)); ("zz"%string, (5, 5))] in
    GridLayout.propsWatcher (H := Engine.layoutCore)
      Examples.componentEnv st2 [] = st2.
Proof.
  split; [by eexists|].
  destruct (component_props_sync_waits_for_drag_end (H := Engine.layoutCore)
              Examples.componentEnv Examples.componentState "a" 0 0
              [("a"%string, (1, 0)); ("zz"%string, (5, 5))] [])
    as [Hblocked _]; [by eexists|].
  exact Hblocked.
Defined.

(** The stop of the drag of item "a" to column 3, row 1 reports the moved
    layout. *)
Lemma component_reported_layout_is_current_witness :
  GridLayoutContainer.emit_grid
    (GridLayout.emit_update_layout Scenarios.movedLayout)
    ∈ (GridLayoutContainer.onGrid
         (λ g, GridLayout.onDragStop (H := Engine.layoutCore)
                 Examples.componentEnv g "a" 3 1)
         Scenarios.containerDragging).2
  ∧ GridLayout.internalLayout
      (GridLayoutContainer.grid
         (GridLayoutContainer.onGrid
            (λ g, GridLayout.onDragStop (H := Engine.layoutCore)
                    Examples.componentEnv g "a" 3 1)
            Scenarios.containerDragging).1)
    = Scenarios.movedLayout.
Proof.
  assert (GridLayoutContainer.emit_grid
            (GridLayout.emit_update_layout Scenarios.movedLayout)
            ∈ (GridLayoutContainer.onGrid
                 (λ g, GridLayout.onDragStop (H := Engine.layoutCore)
                         Examples.componentEnv g "a" 3 1)
                 Scenarios.containerDragging).2) as Hin.
  { vm_compute. right. left. }
  split; [exact Hin|].
  destruct (component_reported_layout_is_current (H := Engine.layoutCore)
              Examples.componentEnv Scenarios.containerDragging
              "a" 3 1 2 2 handle_se "Escape"
              (GridLayoutContainer.onGrid
                 (λ g, GridLayout.onDragStop (H := Engine.layoutCore)
                         Examples.componentEnv g "a" 3 1)
                 Scenarios.containerDragging)
              Scenarios.movedLayout) as [Hcur _].
  - left.
  - exact Hin.
  - exact Hcur.
Defined.

(** Item "a" of the demo layout selected and removed with Escape. *)
Lemma escape_removes_selected_item_witness :
  ("a"%string ≠ ""%string
   ∧ Engine.getLayoutItem Examples.demoLayout "a" = Some Examples.itemA)
  ∧ li_i <$> GridLayout.internalLayout
               (GridLayoutContainer.grid
                  (GridLayoutContainer.handleKeydown (H := Engine.layoutCore)
                     Examples.componentEnv
                     (GridLayoutContainer.onItemSelect
                        Scenarios.containerState "a").1 "Escape").1)
    = ["b"%string].
Proof.
  split; [split; [done|reflexivity]|].
  destruct (escape_removes_selected_item (H := Engine.layoutCore)
              Examples.componentEnv Scenarios.containerState "a" Examples.itemA)
    as [Hids _].
  - done.
  - reflexivity.
  - exact (engine_compact_keepsIds Vertical false 12).
  - exact Hids.
Defined.

(** The pointer enters the grid and a child, and leaves both: the layout
    is without a placeholder. *)
Lemma drop_placeholder_leaves_with_the_pointer_witness :
  GridLayoutContainer.depth 0
    [GridLayoutContainer.dragenter; GridLayoutContainer.dragenter;
     GridLayoutContainer.dragleave; GridLayoutContainer.dragleave] = 0
  ∧ GridLayout.internalLayout
      (GridLayoutContainer.grid
         (foldl (GridLayoutContainer.onDragEvent true)
            (GridLayoutContainer.mkState
               (GridLayout.mkState
                  (Examples.demoLayout ++ [Scenarios.placeholder])
                  None false None None false)
               None 0)
            [GridLayoutContainer.dragenter; GridLayoutContainer.dragenter;
             GridLayoutContainer.dragleave; GridLayoutContainer.dragleave]))
    = Examples.demoLayout.
Proof.
  split; [reflexivity|].
  destruct (drop_placeholder_leaves_with_the_pointer
              [GridLayoutContainer.dragenter; GridLayoutContainer.dragenter;
               GridLayoutContainer.dragleave; GridLayoutContainer.dragleave]
              (GridLayoutContainer.mkState
                 (GridLayout.mkState
                    (Examples.demoLayout ++ [Scenarios.placeholder])
                    None false None None false)
                 None 0)) as (_ & _ & Hleave & _).
  rewrite (Hleave [GridLayoutContainer.dragenter; GridLayoutContainer.dragenter;
                   GridLayoutContainer.dragleave]); reflexivity.
Defined.

(** The responsive component shrinking from "lg" to "sm": the layout stored
    under "lg" stays. *)
Lemma responsive_watcher_keeps_other_breakpoints_witness :
  ("lg"%string
   ≠ ResponsiveGridLayout.currentBreakpoint
       (ResponsiveGridLayout.widthWatcher
          (H := Engine.layoutCore) (H0 := Examples.responsiveEngine)
          Examples.responsiveComponentState Examples.responsiveProps).1)
  ∧ ResponsiveGridLayout.internalLayouts
      (ResponsiveGridLayout.widthWatcher
         (H := Engine.layoutCore) (H0 := Examples.responsiveEngine)
         Examples.responsiveComponentState Examples.responsiveProps).1
      !! "lg"%string
    = Some Examples.demoLayout.
Proof.
  assert ("lg"%string
          ≠ ResponsiveGridLayout.currentBreakpoint
              (ResponsiveGridLayout.widthWatcher
                 (H := Engine.layoutCore) (H0 := Examples.responsiveEngine)
                 Examples.responsiveComponentState Examples.responsiveProps).1)
    as Hne.
  { vm_compute. done. }
  split; [exact Hne|].
  destruct (responsive_watcher_keeps_other_breakpoints
              (H := Engine.layoutCore) (H0 := Examples.responsiveEngine)
              Examples.responsiveComponentState Examples.responsiveProps
              "lg" Hne) as [Hkept _].
  rewrite Hkept; [reflexivity|by eexists].
Defined.

(** The child reports the demo layout to the responsive component. *)
Lemma responsive_layout_change_reports_state_witness :
  ResponsiveGridLayout.emit_layoutChange Examples.demoLayout
    (<["lg"%string := Examples.demoLayout]> {[ "lg"%string := Examples.demoLayout ]})
    ∈ (ResponsiveGridLayoutWatchers.step
         (H := Engine.layoutCore) (H0 := Examples.responsiveEngine)
         Scenarios.responsiveWatchers
         (ResponsiveGridLayoutWatchers.LayoutReported Examples.demoLayout)).2
  ∧ ResponsiveGridLayout.currentLayout
      (ResponsiveGridLayoutWatchers.responsive
         (ResponsiveGridLayoutWatchers.step
            (H := Engine.layoutCore) (H0 := Examples.responsiveEngine)
            Scenarios.responsiveWatchers
            (ResponsiveGridLayoutWatchers.LayoutReported Examples.demoLayout)).1)
    = Examples.demoLayout.
Proof.
  assert (ResponsiveGridLayout.emit_layoutChange Examples.demoLayout
            (<["lg"%string := Examples.demoLayout]>
               {[ "lg"%string := Examples.demoLayout ]})
            ∈ (ResponsiveGridLayoutWatchers.step
                 (H := Engine.layoutCore) (H0 := Examples.responsiveEngine)
                 Scenarios.responsiveWatchers
                 (ResponsiveGridLayoutWatchers.LayoutReported
                    Examples.demoLayout)).2) as Hin.
  { simpl. left. }
  split; [exact Hin|].
  destruct (responsive_layout_change_reports_state
              (H := Engine.layoutCore) (H0 := Examples.responsiveEngine)
              Scenarios.responsiveWatchers
              (ResponsiveGridLayoutWatchers.LayoutReported Examples.demoLayout)
              Examples.demoLayout _ Examples.responsiveProps Hin)
    as [Hcur _].
  exact Hcur.
Defined.

(** The responsive component through a change of width and a reported
    layout. *)
Lemma responsive_current_layout_stays_stored_witness :
  ResponsiveGridLayoutWatchers.stored Examples.responsiveComponentState
  ∧ ResponsiveGridLayoutWatchers.stored
      (ResponsiveGridLayoutWatchers.responsive
         (ResponsiveGridLayoutWatchers.run
            (H := Engine.layoutCore) (H0 := Examples.responsiveEngine)
            Scenarios.responsiveWatchers
            [ResponsiveGridLayoutWatchers.PropsChanged Examples.responsiveProps;
             ResponsiveGridLayoutWatchers.LayoutReported Examples.demoLayout])).
Proof.
  split; [reflexivity|].
  apply (responsive_current_layout_stays_stored
           (H := Engine.layoutCore) (H0 := Examples.responsiveEngine)
           Scenarios.responsiveWatchers
           [ResponsiveGridLayoutWatchers.PropsChanged Examples.responsiveProps;
            ResponsiveGridLayoutWatchers.LayoutReported Examples.demoLayout]).
  - reflexivity.
  - repeat constructor.
Defined.

(** The responsive component adopts the layout of the drag of item "a". *)
Lemma responsive_adopts_reported_layout_witness :
  GridLayout.emit_update_layout Scenarios.movedLayout
    ∈ (GridLayout.onDragStop (H := Engine.layoutCore) Examples.componentEnv
         Examples.componentDragging "a" 3 1).2
  ∧ ResponsiveGridLayout.currentLayout
      (ResponsiveGridLayoutWatchers.onGridLayoutEmits
         Examples.responsiveComponentState
         (GridLayout.onDragStop (H := Engine.layoutCore) Examples.componentEnv
            Examples.componentDragging "a" 3 1).2).1
    = Scenarios.movedLayout.
Proof.
  assert (GridLayout.emit_update_layout Scenarios.movedLayout
            ∈ (GridLayout.onDragStop (H := Engine.layoutCore)
                 Examples.componentEnv Examples.componentDragging "a" 3 1).2)
    as Hin.
  { vm_compute. right. left. }
  split; [exact Hin|].
  destruct (responsive_adopts_reported_layout (H := Engine.layoutCore)
              Examples.componentEnv Examples.componentDragging
              Examples.responsiveComponentState "a" 3 1 2 2 handle_se
              (GridLayout.onDragStop (H := Engine.layoutCore)
                 Examples.componentEnv Examples.componentDragging "a" 3 1))
    as [Hadopt _]; [left|].
  destruct (Hadopt Hin) as [Hcur _]. exact Hcur.
Defined.

(** A container measured at 900 pixels, resized and unmounted: a late
    notification and a late frame change nothing. *)
Lemma container_width_rests_after_unmount_witness :
  Forall (λ e, UseContainerWidth.measures e = false)
    [UseContainerWidth.Resized [500]; UseContainerWidth.Frame]
  ∧ UseContainerWidth.width
      (UseContainerWidth.run
         (UseContainerWidth.onUnmounted
            (UseContainerWidth.run
               (UseContainerWidth.onMounted
                  (UseContainerWidth.setup (UseContainerWidth.mkOptions None None))
                  (Some 900) true)
               [UseContainerWidth.Resized [800]]))
         [UseContainerWidth.Resized [500]; UseContainerWidth.Frame])
    = 900.
Proof.
  assert (Forall (λ e, UseContainerWidth.measures e = false)
            [UseContainerWidth.Resized [500]; UseContainerWidth.Frame]) as Hl.
  { repeat constructor. }
  split; [exact Hl|].
  destruct (container_width_rests_after_unmount
              (UseContainerWidth.mkOptions None None) (Some 900) true
              [UseContainerWidth.Resized [800]]
              [UseContainerWidth.Resized [500]; UseContainerWidth.Frame] Hl)
    as [Hrest _].
  rewrite Hrest. reflexivity.
Defined.

(** Choosing "chart" on the page of the examples. *)
Lemma app_adds_selected_component_witness :
  List.find (λ opt, bool_decide (ComponentSelector.co_id opt = "chart"%string))
    App.componentOptions
  = head App.componentOptions
  ∧ length
      (App.layout
         (foldl App.onSelectorEmit Scenarios.appState
            (ComponentSelector.handleChange App.componentOptions "item"
               Scenarios.selectorState "chart" 1700000000000).2))
    = 7%nat.
Proof.
  split; [reflexivity|].
  destruct (app_adds_selected_component Scenarios.appState
              Scenarios.selectorState "item" "chart" 1700000000000
              (ComponentSelector.mkComponentOption "chart" "Chart Widget"
                 (Some 3) (Some 2) (Some 2) (Some 2) None None None None))
    as (it & Hlayout & _); [reflexivity|].
  rewrite Hlayout, length_app. reflexivity.
Defined.

(** The page of the examples: "Remove Last" seven times; then the grid
    writes the demo layout back and "Remove Last" is pressed again. *)
Lemma app_layout_emptied_only_by_grid_witness :
  App.layout Scenarios.appState ≠ []
  ∧ App.layout
      (App.run Scenarios.appState
         (replicate 7 App.RemoveLast
          ++ [App.UpdateLayout Examples.demoLayout; App.RemoveLast])) ≠ [].
Proof.
  split; [done|].
  destruct (app_layout_emptied_only_by_grid Scenarios.appState
              (replicate 7 App.RemoveLast
               ++ [App.UpdateLayout Examples.demoLayout; App.RemoveLast]))
    as [Hkept _]; [done | | exact Hkept].
  repeat constructor; discriminate.
Defined.

(** A press on item "a" at (10, 10), a move to (11, 10), which stays
    within the threshold, a move to (30, 10), and the release. *)
Lemma drag_gesture_events_are_bracketed_witness :
  GridItem.idle Scenarios.itemState
  ∧ GridItem.idle
      (GridItem.gesture (H := Scenarios.pixelsZ) (H0 := Scenarios.calculateZ)
         Scenarios.itemProps Scenarios.itemState false Scenarios.itemPress
         (Some Scenarios.itemRects)
         [(Some (GridItem.mkClient 11 10), None);
          (Some (GridItem.mkClient 30 10), None)]).1.
Proof.
  split; [done|].
  destruct (drag_gesture_events_are_bracketed
              (H := Scenarios.pixelsZ) (H0 := Scenarios.calculateZ)
              Scenarios.itemProps Scenarios.itemState false Scenarios.itemPress
              (Some Scenarios.itemRects)
              [(Some (GridItem.mkClient 11 10), None);
               (Some (GridItem.mkClient 30 10), None)])
    as (_ & Hidle & _); [done|].
  exact Hidle.
Defined.

(** A press on item "a" at (10, 10), a move to (11, 11), and the release:
    a click. *)
Lemma press_within_threshold_is_a_click_witness :
  (GridItem.idle Scenarios.itemState
   ∧ px_lt (Pixels := Scenarios.pixelsZ) (px_zero (Pixels := Scenarios.pixelsZ))
       (GridItem.dragThreshold Scenarios.itemProps) = true
   ∧ Forall (GridItem.within (H := Scenarios.pixelsZ) Scenarios.itemProps
               (GridItem.pointer Scenarios.itemPress))
       [(Some (GridItem.mkClient 11 11), None)])
  ∧ (GridItem.gesture (H := Scenarios.pixelsZ) (H0 := Scenarios.calculateZ)
       Scenarios.itemProps Scenarios.itemState false Scenarios.itemPress
       (Some Scenarios.itemRects)
       [(Some (GridItem.mkClient 11 11), None)]).2
    = [].
Proof.
  assert (Forall (GridItem.within (H := Scenarios.pixelsZ) Scenarios.itemProps
                    (GridItem.pointer Scenarios.itemPress))
            [(Some (GridItem.mkClient 11 11), None)]) as Hw.
  { repeat constructor. }
  split; [split_and!; [done|reflexivity|exact Hw]|].
  destruct (press_within_threshold_is_a_click
              (H := Scenarios.pixelsZ) (H0 := Scenarios.calculateZ)
              Scenarios.itemProps Scenarios.itemState false Scenarios.itemPress
              (Some Scenarios.itemRects)
              [(Some (GridItem.mkClient 11 11), None)])
    as [Hnone _]; [done|reflexivity|exact Hw|].
  exact Hnone.
Defined.
